(** * central / configd: a shallow embedding of the configuration library

    The development follows the Python sources:
    - [configd/utils.py]      : [merge_properties]
    - [configd/readers.py]    : the reader registry and [IniReader]
    - [central/config/core.py]: [BaseConfig], [BaseDataConfig], [ChainConfig],
      [CommandLineConfig], [EnvironmentConfig], [FileConfig], [MergeConfig],
      [ReloadConfig], [UrlConfig]
    - [configd/config/s3.py]  : [S3Config]

    Python values are trees (no two places of a value share one mutable
    object); strings are byte strings restricted to ASCII case folding and
    ASCII white space.  In-place mutation becomes explicit state passing. *)

From Stdlib Require Import List String Ascii ZArith Bool Lia Arith.
Import ListNotations.

Open Scope string_scope.
Open Scope Z_scope.

(* ================================================================== *)
(** * Python strings *)
(* ================================================================== *)

Module PyStr.

(** [str.lower] on the ASCII range. *)
Definition lower_ascii (a : ascii) : ascii :=
  let n := nat_of_ascii a in
  if (Nat.leb 65 n && Nat.leb n 90)%bool then ascii_of_nat (n + 32) else a.

Fixpoint lower (s : string) : string :=
  match s with
  | EmptyString => EmptyString
  | String a s' => String (lower_ascii a) (lower s')
  end.

(** [str.isspace] for one character of the ASCII range (Python 3):
    TAB, LF, VT, FF, CR, FS, GS, RS, US and SPACE. *)
Definition isspace (a : ascii) : bool :=
  let n := nat_of_ascii a in
  ((Nat.leb 9 n && Nat.leb n 13) || (Nat.leb 28 n && Nat.leb n 32))%bool.

(** [s.lstrip(chars)], [s.rstrip(chars)], [s.strip(chars)], the set of
    characters given as a predicate. *)
Fixpoint lstrip_with (p : ascii -> bool) (s : string) : string :=
  match s with
  | EmptyString => EmptyString
  | String a s' => if p a then lstrip_with p s' else s
  end.

Fixpoint rstrip_with (p : ascii -> bool) (s : string) : string :=
  match s with
  | EmptyString => EmptyString
  | String a s' =>
      match rstrip_with p s' with
      | EmptyString => if p a then EmptyString else String a EmptyString
      | r => String a r
      end
  end.

Definition strip_with (p : ascii -> bool) (s : string) : string :=
  rstrip_with p (lstrip_with p s).

(** [s.strip()] *)
Definition strip (s : string) : string := strip_with isspace s.

(** [s.startswith(prefix)] *)
Fixpoint startswith (s prefix : string) : bool :=
  match prefix, s with
  | EmptyString, _ => true
  | String p prefix', String a s' => (Ascii.eqb a p && startswith s' prefix')%bool
  | String _ _, EmptyString => false
  end.

(** [s.endswith(c)] for a one-character suffix. *)
Fixpoint endswith_char (s : string) (c : ascii) : bool :=
  match s with
  | EmptyString => false
  | String a EmptyString => Ascii.eqb a c
  | String _ s' => endswith_char s' c
  end.

(** [c in s] for a one-character needle. *)
Fixpoint contains (c : ascii) (s : string) : bool :=
  match s with
  | EmptyString => false
  | String a s' => (Ascii.eqb a c || contains c s')%bool
  end.

(** [s.find(c)]: the index of the first occurrence, [-1] when there is
    none. *)
Fixpoint find_from (c : ascii) (s : string) (i : Z) : Z :=
  match s with
  | EmptyString => -1
  | String a s' => if Ascii.eqb a c then i else find_from c s' (i + 1)
  end.

Definition find (c : ascii) (s : string) : Z := find_from c s 0.

(** [s.rfind(c)]: the index of the last occurrence, [-1] when there is
    none. *)
Fixpoint rfind_from (c : ascii) (s : string) (i : Z) (last : Z) : Z :=
  match s with
  | EmptyString => last
  | String a s' =>
      rfind_from c s' (i + 1) (if Ascii.eqb a c then i else last)
  end.

Definition rfind (c : ascii) (s : string) : Z := rfind_from c s 0 (-1).

Fixpoint drop (n : nat) (s : string) : string :=
  match n, s with
  | O, _ => s
  | S n', String _ s' => drop n' s'
  | S _, EmptyString => EmptyString
  end.

Fixpoint take (n : nat) (s : string) : string :=
  match n, s with
  | O, _ => EmptyString
  | S n', String a s' => String a (take n' s')
  | S _, EmptyString => EmptyString
  end.

(** [s[start:]] and [s[start:stop]] for indices that are not negative
    (the only ones the sources compute). *)
Definition slice_from (s : string) (start : Z) : string :=
  drop (Z.to_nat start) s.

Definition slice (s : string) (start stop : Z) : string :=
  take (Z.to_nat (stop - start)) (drop (Z.to_nat start) s).

(** [s.split(c)] for a one-character separator. *)
Fixpoint split (c : ascii) (s : string) : list string :=
  match s with
  | EmptyString => [EmptyString]
  | String a s' =>
      if Ascii.eqb a c then EmptyString :: split c s'
      else match split c s' with
           | h :: t => String a h :: t
           | [] => [String a EmptyString]
           end
  end.

(** [xs[0]] and [xs[-1]] of a list of strings that is not empty. *)
Definition first (xs : list string) : string := hd EmptyString xs.
Definition last (xs : list string) : string := List.last xs EmptyString.

(** Truth value of a string: [bool(s)]. *)
Definition truthy (s : string) : bool :=
  match s with EmptyString => false | _ => true end.

End PyStr.

(* ================================================================== *)
(** * Exceptions and results *)
(* ================================================================== *)

Inductive exn : Type :=
| TypeError (msg : string)
| ValueError (msg : string)
| KeyError (key : string)
| IndexError (msg : string)
| AttributeError (msg : string)
| ConfigError (msg : string)
| LibraryRequiredError (msg : string)
| IOError (msg : string).

Inductive result (A : Type) : Type :=
| Ok (a : A)
| Raise (e : exn).

Arguments Ok {A} a.
Arguments Raise {A} e.

Definition rbind {A B} (r : result A) (k : A -> result B) : result B :=
  match r with
  | Ok a => k a
  | Raise e => Raise e
  end.

Declare Scope result_scope.
Delimit Scope result_scope with res.
Notation "x <- r ;; k" := (rbind r (fun x => k))
  (at level 61, r at next level, right associativity) : result_scope.
Notation "' pat <- r ;; k" := (rbind r (fun x => match x with pat => k end))
  (at level 61, pat pattern, r at next level, right associativity) : result_scope.

(* ================================================================== *)
(** * Python values *)
(* ================================================================== *)

(** A mapping keeps its items in insertion order.  [VDict] is the built-in
    [dict]; [VIgnoreCaseDict] is [structures.IgnoreCaseDict].  A float is
    carried as the bit pattern of its binary64 representation: the
    functions of this development only move floats around. *)
#[warnings="-register-all"]
Inductive pyvalue : Type :=
| VNone
| VBool (b : bool)
| VInt (n : Z)
| VFloat (bits : Z)
| VStr (s : string)
| VList (xs : list pyvalue)
| VDict (items : list (string * pyvalue))
| VIgnoreCaseDict (items : list (string * pyvalue)).

Definition items := list (string * pyvalue).

(** [type(v)], and the type objects a caller can ask [get_value] for. *)
Inductive pytype : Type :=
| TNoneType | TBool | TInt | TFloat | TStr | TList | TDict
| TIgnoreCaseDict | TObject.

Definition pytype_eqb (a b : pytype) : bool :=
  match a, b with
  | TNoneType, TNoneType | TBool, TBool | TInt, TInt | TFloat, TFloat
  | TStr, TStr | TList, TList | TDict, TDict
  | TIgnoreCaseDict, TIgnoreCaseDict | TObject, TObject => true
  | _, _ => false
  end.

Definition type_of (v : pyvalue) : pytype :=
  match v with
  | VNone => TNoneType
  | VBool _ => TBool
  | VInt _ => TInt
  | VFloat _ => TFloat
  | VStr _ => TStr
  | VList _ => TList
  | VDict _ => TDict
  | VIgnoreCaseDict _ => TIgnoreCaseDict
  end.

(** [v is None] *)
Definition is_none (v : pyvalue) : bool :=
  match v with VNone => true | _ => false end.

(** [isinstance(v, Mapping)] *)
Definition isinstance_Mapping (v : pyvalue) : bool :=
  match v with VDict _ | VIgnoreCaseDict _ => true | _ => false end.

(** [isinstance(v, IgnoreCaseDict)] *)
Definition isinstance_IgnoreCaseDict (v : pyvalue) : bool :=
  match v with VIgnoreCaseDict _ => true | _ => false end.

(** [isinstance(v, string_types)] *)
Definition isinstance_str (v : pyvalue) : bool :=
  match v with VStr _ => true | _ => false end.

(** [bool(v)] *)
Definition truthy (v : pyvalue) : bool :=
  match v with
  | VNone => false
  | VBool b => b
  | VInt n => negb (n =? 0)
  | VFloat bits => negb ((bits =? 0) || (bits =? 2 ^ 63))
  | VStr s => PyStr.truthy s
  | VList xs => match xs with [] => false | _ => true end
  | VDict d | VIgnoreCaseDict d => match d with [] => false | _ => true end
  end.

(* ------------------------------------------------------------------ *)
(** ** Insertion-ordered mappings *)
(* ------------------------------------------------------------------ *)

(** The operations are written once over the comparison of keys. *)
Module Assoc.

Section WithKeyEq.
Variable keq : string -> string -> bool.

Fixpoint lookup (d : items) (key : string) : option pyvalue :=
  match d with
  | [] => None
  | (k, v) :: rest => if keq k key then Some v else lookup rest key
  end.

(** [d.get(key)] *)
Definition get (d : items) (key : string) : pyvalue :=
  match lookup d key with Some v => v | None => VNone end.

(** [d[key] = v]: an existing entry keeps its place (and its key);
    a new one goes last. *)
Fixpoint set (d : items) (key : string) (v : pyvalue) : items :=
  match d with
  | [] => [(key, v)]
  | (k, w) :: rest =>
      if keq k key then (k, v) :: rest else (k, w) :: set rest key v
  end.

(** [del d[key]], nothing when the key is missing. *)
Fixpoint remove (d : items) (key : string) : items :=
  match d with
  | [] => []
  | (k, w) :: rest =>
      if keq k key then rest else (k, w) :: remove rest key
  end.

(** [d.pop(key, None)]: the value removed and the mapping left. *)
Definition pop (d : items) (key : string) : pyvalue * items :=
  (get d key, remove d key).

(** [d.update(src)] *)
Definition update (d : items) (src : items) : items :=
  fold_left (fun acc kv => set acc (fst kv) (snd kv)) src d.

(** [key in d] *)
Definition mem (d : items) (key : string) : bool :=
  match lookup d key with Some _ => true | None => false end.
End WithKeyEq.

End Assoc.

(** [dict]: keys compared as they are. *)
Definition dict_get := Assoc.get String.eqb.
Definition dict_set := Assoc.set String.eqb.
Definition dict_update := Assoc.update String.eqb.
Definition dict_pop := Assoc.pop String.eqb.

(** Modelled from the spec: [structures.IgnoreCaseDict], the module
    [structures.py] being absent from the sources.  An ordered mapping whose lookup, containment
    and overwrite fold the case of the key; the entry keeps the place and
    the spelling of the key inserted first, and there is one entry per
    case-folded key. *)
Module IgnoreCaseDict.
Definition keq (k key : string) : bool :=
  String.eqb (PyStr.lower k) (PyStr.lower key).

Definition get := Assoc.get keq.
Definition set := Assoc.set keq.
Definition pop := Assoc.pop keq.
Definition mem := Assoc.mem keq.

(** [IgnoreCaseDict()] and [IgnoreCaseDict(mapping)] for a flat mapping
    of strings (the process environment). *)
Definition empty : items := [].

Definition of_environ (environ : list (string * string)) : items :=
  fold_left (fun acc kv => set acc (fst kv) (VStr (snd kv))) environ empty.
End IgnoreCaseDict.

(** [m.get(key)] on whichever mapping [m] is. *)
Definition mapping_get (m : pyvalue) (key : string) : pyvalue :=
  match m with
  | VDict d => dict_get d key
  | VIgnoreCaseDict d => IgnoreCaseDict.get d key
  | _ => VNone
  end.

(** [m.pop(key, None)]; a value that is no mapping has no such method. *)
Definition mapping_pop (m : pyvalue) (key : string) : result (pyvalue * pyvalue) :=
  match m with
  | VDict d =>
      let '(v, d') := dict_pop d key in Ok (v, VDict d')
  | VIgnoreCaseDict d =>
      let '(v, d') := IgnoreCaseDict.pop d key in Ok (v, VIgnoreCaseDict d')
  | _ => Raise (AttributeError "pop")
  end.

(* ================================================================== *)
(** * configd/utils.py *)
(* ================================================================== *)

Module Utils.

(** The body of the loop of [merge_properties] for one key of [src],
    [merge] being the recursive call (the source value first). *)
Definition merge_key (merge : pyvalue -> items -> items) (dst : items)
    (key : string) (src_value : pyvalue) : items :=
  let dst_value := dict_get dst key in
  if (is_none src_value || is_none dst_value)%bool then
    dict_set dst key src_value
  else if negb (pytype_eqb (type_of src_value) (type_of dst_value)) then
    dst
  else
    match dst_value with
    | VDict dst_items => dict_set dst key (VDict (merge src_value dst_items))
    | _ => dict_set dst key src_value
    end.

(** [merge_properties(dst, src)], the destination returned instead of
    mutated.  The loop runs over the items of [src]: for a [dict], the
    value of an item is [src.get(key)] of its key.  The recursion is on
    the source value, so it is written on [pyvalue] with the loop
    inside. *)
Fixpoint merge_properties_into (src : pyvalue) (dst : items) {struct src} : items :=
  match src with
  | VDict src_items =>
      if (Z.of_nat (List.length dst) =? 0) then dict_update dst src_items
      else
        (fix loop (rest : items) (dst : items) {struct rest} : items :=
           match rest with
           | [] => dst
           | (key, src_value) :: rest' =>
               loop rest' (merge_key merge_properties_into dst key src_value)
           end) src_items dst
  | _ => dst
  end.

Definition merge_properties (dst src : items) : items :=
  merge_properties_into (VDict src) dst.

End Utils.

(* ================================================================== *)
(** * The host: what the library reads from the outside *)
(* ================================================================== *)

(** The state of a [ConfigParser] after [read_file]: its sections, the
    options of a section, and [parser.get(section, option, raw=True)]. *)
Record ConfigParser : Type := {
  sections : list string;
  options : string -> list string;
  get_option_raw : string -> string -> string
}.

(** The reader classes of [readers.py], and readers of the application
    (any implementation of [abc.Reader], given by its [read]).  The readers
    have no state: an instance is written as its class. *)
Inductive reader : Type :=
| IniReader
| JsonReader
| YamlReader
| CustomReader (read : string -> result pyvalue).

(** The registry [__readers]: a [dict] from names to reader classes. *)
Definition registry := list (string * reader).

(** The process and the libraries behind the compatibility layer.  Streams
    are the text (or the bytes) they deliver. *)
Record Host : Type := {
  argv : list string;                               (* sys.argv *)
  environ : list (string * string);                 (* os.environ *)
  path_exists : string -> bool;                     (* os.path.exists *)
  path_join : string -> string -> string;           (* os.path.join *)
  path_dirname : string -> string;                  (* os.path.dirname *)
  path_splitext : string -> string * string;        (* os.path.splitext *)
  open_rb : string -> result string;                (* open(name, 'rb') *)
  codecs_decode : string -> string -> result string;(* codecs.getreader(enc) *)
  urlopen : string -> result (option string * string);
                                    (* the content-type header and the body *)
  s3_download : string -> string -> result string;  (* Object(..).download_fileobj *)
  configparser_read : string -> result ConfigParser;(* ConfigParser().read_file *)
  json_load : string -> result pyvalue;             (* json.load *)
  yaml_load : string -> result pyvalue;             (* yaml.load *)
  yaml_installed : bool;                            (* the import of yaml worked *)
  readers : registry                                (* readers.__readers *)
}.

(* ================================================================== *)
(** * configd/readers.py *)
(* ================================================================== *)

Module Readers.

Fixpoint get_reader (reg : registry) (name : string) : option reader :=
  match reg with
  | [] => None
  | (k, cls) :: rest => if String.eqb k name then Some cls else get_reader rest name
  end.

Fixpoint add_reader (reg : registry) (name : string) (reader_cls : reader) : registry :=
  match reg with
  | [] => [(name, reader_cls)]
  | (k, cls) :: rest =>
      if String.eqb k name then (k, reader_cls) :: rest
      else (k, cls) :: add_reader rest name reader_cls
  end.

Fixpoint remove_reader (reg : registry) (name : string) : option reader * registry :=
  match reg with
  | [] => (None, [])
  | (k, cls) :: rest =>
      if String.eqb k name then (Some cls, rest)
      else let '(r, rest') := remove_reader rest name in (r, (k, cls) :: rest')
  end.

(** The registry once the module is imported. *)
Definition initial_registry : registry :=
  add_reader (add_reader (add_reader [] "ini" IniReader) "json" JsonReader)
             "yaml" YamlReader.

(** [reader_cls()]: only [YamlReader.__init__] can fail. *)
Definition instantiate (host : Host) (reader_cls : reader) : result reader :=
  match reader_cls with
  | YamlReader =>
      if yaml_installed host then Ok YamlReader
      else Raise (LibraryRequiredError "PyYAML")
  | cls => Ok cls
  end.

(** [IniReader.read(stream)] *)
Definition IniReader_read (host : Host) (stream : option string) : result pyvalue :=
  match stream with
  | None => Raise (ValueError "stream cannot be None")
  | Some text =>
      (parser <- configparser_read host text ;;
       Ok (VDict
             (fold_left
                (fun data section =>
                   dict_set data section
                     (VDict
                        (fold_left
                           (fun data_section option =>
                              dict_set data_section option
                                (VStr (get_option_raw parser section option)))
                           (options parser section) [])))
                (sections parser) [])))%res
  end.

(** [JsonReader.read(stream)] *)
Definition JsonReader_read (host : Host) (stream : option string) : result pyvalue :=
  match stream with
  | None => Raise (ValueError "stream cannot be None")
  | Some text => json_load host text
  end.

(** [YamlReader.read(stream)] *)
Definition YamlReader_read (host : Host) (stream : option string) : result pyvalue :=
  match stream with
  | None => Raise (ValueError "stream cannot be None")
  | Some text => yaml_load host text
  end.

(** [reader.read(stream)], dispatched on the reader. *)
Definition read (host : Host) (r : reader) (stream : option string) : result pyvalue :=
  match r with
  | IniReader => IniReader_read host stream
  | JsonReader => JsonReader_read host stream
  | YamlReader => YamlReader_read host stream
  | CustomReader f =>
      match stream with
      | Some text => f text
      | None => Raise (ValueError "stream cannot be None")
      end
  end.

(** [utils.get_file_ext(filename)] *)
Definition get_file_ext (host : Host) (filename : string) : string :=
  PyStr.strip_with (Ascii.eqb ".") (snd (path_splitext host filename)).

End Readers.

(* ================================================================== *)
(** * State and exceptions for the methods that assign to [self] *)
(* ================================================================== *)

(** A method runs on the state of its object and ends with a value or an
    exception, the state as the method left it in both cases; [None] is a
    run that needs more steps than the bound it was given. *)
Definition M (S A : Type) : Type := S -> option (S * result A).

Module StateM.
Definition ret {S A} (a : A) : M S A := fun s => Some (s, Ok a).
Definition raise {S A} (e : exn) : M S A := fun s => Some (s, Raise e).
Definition lift {S A} (r : result A) : M S A := fun s => Some (s, r).
Definition unfinished {S A} : M S A := fun _ => None.
Definition gets {S A} (f : S -> A) : M S A := fun s => Some (s, Ok (f s)).
Definition modify {S} (f : S -> S) : M S unit := fun s => Some (f s, Ok tt).

Definition bind {S A B} (m : M S A) (k : A -> M S B) : M S B :=
  fun s =>
    match m s with
    | None => None
    | Some (s', Ok a) => k a s'
    | Some (s', Raise e) => Some (s', Raise e)
    end.

(** [try: m  except: handler] with a bare [except]. *)
Definition try_except {S A} (m : M S A) (handler : exn -> M S A) : M S A :=
  fun s =>
    match m s with
    | None => None
    | Some (s', Ok a) => Some (s', Ok a)
    | Some (s', Raise e) => handler e s'
    end.
End StateM.

Declare Scope state_scope.
Delimit Scope state_scope with st.
Notation "x <- m ;; k" := (StateM.bind m (fun x => k))
  (at level 61, m at next level, right associativity) : state_scope.
Notation "' pat <- m ;; k" := (StateM.bind m (fun x => match x with pat => k end))
  (at level 61, pat pattern, m at next level, right associativity) : state_scope.
Notation "m1 ;;; m2" := (StateM.bind m1 (fun _ => m2))
  (at level 61, right associativity) : state_scope.

(* ================================================================== *)
(** * central/config/core.py *)
(* ================================================================== *)

Definition NESTED_DELIMITER : ascii := ".".

(** The lookups of [interpolation.py], by name: a [ConfigLookup] points
    back at the configuration that owns it (given by its identity). *)
#[warnings="-register-all"]
Inductive StrLookup : Type :=
| ConfigLookup (owner : nat)
| EnvironmentLookup
| ChainLookup (lookups : list StrLookup)
| CustomLookup (id : nat).

(** [abc.StrInterpolator] and [abc.Decoder]: the configuration holds any
    implementation of them. *)
Record StrInterpolator : Type := {
  resolve : string -> StrLookup -> result string
}.

Record Decoder : Type := {
  decode : pyvalue -> pytype -> result pyvalue
}.

(** The [default] argument of the getters: a value, or a callable that is
    called when the key is missing. *)
Inductive pydefault : Type :=
| DefaultValue (v : pyvalue)
| DefaultCallable (f : unit -> result pyvalue).

(** [default() if callable(default) else default] *)
Definition eval_default (default : pydefault) : result pyvalue :=
  match default with
  | DefaultCallable f => f tt
  | DefaultValue v => Ok v
  end.

(** [abc.Config], as far as the classes below call it on their children. *)
Class Config (C : Type) : Type := {
  get_raw : C -> option string -> result pyvalue;
  get_value : C -> option string -> option pytype -> pydefault -> result pyvalue;
  load : M C unit;
  keys : C -> list string
}.

(** ** [BaseConfig]: the methods every configuration inherits *)
Module BaseConfig.
Section Methods.
Context {C : Type} `{Config C}.

(** [get(key, default=None)] *)
Definition get (self : C) (key : option string) (default : pydefault) : result pyvalue :=
  get_value self key (Some TObject) default.

(** [__contains__(key)] *)
Definition contains (self : C) (key : option string) : result bool :=
  (value <- get_raw self key ;; Ok (negb (is_none value)))%res.

(** [__getitem__(key)] *)
Definition getitem (self : C) (key : string) : result pyvalue :=
  (value <- get_value self (Some key) (Some TObject) (DefaultValue VNone) ;;
   if is_none value then Raise (KeyError key) else Ok value)%res.
End Methods.
End BaseConfig.

(** ** [BaseDataConfig] *)
Record BaseDataConfig : Type := {
  _lookup : StrLookup;
  _data : pyvalue;
  _decoder : Decoder;
  _interpolator : StrInterpolator
}.

Definition set_data (data : pyvalue) (self : BaseDataConfig) : BaseDataConfig :=
  {| _lookup := _lookup self; _data := data;
     _decoder := _decoder self; _interpolator := _interpolator self |}.

Module BaseDataConfig.

(** The loop of [get_raw] over [paths[1:]]. *)
Fixpoint walk (paths : list string) (value : pyvalue) : pyvalue :=
  match paths with
  | [] => value
  | path :: rest =>
      if is_none value then value
      else if negb (isinstance_Mapping value) then VNone
      else walk rest (mapping_get value path)
  end.

Definition get_raw (self : BaseDataConfig) (key : option string) : result pyvalue :=
  match key with
  | None => Raise (TypeError "key cannot be None")
  | Some key =>
      let value := mapping_get (_data self) key in
      if negb (is_none value) then Ok value
      else
        let paths := PyStr.split NESTED_DELIMITER key in
        if String.eqb key (PyStr.first paths) then Ok VNone
        else Ok (walk (tl paths) (mapping_get (_data self) (PyStr.first paths)))
  end.

Definition get_value (self : BaseDataConfig) (key : option string)
    (type : option pytype) (default : pydefault) : result pyvalue :=
  match key with
  | None => Raise (TypeError "key cannot be None")
  | Some key =>
      match type with
      | None => Raise (TypeError "type cannot be None")
      | Some type =>
          (value <- get_raw self (Some key) ;;
           if is_none value then eval_default default
           else
             value <- match value with
                      | VStr s =>
                          s' <- resolve (_interpolator self) s (_lookup self) ;;
                          Ok (VStr s')
                      | _ => Ok value
                      end ;;
             match type with
             | TObject => Ok value
             | _ => decode (_decoder self) value type
             end)%res
      end
  end.

(** [__iter__]: the keys of the backing map. *)
Definition iter (self : BaseDataConfig) : list string :=
  match _data self with
  | VDict d | VIgnoreCaseDict d => map fst d
  | _ => []
  end.

(** [__len__]: the number of keys of the backing map. *)
Definition len (self : BaseDataConfig) : Z :=
  match _data self with
  | VDict d | VIgnoreCaseDict d => Z.of_nat (List.length d)
  | _ => 0
  end.

(** [__init__] *)
Definition init (self_id : nat) (decoder : Decoder) (interpolator : StrInterpolator)
  : BaseDataConfig :=
  {| _lookup := ConfigLookup self_id;
     _data := VIgnoreCaseDict IgnoreCaseDict.empty;
     _decoder := decoder;
     _interpolator := interpolator |}.

(** A subclass is a configuration once it brings its [load]. *)
Definition as_config (load : M BaseDataConfig unit) : Config BaseDataConfig :=
  Build_Config BaseDataConfig get_raw get_value load iter.

End BaseDataConfig.

(** ** [MemoryConfig] *)
Module MemoryConfig.

(** [load()]: nothing. *)
Definition load : M BaseDataConfig unit := StateM.ret tt.

Definition config : Config BaseDataConfig := BaseDataConfig.as_config load.

End MemoryConfig.

(** ** [ChainConfig] *)
Record ChainConfig (C : Type) : Type := {
  chain_configs : list C;
  chain_lookup : StrLookup
}.
Arguments chain_configs {C} _.
Arguments chain_lookup {C} _.

Module ChainConfig.
Section Methods.
Context {C : Type} `{Config C}.

(** The loop [for config in configs: value = f(config); if value is not
    None: return value] followed by [return None]. *)
Fixpoint first_found (f : C -> result pyvalue) (configs : list C) : result pyvalue :=
  match configs with
  | [] => Ok VNone
  | config :: rest =>
      (value <- f config ;;
       if negb (is_none value) then Ok value else first_found f rest)%res
  end.

Definition get_raw (self : ChainConfig C) (key : option string) : result pyvalue :=
  first_found (fun config => get_raw config key)
              (rev (chain_configs self)).

Definition get_value (self : ChainConfig C) (key : option string)
    (type : option pytype) (default : pydefault) : result pyvalue :=
  (value <- first_found
              (fun config =>
                 get_value config key type (DefaultValue VNone))
              (rev (chain_configs self)) ;;
   if negb (is_none value) then Ok value else eval_default default)%res.

(** [for config in self._configs: config.load()], the children already
    loaded kept as they are when a later one raises. *)
Fixpoint load_each (loaded : list C) (configs : list C) : option (list C * result unit) :=
  match configs with
  | [] => Some (loaded, Ok tt)
  | config :: rest =>
      match load config with
      | None => None
      | Some (config', Ok _) => load_each (loaded ++ [config'])%list rest
      | Some (config', Raise e) => Some ((loaded ++ config' :: rest)%list, Raise e)
      end
  end.

Definition load : M (ChainConfig C) unit :=
  fun self =>
    match load_each [] (chain_configs self) with
    | None => None
    | Some (configs', r) =>
        Some ({| chain_configs := configs'; chain_lookup := chain_lookup self |}, r)
    end.

(** [_build_cached_keys] *)
Definition build_cached_keys (self : ChainConfig C) : items :=
  fold_left
    (fun cached config =>
       fold_left (fun cached key => IgnoreCaseDict.set cached key (VBool true))
                 (keys config) cached)
    (chain_configs self) IgnoreCaseDict.empty.

#[export] Instance config : Config (ChainConfig C) := {
  get_raw := get_raw;
  get_value := get_value;
  load := load;
  keys := fun self => map fst (build_cached_keys self)
}.
End Methods.
End ChainConfig.

(** ** [CommandLineConfig] *)
Module CommandLineConfig.

(** The value of [key_start_index] once the two tests on the leading
    dashes of [current_arg] are done. *)
Definition key_start_index (current_arg : string) : Z :=
  if PyStr.startswith current_arg "--" then 2
  else if PyStr.startswith current_arg "-" then 1
  else 0.

(** The [while True] loop of [load] over the iterator of the arguments,
    [data] being the map built so far. *)
Fixpoint parse (args : list string) (data : items) : result items :=
  match args with
  | [] => Ok data
  | current_arg :: rest =>
      let key_start_index := key_start_index current_arg in
      let separator := PyStr.find "=" current_arg in
      if separator =? -1 then
        if key_start_index =? 0 then
          Raise (ConfigError ("Unrecognized argument " ++ current_arg ++ " format"))
        else
          let key := PyStr.slice_from current_arg key_start_index in
          match rest with
          | [] => Raise (ConfigError ("Value for argument " ++ key ++ " is missing"))
          | value :: rest' =>
              parse rest' (IgnoreCaseDict.set data key (VStr value))
          end
      else
        let key := PyStr.strip (PyStr.slice current_arg key_start_index separator) in
        if negb (PyStr.truthy key) then
          Raise (ConfigError ("Unrecognized argument " ++ current_arg ++ " format"))
        else
          let value := PyStr.strip (PyStr.slice_from current_arg (separator + 1)) in
          parse rest (IgnoreCaseDict.set data key (VStr value))
  end.

Definition load (host : Host) : M BaseDataConfig unit :=
  (data <- StateM.lift (parse (tl (argv host)) IgnoreCaseDict.empty) ;;
   StateM.modify (set_data (VIgnoreCaseDict data)))%st.

End CommandLineConfig.

(** ** [EnvironmentConfig] *)
Module EnvironmentConfig.

Definition load (host : Host) : M BaseDataConfig unit :=
  StateM.modify
    (set_data (VIgnoreCaseDict (IgnoreCaseDict.of_environ (environ host)))).

End EnvironmentConfig.

(** [abc.Mapping] as [utils.merge_dict] reads its sources. *)
Record Mapping : Type := {
  mapping_get_ : string -> result pyvalue;
  mapping_contains : string -> result bool;
  mapping_getitem : string -> result pyvalue;
  mapping_iter : list string;
  mapping_len : Z
}.

(** A [dict] or an [IgnoreCaseDict] seen as a [Mapping]. *)
Definition Mapping_of_value (m : pyvalue) : Mapping :=
  let d := match m with VDict d | VIgnoreCaseDict d => d | _ => [] end in
  {| mapping_get_ := fun key => Ok (mapping_get m key);
     mapping_contains := fun key =>
       Ok match m with
          | VDict d => Assoc.mem String.eqb d key
          | VIgnoreCaseDict d => IgnoreCaseDict.mem d key
          | _ => false
          end;
     mapping_getitem := fun key =>
       match match m with
             | VDict d => Assoc.lookup String.eqb d key
             | VIgnoreCaseDict d => Assoc.lookup IgnoreCaseDict.keq d key
             | _ => None
             end with
       | Some v => Ok v
       | None => Raise (KeyError key)
       end;
     mapping_iter := map fst d;
     mapping_len := Z.of_nat (List.length d) |}.

(** [utils.merge_dict(target, *sources)] of the current package is absent
    from the sources: the loaders take it as [merge_dict_t], the target
    returned instead of mutated. *)
Definition merge_dict_t : Type := pyvalue -> list Mapping -> result pyvalue.

(** ** [FileConfig] *)
Record FileConfig : Type := {
  file_base : BaseDataConfig;
  _filename : string;
  file_reader : option reader
}.

Module FileConfig.

Definition set_data (data : pyvalue) (self : FileConfig) : FileConfig :=
  {| file_base := set_data data (file_base self);
     _filename := _filename self;
     file_reader := file_reader self |}.

(** [_get_reader(filename)] *)
Definition _get_reader (host : Host) (filename : string) : M FileConfig reader :=
  let extension := Readers.get_file_ext host filename in
  if negb (PyStr.truthy extension) then
    StateM.raise (ConfigError ("File " ++ filename ++ " is not supported"))
  else
    match Readers.get_reader (readers host) extension with
    | None => StateM.raise (ConfigError ("File " ++ filename ++ " is not supported"))
    | Some reader_cls => StateM.lift (Readers.instantiate host reader_cls)
    end.

(** The loop of [_find_file] over the candidate names. *)
Fixpoint find_first (host : Host) (interpolator : StrInterpolator)
    (lookup : StrLookup) (filenames : list string) : result (option string) :=
  match filenames with
  | [] => Ok None
  | filename :: rest =>
      (filename <- resolve interpolator filename lookup ;;
       if path_exists host filename then Ok (Some filename)
       else find_first host interpolator lookup rest)%res
  end.

(** [_find_file(filename, paths)] *)
Definition _find_file (host : Host) (filename : string)
    (paths : option (list string)) : M FileConfig (option string) :=
  let filenames :=
    match paths with
    | Some (path :: paths') =>
        map (fun path => path_join host path filename) (path :: paths')
    | _ => [filename]
    end in
  (interpolator <- StateM.gets (fun self => _interpolator (file_base self)) ;;
   own_lookup <- StateM.gets (fun self => _lookup (file_base self)) ;;
   let lookup := ChainLookup [EnvironmentLookup; own_lookup] in
   StateM.lift (find_first host interpolator lookup filenames))%st.

(** [_read_file(filename)] *)
Definition _read_file (host : Host) (filename : string) : M FileConfig pyvalue :=
  (own_reader <- StateM.gets file_reader ;;
   reader <- match own_reader with
             | Some r => StateM.ret r
             | None => _get_reader host filename
             end ;;
   stream <- StateM.lift (open_rb host filename) ;;
   text <- StateM.lift (codecs_decode host "utf-8" stream) ;;
   StateM.lift (Readers.read host reader (Some text)))%st.

(** The [while filename:] loop of [load]; [fuel] bounds the number of
    files followed through [@next].  The name is a string at every turn
    (the one of the constructor, then a [@next] that was checked), so the
    last branch is never taken. *)
Fixpoint load_loop (fuel : nat) (host : Host) (filename : pyvalue)
    (paths : option (list string)) (to_merge : list pyvalue)
  : M FileConfig (list pyvalue) :=
  if negb (truthy filename) then StateM.ret to_merge
  else
    match fuel, filename with
    | O, _ => StateM.unfinished
    | S fuel', VStr name =>
        (file <- _find_file host name paths ;;
         match file with
         | None => StateM.raise (ConfigError ("File " ++ name ++ " not found"))
         | Some file =>
             data <- _read_file host file ;;
             if negb (isinstance_IgnoreCaseDict data) then
               StateM.raise (ConfigError "reader must return an IgnoreCaseDict object")
             else
               '(next_filename, data) <- StateM.lift (mapping_pop data "@next") ;;
               if negb (is_none next_filename) then
                 if negb (isinstance_str next_filename) then
                   StateM.raise (ConfigError "@next must be a str")
                 else
                   let base_path := path_dirname host name in
                   let paths :=
                     if PyStr.truthy base_path then Some [base_path] else paths in
                   load_loop fuel' host next_filename paths (to_merge ++ [data])%list
               else
                 load_loop fuel' host next_filename paths (to_merge ++ [data])%list
         end)%st
    | S _, _ => StateM.raise (TypeError "filename must be a str")
    end.

Definition load (fuel : nat) (host : Host) (merge_dict : merge_dict_t)
  : M FileConfig unit :=
  (filename <- StateM.gets _filename ;;
   to_merge <- load_loop fuel host (VStr filename) None [] ;;
   match to_merge with
   | [] => StateM.raise (IndexError "list index out of range")
   | data :: others =>
       data <- (if (1 <? Z.of_nat (List.length to_merge))
                then StateM.lift (merge_dict data (map Mapping_of_value others))
                else StateM.ret data) ;;
       StateM.modify (set_data data)
   end)%st.

End FileConfig.

(** ** [MergeConfig] *)
Record MergeConfig (C : Type) : Type := {
  merge_base : BaseDataConfig;
  merge_configs : list C
}.
Arguments merge_base {C} _.
Arguments merge_configs {C} _.

Module MergeConfig.
Section Methods.
Context {C : Type} `{Config C}.

(** [_RawConfig(config)]: the raw view of a child as a [Mapping]. *)
Definition _RawConfig (config : C) : Mapping :=
  {| mapping_get_ := fun key => get_raw config (Some key);
     mapping_contains := fun key => BaseConfig.contains config (Some key);
     mapping_getitem := fun key =>
       (value <- get_raw config (Some key) ;;
        if is_none value then Raise (KeyError key) else Ok value)%res;
     mapping_iter := keys config;
     mapping_len := Z.of_nat (List.length (keys config)) |}.

(** [self._raw_configs]: the wrappers refer to the children themselves,
    so they are read off the children as they are now. *)
Definition _raw_configs (self : MergeConfig C) : list Mapping :=
  map _RawConfig (merge_configs self).

Definition set_data (data : pyvalue) (self : MergeConfig C) : MergeConfig C :=
  {| merge_base := set_data data (merge_base self);
     merge_configs := merge_configs self |}.

(** [for config in self._configs: config.load()] *)
Definition load_children : M (MergeConfig C) unit :=
  fun self =>
    match ChainConfig.load_each [] (merge_configs self) with
    | None => None
    | Some (configs', r) =>
        Some ({| merge_base := merge_base self; merge_configs := configs' |}, r)
    end.

(** [load()]; its value is what the Python method returns. *)
Definition load (merge_dict : merge_dict_t) : M (MergeConfig C) pyvalue :=
  (load_children ;;;
   let data := VIgnoreCaseDict IgnoreCaseDict.empty in
   configs <- StateM.gets merge_configs ;;
   if (Z.of_nat (List.length configs) =? 0) then StateM.ret data
   else
     raw_configs <- StateM.gets _raw_configs ;;
     data <- StateM.lift (merge_dict data raw_configs) ;;
     StateM.modify (set_data data) ;;;
     StateM.ret VNone)%st.

(** [__init__] over the tuple [configs], for children that are configurations. *)
Definition init (self_id : nat) (decoder : Decoder)
    (interpolator : StrInterpolator) (configs : list C) : MergeConfig C :=
  {| merge_base := BaseDataConfig.init self_id decoder interpolator;
     merge_configs := configs |}.
End Methods.
End MergeConfig.

(* ================================================================== *)
(** * configd/utils.py: [EventHandler] *)
(* ================================================================== *)

(** The callbacks act on a state [E] that does not hold the handler. *)
Record EventHandler (E : Type) : Type := {
  _callbacks : list (M E pyvalue)
}.
Arguments _callbacks {E} _.

Module EventHandler.
Section Methods.
Context {E : Type}.

(** [__call__()]: [[callback() for callback in self._callbacks]] *)
Fixpoint call_all (callbacks : list (M E pyvalue)) : M E (list pyvalue) :=
  match callbacks with
  | [] => StateM.ret []
  | callback :: rest =>
      (r <- callback ;; rs <- call_all rest ;; StateM.ret (r :: rs))%st
  end.

Definition call (self : EventHandler E) : M E (list pyvalue) :=
  call_all (_callbacks self).

(** [add(callback)] without the two optional hooks. *)
Definition add (self : EventHandler E) (callback : M E pyvalue) : EventHandler E :=
  {| _callbacks := (_callbacks self ++ [callback])%list |}.
End Methods.
End EventHandler.

(** ** [ReloadConfig] *)

(** What a scheduler was asked to run: here only the bound method
    [self._reload] of the wrapper. *)
Inductive task : Type := reload_method.

(** [abc.Scheduler], seen as the tasks handed to [schedule], in order. *)
Record Scheduler : Type := { scheduled : list task }.

Definition schedule (s : Scheduler) (t : task) : Scheduler :=
  {| scheduled := (scheduled s ++ [t])%list |}.

(** The wrapper, the world [E] of its delegate and of the subscribers, and
    the warnings logged.  The delegate and the subscribers act on the world:
    they neither read nor write the three private fields of the wrapper. *)
Record ReloadConfig (E : Type) : Type := {
  _scheduler : Scheduler;
  _loaded : bool;
  _updated : EventHandler E;
  world : E;
  warnings : list string
}.
Arguments _scheduler {E} _.
Arguments _loaded {E} _.
Arguments _updated {E} _.
Arguments world {E} _.
Arguments warnings {E} _.

Module ReloadConfig.
Section Methods.
Context {E : Type}.
(** [self._config.load()], on the world the delegate lives in. *)
Variable delegate_load : M E unit.

Definition set_world (w : E) (self : ReloadConfig E) : ReloadConfig E :=
  {| _scheduler := _scheduler self; _loaded := _loaded self;
     _updated := _updated self; world := w;
     warnings := warnings self |}.

(** A call that acts on the world and on nothing of the wrapper. *)
Definition in_world {A} (m : M E A) : M (ReloadConfig E) A :=
  fun self =>
    match m (world self) with
    | None => None
    | Some (w, r) => Some (set_world w self, r)
    end.

Definition do_schedule (t : task) (self : ReloadConfig E) : ReloadConfig E :=
  {| _scheduler := schedule (_scheduler self) t; _loaded := _loaded self;
     _updated := _updated self; world := world self;
     warnings := warnings self |}.

Definition set_loaded (b : bool) (self : ReloadConfig E) : ReloadConfig E :=
  {| _scheduler := _scheduler self; _loaded := b;
     _updated := _updated self; world := world self;
     warnings := warnings self |}.

(** [logger.warning(msg, exc_info=True)] *)
Definition log_warning (msg : string) (self : ReloadConfig E) : ReloadConfig E :=
  {| _scheduler := _scheduler self; _loaded := _loaded self;
     _updated := _updated self; world := world self;
     warnings := (warnings self ++ [msg])%list |}.

Definition load : M (ReloadConfig E) unit :=
  (in_world delegate_load ;;;
   loaded <- StateM.gets _loaded ;;
   if negb loaded then
     StateM.modify (do_schedule reload_method) ;;;
     StateM.modify (set_loaded true)
   else StateM.ret tt)%st.

Definition _reload : M (ReloadConfig E) unit :=
  (StateM.try_except (in_world delegate_load)
     (fun _ => StateM.modify (log_warning "Unable to load config")) ;;;
   StateM.try_except
     (updated <- StateM.gets _updated ;;
      in_world (EventHandler.call updated) ;;;
      StateM.ret tt)
     (fun _ => StateM.modify (log_warning "Error calling updated event")))%st.

(** [__init__(config, scheduler)] *)
Definition init (scheduler : Scheduler) (w : E) : ReloadConfig E :=
  {| _scheduler := scheduler; _loaded := false;
     _updated := {| _callbacks := [] |}; world := w; warnings := [] |}.

(** [load()] called [n] times in a row, stopping at the first call that
    does not return. *)
Fixpoint load_times (n : nat) : M (ReloadConfig E) unit :=
  match n with
  | O => StateM.ret tt
  | S n' => (load ;;; load_times n')%st
  end.

(** [load()] called [n] times by a caller that catches what a call raises
    and goes on. *)
Fixpoint load_attempts (n : nat) : M (ReloadConfig E) unit :=
  match n with
  | O => StateM.ret tt
  | S n' =>
      (StateM.try_except load (fun _ => StateM.ret tt) ;;; load_attempts n')%st
  end.
End Methods.
End ReloadConfig.

(** Modelled from the spec: the periodic execution of
    [schedulers.FixedIntervalScheduler], the module [schedulers.py] being
    absent from the sources.  The callback is invoked once per interval; an exception
    that leaves the callback ends the periodic execution.  The value is the
    number of invocations that took place in [ticks] intervals. *)
Fixpoint run_periodically {S : Type} (ticks : nat) (callback : M S unit) : M S nat :=
  match ticks with
  | O => StateM.ret O
  | Datatypes.S ticks' =>
      fun s =>
        match callback s with
        | None => None
        | Some (s', Raise _) => Some (s', Ok 1%nat)
        | Some (s', Ok _) =>
            match run_periodically ticks' callback s' with
            | Some (s'', Ok n) => Some (s'', Ok (Datatypes.S n))
            | other => other
            end
        end
  end.

(** ** [UrlConfig] *)
Record UrlConfig : Type := {
  url_base : BaseDataConfig;
  _url : string;
  url_reader : option reader
}.

Module UrlConfig.

Definition set_data (data : pyvalue) (self : UrlConfig) : UrlConfig :=
  {| url_base := set_data data (url_base self);
     _url := _url self;
     url_reader := url_reader self |}.


(** [str(content_type)] *)
Definition header_str (content_type : option string) : string :=
  match content_type with
  | Some s => s
  | None => "None"
  end.

(** The first part of [_get_reader]: [content_type] without its
    parameters, and the name guessed from it (if any). *)
Definition content_type_names (content_type : option string)
  : option string * list string :=
  match content_type with
  | Some ct =>
      if PyStr.truthy ct then
        let ct := if PyStr.contains ";" ct then PyStr.first (PyStr.split ";" ct) else ct in
        (Some ct,
         if PyStr.contains "." ct then [PyStr.last (PyStr.split "." ct)]
         else if PyStr.contains "-" ct then [PyStr.last (PyStr.split "-" ct)]
         else if PyStr.contains "/" ct then [PyStr.last (PyStr.split "/" ct)]
         else [])
      else (content_type, [])
  | None => (None, [])
  end.

(** The second part: the name guessed from the path of the url. *)
Definition url_names (url : string) : list string :=
  let path := PyStr.rstrip_with (Ascii.eqb "/") (PyStr.strip url) in
  let i := PyStr.rfind "/" path in
  if 10 <? i then
    let path := PyStr.slice_from path i in
    if PyStr.contains "." path then [PyStr.last (PyStr.split "." path)] else []
  else [].

(** The loop [for name in names] *)
Fixpoint first_reader (host : Host) (names : list string) : option (result reader) :=
  match names with
  | [] => None
  | name :: rest =>
      match Readers.get_reader (readers host) name with
      | Some reader_cls => Some (Readers.instantiate host reader_cls)
      | None => first_reader host rest
      end
  end.

(** [_get_reader(url, content_type)] *)
Definition _get_reader (host : Host) (url : string) (content_type : option string)
  : result reader :=
  let '(content_type, names) := content_type_names content_type in
  let names := (names ++ url_names url)%list in
  match first_reader host names with
  | Some r => r
  | None =>
      Raise (ConfigError ("Response from " ++ url ++ " provided content type "
                          ++ header_str content_type ++ " which is not supported"))
  end.

(** The loop [for pair in pairs[1:]] of [_get_encoding]. *)
Fixpoint charset_of (pairs : list string) (default : string) : string :=
  match pairs with
  | [] => default
  | pair_ :: rest =>
      match PyStr.split "=" pair_ with
      | [k; v] =>
          let key := PyStr.strip k in
          let value := PyStr.strip v in
          if (String.eqb key "charset" && PyStr.truthy value)%bool then value
          else charset_of rest default
      | _ => charset_of rest default
      end
  end.

(** [_get_encoding(content_type, default='utf-8')] *)
Definition _get_encoding (content_type : option string) (default : string) : string :=
  match content_type with
  | Some ct =>
      if negb (PyStr.truthy ct) then default
      else charset_of (tl (PyStr.split ";" ct)) default
  | None => default
  end.

(** The [while url:] loop of [load]; [fuel] bounds the number of
    responses followed through [@next].  A url that is true is a string at
    every turn (the one of the constructor, then a [@next] that was
    checked), so the last branch is never taken. *)
Fixpoint load_loop (fuel : nat) (host : Host) (lookup : StrLookup)
    (url : pyvalue) (to_merge : list pyvalue) : M UrlConfig (list pyvalue) :=
  if negb (truthy url) then StateM.ret to_merge
  else
    match fuel, url with
    | O, _ => StateM.unfinished
    | S fuel', VStr url =>
        (interpolator <- StateM.gets (fun self => _interpolator (url_base self)) ;;
         url <- StateM.lift (resolve interpolator url lookup) ;;
         '(content_type, stream) <- StateM.lift (urlopen host url) ;;
         own_reader <- StateM.gets url_reader ;;
         reader <- match own_reader with
                   | Some r => StateM.ret r
                   | None => StateM.lift (_get_reader host url content_type)
                   end ;;
         let encoding := _get_encoding content_type "utf-8" in
         text <- StateM.lift (codecs_decode host encoding stream) ;;
         data <- StateM.lift (Readers.read host reader (Some text)) ;;
         '(url, data) <- StateM.lift (mapping_pop data "@next") ;;
         if (truthy url && negb (isinstance_str url))%bool then
           StateM.raise (ConfigError "@next must be a str")
         else load_loop fuel' host lookup url (to_merge ++ [data])%list)%st
    | S _, _ => StateM.raise (TypeError "url must be a str")
    end.

Definition load (fuel : nat) (host : Host) (merge_dict : merge_dict_t)
  : M UrlConfig unit :=
  (url <- StateM.gets _url ;;
   own_lookup <- StateM.gets (fun self => _lookup (url_base self)) ;;
   let lookup := ChainLookup [EnvironmentLookup; own_lookup] in
   to_merge <- load_loop fuel host lookup (VStr url) [] ;;
   match to_merge with
   | [] => StateM.raise (IndexError "list index out of range")
   | data :: others =>
       if negb (isinstance_IgnoreCaseDict data) then
         StateM.raise (ConfigError "reader must return an IgnoreCaseDict object")
       else
         data <- (if (1 <? Z.of_nat (List.length to_merge))
                  then StateM.lift (merge_dict data (map Mapping_of_value others))
                  else StateM.ret data) ;;
         StateM.modify (set_data data)
   end)%st.

End UrlConfig.

(* ================================================================== *)
(** * configd/config/s3.py *)
(* ================================================================== *)

(** [utils.Transformer] is absent from the sources: the configuration
    holds its [transform(data, new_data)], the accumulator returned instead
    of mutated. *)
Record Transformer : Type := {
  transform : pyvalue -> pyvalue -> result pyvalue
}.

Record S3Config : Type := {
  s3_base : BaseDataConfig;
  _bucket_name : string;
  s3_filename : string;
  s3_reader : option reader;
  _transformer : Transformer
}.

Module S3Config.

Definition set_data (data : pyvalue) (self : S3Config) : S3Config :=
  {| s3_base := set_data data (s3_base self);
     _bucket_name := _bucket_name self;
     s3_filename := s3_filename self;
     s3_reader := s3_reader self;
     _transformer := _transformer self |}.

(** [_get_reader(filename)] *)
Definition _get_reader (host : Host) (filename : string) : M S3Config reader :=
  let extension := Readers.get_file_ext host filename in
  if negb (PyStr.truthy extension) then
    StateM.raise (ConfigError ("File " ++ filename ++ " is not supported"))
  else
    match Readers.get_reader (readers host) extension with
    | None => StateM.raise (ConfigError ("File " ++ filename ++ " is not supported"))
    | Some reader_cls => StateM.lift (Readers.instantiate host reader_cls)
    end.

(** [_read_file(filename)] *)
Definition _read_file (host : Host) (filename : string) : M S3Config string :=
  (bucket_name <- StateM.gets _bucket_name ;;
   StateM.lift (s3_download host bucket_name filename))%st.

(** [_read(filename, data)], the accumulator [data] returned; [fuel]
    bounds the depth of the recursion through [@next]. *)
Fixpoint _read (fuel : nat) (host : Host) (filename : string) (data : pyvalue)
  : M S3Config pyvalue :=
  match fuel with
  | O => StateM.unfinished
  | S fuel' =>
      (own_reader <- StateM.gets s3_reader ;;
       reader <- match own_reader with
                 | Some r => StateM.ret r
                 | None => _get_reader host filename
                 end ;;
       stream <- _read_file host filename ;;
       text <- StateM.lift (codecs_decode host "utf-8" stream) ;;
       new_data <- StateM.lift (Readers.read host reader (Some text)) ;;
       '(next_filename, new_data) <- StateM.lift (mapping_pop new_data "@next") ;;
       transformer <- StateM.gets _transformer ;;
       data <- StateM.lift (transform transformer data new_data) ;;
       if truthy next_filename then
         match next_filename with
         | VStr next_filename =>
             interpolator <- StateM.gets (fun self => _interpolator (s3_base self)) ;;
             lookup <- StateM.gets (fun self => _lookup (s3_base self)) ;;
             next_filename <- StateM.lift (resolve interpolator next_filename lookup) ;;
             _read fuel' host next_filename data
         | _ => StateM.raise (ConfigError "@next must be a str")
         end
       else StateM.ret data)%st
  end.

Definition load (fuel : nat) (host : Host) : M S3Config unit :=
  (let data := VDict [] in
   filename <- StateM.gets s3_filename ;;
   data <- _read fuel host filename data ;;
   StateM.modify (set_data data))%st.

End S3Config.

(* ================================================================== *)
(** * central/config/core.py, continued *)
(* ================================================================== *)

(** [m[key] = value] on whichever mapping [m] is. *)
Definition mapping_set (m : pyvalue) (key : string) (value : pyvalue) : result pyvalue :=
  match m with
  | VDict d => Ok (VDict (dict_set d key value))
  | VIgnoreCaseDict d => Ok (VIgnoreCaseDict (IgnoreCaseDict.set d key value))
  | _ => Raise (TypeError "object does not support item assignment")
  end.

(** [m.keys()] and [len(m)] of a mapping. *)
Definition mapping_keys (m : pyvalue) : list string :=
  match m with
  | VDict d | VIgnoreCaseDict d => map fst d
  | _ => []
  end.

(** ** [PrefixedConfig] *)
Record PrefixedConfig (C : Type) : Type := {
  _prefix : string;
  _prefix_delimited : string;
  prefixed_config : C
}.
Arguments _prefix {C} _.
Arguments _prefix_delimited {C} _.
Arguments prefixed_config {C} _.

(** A [set] of strings, as the list of its elements without repetition;
    the order in which Python iterates over it is not fixed, and nothing
    below depends on it. *)
Fixpoint set_add (elements : list string) (x : string) : list string :=
  match elements with
  | [] => [x]
  | y :: rest => if String.eqb y x then elements else y :: set_add rest x
  end.

(** [s.update(xs)] *)
Definition set_update (elements : list string) (xs : list string) : list string :=
  fold_left set_add xs elements.

Module PrefixedConfig.
Section Methods.
Context {C : Type} `{Config C}.

(** [__init__(prefix, config)], for a prefix that is a string and a child
    that is a configuration; the lookup of the child is the child's own
    matter. *)
Definition init (prefix : string) (config : C) : PrefixedConfig C :=
  {| _prefix := PyStr.rstrip_with (Ascii.eqb NESTED_DELIMITER) prefix;
     _prefix_delimited :=
       if PyStr.endswith_char prefix NESTED_DELIMITER then prefix
       else prefix ++ String NESTED_DELIMITER EmptyString;
     prefixed_config := config |}.

Definition get_raw (self : PrefixedConfig C) (key : option string) : result pyvalue :=
  match key with
  | None => Raise (TypeError "key cannot be None")
  | Some key => get_raw (prefixed_config self) (Some (_prefix_delimited self ++ key))
  end.

Definition get_value (self : PrefixedConfig C) (key : option string)
    (type : option pytype) (default : pydefault) : result pyvalue :=
  match key with
  | None => Raise (TypeError "key cannot be None")
  | Some key =>
      get_value (prefixed_config self) (Some (_prefix_delimited self ++ key))
                type default
  end.

Definition load : M (PrefixedConfig C) unit :=
  fun self =>
    match load (prefixed_config self) with
    | None => None
    | Some (config', r) =>
        Some ({| _prefix := _prefix self;
                 _prefix_delimited := _prefix_delimited self;
                 prefixed_config := config' |}, r)
    end.

(** The loop of [__iter__] over the keys of the child, [found] being the
    set built so far. *)
Fixpoint iter_loop (self : PrefixedConfig C) (config_keys : list string)
    (found : list string) : result (list string) :=
  match config_keys with
  | [] => Ok found
  | key :: rest =>
      if String.eqb key (_prefix self) then
        (value <- BaseConfig.get (prefixed_config self) (Some key) (DefaultValue VNone) ;;
         if isinstance_Mapping value then
           iter_loop self rest (set_update found (mapping_keys value))
         else iter_loop self rest found)%res
      else if PyStr.startswith key (_prefix_delimited self) then
        iter_loop self rest
          (set_update found
             [PyStr.slice_from key (Z.of_nat (String.length (_prefix_delimited self)))])
      else iter_loop self rest found
  end.

(** [__iter__()]: the elements of the set it iterates over. *)
Definition iter (self : PrefixedConfig C) : result (list string) :=
  iter_loop self (keys (prefixed_config self)) [].

(** The loop of [__len__], [length] being the count so far. *)
Fixpoint len_loop (self : PrefixedConfig C) (config_keys : list string)
    (length : Z) : result Z :=
  match config_keys with
  | [] => Ok length
  | key :: rest =>
      if String.eqb key (_prefix self) then
        (value <- BaseConfig.get (prefixed_config self) (Some key) (DefaultValue VNone) ;;
         if isinstance_Mapping value then
           len_loop self rest (length + Z.of_nat (List.length (mapping_keys value)))
         else len_loop self rest length)%res
      else if PyStr.startswith key (_prefix_delimited self) then
        len_loop self rest (length + 1)
      else len_loop self rest length
  end.

(** [__len__()] *)
Definition len (self : PrefixedConfig C) : result Z :=
  len_loop self (keys (prefixed_config self)) 0.

End Methods.
End PrefixedConfig.

(** ** [MemoryConfig.__init__] and [MemoryConfig.set] *)

(** The configuration with its update event: the subscribers act on a world
    [E] and neither read nor write the fields of the configuration. *)
Record MemoryConfig (E : Type) : Type := {
  mem_base : BaseDataConfig;
  mem_updated : EventHandler E;
  mem_world : E
}.
Arguments mem_base {E} _.
Arguments mem_updated {E} _.
Arguments mem_world {E} _.

Module MemoryStore.
Section Methods.
Context {E : Type}.
(** [utils.make_ignore_case] is absent from the sources. *)
Variable make_ignore_case : pyvalue -> pyvalue.

Definition set_data (data : pyvalue) (self : MemoryConfig E) : MemoryConfig E :=
  {| mem_base := set_data data (mem_base self);
     mem_updated := mem_updated self;
     mem_world := mem_world self |}.

Definition in_world {A} (m : M E A) : M (MemoryConfig E) A :=
  fun self =>
    match m (mem_world self) with
    | None => None
    | Some (w, r) =>
        Some ({| mem_base := mem_base self; mem_updated := mem_updated self;
                 mem_world := w |}, r)
    end.

(** [__init__(data=None)] on the object [BaseDataConfig.__init__] built. *)
Definition init (base : BaseDataConfig) (w : E) (data : pyvalue)
  : result (MemoryConfig E) :=
  let self := {| mem_base := base; mem_updated := {| _callbacks := [] |};
                 mem_world := w |} in
  if negb (is_none data) then
    if negb (isinstance_Mapping data) then Raise (TypeError "data must be a dict")
    else Ok (set_data (make_ignore_case data) self)
  else Ok self.

(** [set(key, value)] *)
Definition set (key : option string) (value : pyvalue) : M (MemoryConfig E) unit :=
  match key with
  | None => StateM.raise (TypeError "key cannot be None")
  | Some key =>
      let value := if isinstance_Mapping value then make_ignore_case value else value in
      (data <- StateM.gets (fun self => _data (mem_base self)) ;;
       data <- StateM.lift (mapping_set data key value) ;;
       StateM.modify (set_data data) ;;;
       updated <- StateM.gets mem_updated ;;
       in_world (EventHandler.call updated) ;;;
       StateM.ret tt)%st
  end.

End Methods.
End MemoryStore.

(** ** [ChainConfig] and its cache of keys *)

(** The chain with the field [_keys_cached] and its update event; the
    subscribers act on a world [E] as for [MemoryConfig]. *)
Record ChainKeys (C E : Type) : Type := {
  keys_chain : ChainConfig C;
  _keys_cached : option items;
  keys_updated : EventHandler E;
  keys_world : E
}.
Arguments keys_chain {C E} _.
Arguments _keys_cached {C E} _.
Arguments keys_updated {C E} _.
Arguments keys_world {C E} _.

Module ChainKeys.
Section Methods.
Context {C E : Type} `{Config C}.

Definition set_cache (cache : option items) (self : ChainKeys C E) : ChainKeys C E :=
  {| keys_chain := keys_chain self; _keys_cached := cache;
     keys_updated := keys_updated self; keys_world := keys_world self |}.

(** [_get_cached_keys()] *)
Definition _get_cached_keys : M (ChainKeys C E) items :=
  (cached <- StateM.gets _keys_cached ;;
   match cached with
   | None =>
       built <- StateM.gets (fun self => ChainConfig.build_cached_keys (keys_chain self)) ;;
       StateM.modify (set_cache (Some built)) ;;;
       StateM.ret built
   | Some cached => StateM.ret cached
   end)%st.

(** [__iter__()] and [__len__()] *)
Definition iter : M (ChainKeys C E) (list string) :=
  (cached <- _get_cached_keys ;; StateM.ret (map fst cached))%st.

Definition len : M (ChainKeys C E) Z :=
  (cached <- _get_cached_keys ;; StateM.ret (Z.of_nat (List.length cached)))%st.

(** [load()] *)
Definition load : M (ChainKeys C E) unit :=
  fun self =>
    match ChainConfig.load (keys_chain self) with
    | None => None
    | Some (chain', r) =>
        Some ({| keys_chain := chain'; _keys_cached := _keys_cached self;
                 keys_updated := keys_updated self;
                 keys_world := keys_world self |}, r)
    end.

(** [_config_updated()] *)
Definition _config_updated : M (ChainKeys C E) unit :=
  (StateM.modify (set_cache None) ;;;
   updated <- StateM.gets keys_updated ;;
   (fun self =>
      match EventHandler.call updated (keys_world self) with
      | None => None
      | Some (w, r) =>
          Some ({| keys_chain := keys_chain self;
                   _keys_cached := _keys_cached self;
                   keys_updated := keys_updated self;
                   keys_world := w |}, r)
      end) ;;;
   StateM.ret tt)%st.

End Methods.
End ChainKeys.

(* ================================================================== *)
(** * The statements of the specification, in its own words *)
(* ================================================================== *)

(** The descent of [get_raw] as the specification words it: successive
    nested-map lookups, absent when a segment is missing or when the value
    to descend into is not a mapping. *)
Fixpoint nested_lookup (m : pyvalue) (segments : list string) : option pyvalue :=
  match segments with
  | [] => Some m
  | segment :: rest =>
      if isinstance_Mapping m then
        match mapping_get m segment with
        | VNone => None
        | v => nested_lookup v rest
        end
      else None
  end.

Definition or_absent (o : option pyvalue) : pyvalue :=
  match o with Some v => v | None => VNone end.

(** The rule of [merge_properties] for one key as the specification
    words it, over the kind of container of the two values. *)
Inductive container_kind : Type := KindMap | KindScalar | KindList.

Definition kind_of (v : pyvalue) : container_kind :=
  match v with
  | VDict _ | VIgnoreCaseDict _ => KindMap
  | VList _ => KindList
  | _ => KindScalar
  end.

Definition kind_eqb (a b : container_kind) : bool :=
  match a, b with
  | KindMap, KindMap | KindScalar, KindScalar | KindList, KindList => true
  | _, _ => false
  end.

Definition claimed_merge_entry (dst_value src_value : pyvalue) : pyvalue :=
  if (is_none src_value || is_none dst_value)%bool then src_value
  else if negb (kind_eqb (kind_of src_value) (kind_of dst_value)) then dst_value
  else
    match dst_value, src_value with
    | VDict d, VDict s => VDict (Utils.merge_properties d s)
    | VDict d, VIgnoreCaseDict s => VDict (Utils.merge_properties d s)
    | VIgnoreCaseDict d, VDict s => VIgnoreCaseDict (Utils.merge_properties d s)
    | VIgnoreCaseDict d, VIgnoreCaseDict s =>
        VIgnoreCaseDict (Utils.merge_properties d s)
    | _, _ => src_value
    end.

(** The rule the code follows: the types of the two values compared. *)
Definition merge_entry (dst_value src_value : pyvalue) : pyvalue :=
  if (is_none src_value || is_none dst_value)%bool then src_value
  else if negb (pytype_eqb (type_of src_value) (type_of dst_value)) then dst_value
  else
    match dst_value, src_value with
    | VDict d, VDict s => VDict (Utils.merge_properties d s)
    | _, _ => src_value
    end.

(** The shape the specification gives to what [IniReader] returns: two
    levels of mappings, section name to option name to a string. *)
Definition raw_strings (options : items) : bool :=
  forallb (fun kv => isinstance_str (snd kv)) options.

Definition section_of_raw_strings (v : pyvalue) : bool :=
  match v with
  | VDict options | VIgnoreCaseDict options => raw_strings options
  | _ => false
  end.

Definition two_level_raw_strings (v : pyvalue) : bool :=
  match v with
  | VDict d | VIgnoreCaseDict d =>
      forallb (fun kv => section_of_raw_strings (snd kv)) d
  | _ => false
  end.



(** What follows the last character of [s] that satisfies [p]. *)
Fixpoint after_last (p : ascii -> bool) (s : string) : option string :=
  match s with
  | EmptyString => None
  | String a s' =>
      match after_last p s' with
      | Some r => Some r
      | None => if p a then Some s' else None
      end
  end.

Definition without_parameters (content_type : string) : string :=
  PyStr.first (PyStr.split ";" content_type).


(** The subtype the code extracts: after the last ['.'] when there is one,
    else after the last ['-'] when there is one, else after the last ['/']. *)
Definition subtype_by_priority (content_type : string) : option string :=
  let ct := without_parameters content_type in
  match after_last (fun a => Ascii.eqb a ".") ct with
  | Some n => Some n
  | None =>
      match after_last (fun a => Ascii.eqb a "-") ct with
      | Some n => Some n
      | None => after_last (fun a => Ascii.eqb a "/") ct
      end
  end.

Definition name_list (name : option string) : list string :=
  match name with Some n => [n] | None => [] end.

(** A method that only reads its object. *)
Definition readonly {S A : Type} (m : M S A) : Prop :=
  forall s s' r, m s = Some (s', r) -> s' = s.


(** The raw value of a present key as [get_value] hands it to the decoder:
    a string goes through the interpolator, anything else is taken as it
    is. *)
Definition interpolated (self : BaseDataConfig) (value : pyvalue) : result pyvalue :=
  match value with
  | VStr s =>
      match resolve (_interpolator self) s (_lookup self) with
      | Ok s' => Ok (VStr s')
      | Raise e => Raise e
      end
  | _ => Ok value
  end.

(** The grammar of a command-line token as the specification words it: the
    dashes stripped in front of the key [k], two for a token that starts
    with [--], one for a token that starts with a single [-]. *)
Definition stripped_dashes (p k : string) : Prop :=
  p = "--" \/ (p = "-" /\ PyStr.startswith k "-" = false).

(** The shape the claim gives to what [IniReader] returns, a two-level
    Case-Insensitive Map of strings, and the shape the code gives it, a
    two-level built-in dict of strings. *)
Definition two_level_case_insensitive_map (v : pyvalue) : bool :=
  match v with
  | VIgnoreCaseDict d =>
      forallb (fun kv => match snd kv with
                         | VIgnoreCaseDict options => raw_strings options
                         | _ => false
                         end) d
  | _ => false
  end.

Definition two_level_dict (v : pyvalue) : bool :=
  match v with
  | VDict d =>
      forallb (fun kv => match snd kv with
                         | VDict options => raw_strings options
                         | _ => false
                         end) d
  | _ => false
  end.




(* ================================================================== *)
(** * Configurations and hosts of the examples *)
(* ================================================================== *)

(** A configuration whose backing map stores [None] under ["k"], with an
    interpolator and a decoder that fail whenever they are called. *)
Definition failing_interpolator : StrInterpolator :=
  {| resolve := fun _ _ => Raise (ValueError "interpolator called") |}.

Definition failing_decoder : Decoder :=
  {| decode := fun _ _ => Raise (ValueError "decoder called") |}.

Definition stores_none : BaseDataConfig :=
  {| _lookup := ConfigLookup 0;
     _data := VIgnoreCaseDict [("k", VNone)];
     _decoder := failing_decoder;
     _interpolator := failing_interpolator |}.

(** Two in-memory configurations, [A] holding [{"x": 1, "y": 7}] and [B]
    holding [{"x": 2}], and the chain [ChainConfig(A, B)]. *)
Definition memory_config (data : items) : BaseDataConfig :=
  {| _lookup := ConfigLookup 0;
     _data := VIgnoreCaseDict data;
     _decoder := failing_decoder;
     _interpolator := failing_interpolator |}.

Definition config_A : BaseDataConfig := memory_config [("x", VInt 1); ("y", VInt 7)].
Definition config_B : BaseDataConfig := memory_config [("x", VInt 2)].

Definition chain_A_B : ChainConfig BaseDataConfig :=
  {| chain_configs := [config_A; config_B]; chain_lookup := ConfigLookup 1 |}.

(** A host that offers nothing but its argument list: no file, no url, no
    object, no parser. *)
Definition bare_host (args : list string) : Host :=
  {| argv := args;
     environ := [];
     path_exists := fun _ => false;
     path_join := fun path name => path ++ "/" ++ name;
     path_dirname := fun _ => "";
     path_splitext := fun name => (name, "");
     open_rb := fun _ => Raise (IOError "No such file or directory");
     codecs_decode := fun _ bytes => Ok bytes;
     urlopen := fun _ => Raise (IOError "urlopen error");
     s3_download := fun _ _ => Raise (IOError "download error");
     configparser_read := fun _ => Raise (ValueError "no parser");
     json_load := fun _ => Raise (ValueError "no parser");
     yaml_load := fun _ => Raise (ValueError "no parser");
     yaml_installed := true;
     readers := Readers.initial_registry |}.

(** An interpolator that finds no variable to resolve. *)
Definition plain_interpolator : StrInterpolator :=
  {| resolve := fun s _ => Ok s |}.

(** A host with one file, [app.ini], holding

      [Server]
      port = 8080

    and a [ConfigParser] that reads it: the names of sections keep their
    case. *)
Definition ini_text : string := "[Server]
port = 8080
".

Definition ini_parser : ConfigParser :=
  {| sections := ["Server"];
     options := fun section => if String.eqb section "Server" then ["port"] else [];
     get_option_raw := fun _ _ => "8080" |}.

Definition ini_host : Host :=
  {| argv := ["prog"];
     environ := [];
     path_exists := fun name => String.eqb name "app.ini";
     path_join := fun path name => path ++ "/" ++ name;
     path_dirname := fun _ => "";
     path_splitext := fun name =>
       if String.eqb name "app.ini" then ("app", ".ini") else (name, "");
     open_rb := fun name =>
       if String.eqb name "app.ini" then Ok ini_text
       else Raise (IOError "No such file or directory");
     codecs_decode := fun _ bytes => Ok bytes;
     urlopen := fun _ => Raise (IOError "urlopen error");
     s3_download := fun _ _ => Raise (IOError "download error");
     configparser_read := fun text =>
       if String.eqb text ini_text then Ok ini_parser
       else Raise (ValueError "parsing error");
     json_load := fun _ => Raise (ValueError "no parser");
     yaml_load := fun _ => Raise (ValueError "no parser");
     yaml_installed := true;
     readers := Readers.initial_registry |}.

(** [merge_dict] is not reached by the examples. *)
Definition no_merge_dict : merge_dict_t :=
  fun _ _ => Raise (ValueError "merge_dict called").

(** Modelled from the spec: a JSON reader of the current package, whose
    module [readers.py] is absent from the sources.  A reader parses a
    character stream into a Case-Insensitive Map of raw values; this one
    reads the text of the examples, in either encoding. *)
Definition central_json_reader : reader :=
  CustomReader
    (fun text =>
       if (String.eqb text "latin1:BODY" || String.eqb text "utf8:BODY")%bool
       then Ok (VIgnoreCaseDict [("k", VStr "v")])
       else Raise (ValueError "parsing error")).

(** A host with one url, answered with the content type
    [application/json;charset=iso-8859-1]: its body can only be decoded as
    [iso-8859-1]; the json library gives a built-in dict, and the reader
    registered under [json] is the one of the current package. *)
Definition url_host : Host :=
  {| argv := ["prog"];
     environ := [];
     path_exists := fun _ => false;
     path_join := fun path name => path ++ "/" ++ name;
     path_dirname := fun _ => "";
     path_splitext := fun name => (name, "");
     open_rb := fun _ => Raise (IOError "No such file or directory");
     codecs_decode := fun encoding bytes =>
       if String.eqb encoding "iso-8859-1" then Ok ("latin1:" ++ bytes)
       else Raise (ValueError "cannot decode");
     urlopen := fun url =>
       if String.eqb url "http://example.com/conf" then
         Ok (Some "application/json;charset=iso-8859-1", "BODY")
       else Raise (IOError "urlopen error");
     s3_download := fun _ _ => Raise (IOError "download error");
     configparser_read := fun _ => Raise (ValueError "no parser");
     json_load := fun text =>
       if String.eqb text "latin1:BODY" then Ok (VDict [("k", VStr "v")])
       else Raise (ValueError "parsing error");
     yaml_load := fun _ => Raise (ValueError "no parser");
     yaml_installed := true;
     readers := [("json", central_json_reader)] |}.

Definition url_config (url : string) : UrlConfig :=
  {| url_base :=
       set_data (VIgnoreCaseDict [("old", VInt 1)])
                (BaseDataConfig.init 0 failing_decoder plain_interpolator);
     _url := url;
     url_reader := None |}.


(** A command-line configuration with data from an earlier load. *)
Definition loaded_config : BaseDataConfig :=
  set_data (VIgnoreCaseDict [("old", VInt 1)])
           (BaseDataConfig.init 0 failing_decoder plain_interpolator).

(** A world that records what was called, a delegate whose [load] works, a
    delegate whose [load] fails, a subscriber that works and one that
    fails. *)
Definition load_ok : M (list string) unit :=
  fun w => Some ((w ++ ["load"])%list, Ok tt).

Definition load_fails : M (list string) unit :=
  fun w => Some ((w ++ ["load"])%list, Raise (IOError "source is down")).

Definition subscriber_ok : M (list string) pyvalue :=
  fun w => Some ((w ++ ["notified"])%list, Ok VNone).

Definition subscriber_fails : M (list string) pyvalue :=
  fun w => Some ((w ++ ["subscriber"])%list, Raise (ValueError "subscriber failed")).

Definition fresh_reload (subscribers : list (M (list string) pyvalue))
  : ReloadConfig (list string) :=
  {| _scheduler := {| scheduled := [] |};
     _loaded := false;
     _updated := {| _callbacks := subscribers |};
     world := [];
     warnings := [] |}.

(** A configuration that holds the nested record [{"db": {"host": 1}}] and
    the flat key ["db.host"]. *)
Definition nested_and_flat : BaseDataConfig :=
  memory_config [("db", VIgnoreCaseDict [("host", VInt 1)]); ("db.host", VInt 2)].

(** A reader of the application. *)
Definition toml_reader : reader := CustomReader (fun _ => Ok (VIgnoreCaseDict [])).

(** A host without the YAML library. *)
Definition no_yaml_host : Host :=
  {| argv := ["prog"];
     environ := [];
     path_exists := fun _ => false;
     path_join := fun path name => path ++ "/" ++ name;
     path_dirname := fun _ => "";
     path_splitext := fun name => (name, "");
     open_rb := fun _ => Raise (IOError "No such file or directory");
     codecs_decode := fun _ bytes => Ok bytes;
     urlopen := fun _ => Raise (IOError "urlopen error");
     s3_download := fun _ _ => Raise (IOError "download error");
     configparser_read := fun _ => Raise (ValueError "no parser");
     json_load := fun _ => Raise (ValueError "no parser");
     yaml_load := fun _ => Raise (ValueError "no parser");
     yaml_installed := false;
     readers := Readers.initial_registry |}.

(** A configuration that holds a number, a string and a record. *)
Definition typed_config : BaseDataConfig :=
  {| _lookup := ConfigLookup 0;
     _data := VIgnoreCaseDict
                [("port", VInt 8080); ("name", VStr "central");
                 ("db", VIgnoreCaseDict [("host", VStr "h")])];
     _decoder := failing_decoder;
     _interpolator := plain_interpolator |}.

(** A class of children whose [load] fails for a child that holds the key
    ["broken"] and marks the others as loaded. *)
Definition flaky_load : M BaseDataConfig unit :=
  fun self =>
    if is_none (mapping_get (_data self) "broken") then
      Some (set_data (VIgnoreCaseDict [("loaded", VBool true)]) self, Ok tt)
    else Some (self, Raise (IOError "broken source")).

Definition flaky_config : Config BaseDataConfig := BaseDataConfig.as_config flaky_load.

Definition broken_config : BaseDataConfig := memory_config [("broken", VBool true)].

(** A chain over one child that reads the command line, its keys not yet
    cached, without subscribers. *)
Definition command_line_child : Config BaseDataConfig :=
  BaseDataConfig.as_config (CommandLineConfig.load (bare_host ["prog"; "--a=1"])).

Definition unloaded_chain : ChainKeys BaseDataConfig (list string) :=
  {| keys_chain := {| chain_configs := [memory_config []];
                      chain_lookup := ConfigLookup 1 |};
     _keys_cached := None;
     keys_updated := {| _callbacks := [] |};
     keys_world := [] |}.


(** An in-memory configuration with one subscriber that fails. *)
Definition memory_with_failing_subscriber : MemoryConfig (list string) :=
  {| mem_base := memory_config [("Name", VStr "old")];
     mem_updated := {| _callbacks := [subscriber_fails] |};
     mem_world := [] |}.

(** A view as the child of another view, as [prefixed] builds them one on
    the other; its keys are those [__iter__] yields (none when it
    raises). *)
Definition prefixed_child {C : Type} `{Config C} : Config (PrefixedConfig C) :=
  {| get_raw := PrefixedConfig.get_raw;
     get_value := PrefixedConfig.get_value;
     load := PrefixedConfig.load;
     keys := fun self =>
       match PrefixedConfig.iter self with Ok found => found | Raise _ => [] end |}.

(** Where a key listed by a view comes from: a key of the child that
    starts with the delimited prefix, taken without it, or a key of the
    record that the child holds under the prefix itself. *)
Definition listed_under_prefix {C : Type} `{Config C} (self : PrefixedConfig C)
    (k : string) : Prop :=
  (exists key, In key (keys (prefixed_config self))
               /\ key = _prefix_delimited self ++ k)
  \/ (exists value,
         In (_prefix self) (keys (prefixed_config self))
         /\ BaseConfig.get (prefixed_config self) (Some (_prefix self))
                           (DefaultValue VNone) = Ok value
         /\ isinstance_Mapping value = true
         /\ In k (mapping_keys value)).





(** The same map with and without the key ["k"] that stores [None]. *)
Definition stores_nothing : BaseDataConfig :=
  {| _lookup := ConfigLookup 0;
     _data := VIgnoreCaseDict [];
     _decoder := failing_decoder;
     _interpolator := failing_interpolator |}.

(* ================================================================== *)
(** * Lemmas on strings *)
(* ================================================================== *)

Section StringFacts.

Lemma append_assoc (s t u : string) : (s ++ t) ++ u = s ++ t ++ u.
Proof. induction s as [|a s IH]; simpl; [|rewrite IH]; reflexivity. Qed.

Lemma length_append (s t : string) :
  String.length (s ++ t) = (String.length s + String.length t)%nat.
Proof. induction s as [|a s IH]; simpl; [|rewrite IH]; reflexivity. Qed.

Lemma split_not_nil (c : ascii) (s : string) : PyStr.split c s <> [].
Proof.
  destruct s as [|a s]; simpl; [discriminate|].
  destruct (Ascii.eqb a c); [discriminate|].
  destruct (PyStr.split c s); discriminate.
Qed.

Lemma split_cons_other (c a : ascii) (s : string) :
  Ascii.eqb a c = false ->
  PyStr.split c (String a s) =
  String a (PyStr.first (PyStr.split c s)) :: tl (PyStr.split c s).
Proof.
  intros Hac. simpl. rewrite Hac.
  destruct (PyStr.split c s) eqn:E; [exfalso; eapply split_not_nil; eauto|].
  reflexivity.
Qed.

(** [key == key.split(c)[0]] holds exactly when [c] is not in [key]. *)
Lemma eqb_first_split (c : ascii) (s : string) :
  String.eqb s (PyStr.first (PyStr.split c s)) = negb (PyStr.contains c s).
Proof.
  induction s as [|a s IH]; [reflexivity|].
  destruct (Ascii.eqb a c) eqn:Hac.
  - simpl. rewrite Hac. reflexivity.
  - rewrite split_cons_other by assumption.
    cbn [PyStr.first hd PyStr.contains String.eqb].
    rewrite Hac, Ascii.eqb_refl. exact IH.
Qed.

Lemma split_no_sep (c : ascii) (s : string) :
  PyStr.contains c s = false -> PyStr.split c s = [s].
Proof.
  induction s as [|a s IH]; [reflexivity|].
  simpl. destruct (Ascii.eqb a c); [discriminate|].
  simpl. intros Hs. rewrite (IH Hs). reflexivity.
Qed.


Lemma contains_app (c : ascii) (s t : string) :
  PyStr.contains c (s ++ t) = (PyStr.contains c s || PyStr.contains c t)%bool.
Proof.
  induction s as [|a s IH]; simpl; [reflexivity|].
  rewrite IH. apply orb_assoc.
Qed.

Lemma find_from_app_sep (c : ascii) (k v : string) (i : Z) :
  PyStr.contains c k = false ->
  PyStr.find_from c (k ++ String c v) i = i + Z.of_nat (String.length k).
Proof.
  revert i. induction k as [|a k IH]; intros i; simpl.
  - intros _. rewrite Ascii.eqb_refl. lia.
  - destruct (Ascii.eqb a c); [discriminate|]. simpl.
    intros Hk. rewrite (IH _ Hk). lia.
Qed.

Lemma find_from_none (c : ascii) (s : string) (i : Z) :
  PyStr.contains c s = false -> PyStr.find_from c s i = -1.
Proof.
  revert i. induction s as [|a s IH]; intros i; simpl; [reflexivity|].
  destruct (Ascii.eqb a c); [discriminate|]. simpl. apply IH.
Qed.

Lemma find_from_found (c : ascii) (s : string) (i : Z) :
  0 <= i -> PyStr.contains c s = true -> 0 <= PyStr.find_from c s i.
Proof.
  revert i. induction s as [|a s IH]; intros i Hi; simpl; [discriminate|].
  destruct (Ascii.eqb a c); simpl; [lia|].
  intros Hs. apply IH; [lia|assumption].
Qed.

Lemma drop_app_length (k s : string) :
  PyStr.drop (String.length k) (k ++ s) = s.
Proof. induction k as [|a k IH]; simpl; [destruct s|]; auto. Qed.

Lemma take_app_length (k s : string) :
  PyStr.take (String.length k) (k ++ s) = k.
Proof.
  induction k as [|a k IH]; simpl; [destruct s; reflexivity|].
  rewrite IH. reflexivity.
Qed.

Lemma startswith_app (p s : string) : PyStr.startswith (p ++ s) p = true.
Proof.
  induction p as [|a p IH]; simpl; [destruct s; reflexivity|].
  rewrite Ascii.eqb_refl. exact IH.
Qed.

End StringFacts.

(* ================================================================== *)
(** * [BaseDataConfig.get_raw] *)
(* ================================================================== *)

Section GetRaw.

(** The loop with its two [break]s computes the descent. *)
Lemma walk_nested_lookup (paths : list string) (v : pyvalue) :
  BaseDataConfig.walk paths v =
  if is_none v then VNone else or_absent (nested_lookup v paths).
Proof.
  revert v. induction paths as [|p rest IH]; intros v.
  - destruct v; reflexivity.
  - cbn [BaseDataConfig.walk nested_lookup].
    destruct (is_none v) eqn:Hn; [destruct v; try discriminate; reflexivity|].
    destruct (isinstance_Mapping v); [|reflexivity].
    cbn [negb]. rewrite IH.
    destruct (mapping_get v p); reflexivity.
Qed.

Lemma get_raw_unfold (self : BaseDataConfig) (key : string) :
  BaseDataConfig.get_raw self (Some key) =
  Ok (if negb (is_none (mapping_get (_data self) key)) then
        mapping_get (_data self) key
      else if PyStr.contains NESTED_DELIMITER key then
        or_absent (nested_lookup (_data self) (PyStr.split NESTED_DELIMITER key))
      else VNone).
Proof.
  unfold BaseDataConfig.get_raw.
  destruct (negb (is_none (mapping_get (_data self) key))); [reflexivity|].
  rewrite eqb_first_split.
  destruct (PyStr.contains NESTED_DELIMITER key) eqn:Hc; cbn [negb]; [|reflexivity].
  f_equal. rewrite walk_nested_lookup.
  pose proof (split_not_nil NESTED_DELIMITER key) as Hne.
  destruct (PyStr.split NESTED_DELIMITER key) as [|p rest]; [congruence|].
  cbn [PyStr.first hd tl nested_lookup].
  destruct (_data self) as [| | | | | |d|d]; try reflexivity;
    cbn [isinstance_Mapping];
    match goal with
    | |- context [is_none ?x] => destruct x; reflexivity
    end.
Qed.

End GetRaw.

(** C1: for every [BaseDataConfig] and every key that is not null,
    [get_raw] returns the exact (for an [IgnoreCaseDict], case-folded) match
    of the backing map when there is one; otherwise, when the key holds the
    delimiter ['.'], the result of walking the backing map through the
    segments of the key, absent when a segment is missing or a value on the
    way is not a mapping; otherwise absent.  For a configuration holding
    [{"a": {"b": 5}}]: [get_raw("a.b")] is [5], [get_raw("a.c")] and
    [get_raw("a.b.c")] are absent. *)
Theorem get_raw_exact_then_nested :
  (forall (self : BaseDataConfig) (key : string),
      BaseDataConfig.get_raw self (Some key) =
      Ok (if negb (is_none (mapping_get (_data self) key)) then
            mapping_get (_data self) key
          else if PyStr.contains "." key then
            or_absent (nested_lookup (_data self) (PyStr.split "." key))
          else VNone))
  /\ (forall lookup decoder interpolator,
         let self :=
           {| _lookup := lookup;
              _data := VIgnoreCaseDict [("a", VIgnoreCaseDict [("b", VInt 5)])];
              _decoder := decoder; _interpolator := interpolator |} in
         BaseDataConfig.get_raw self (Some "a.b") = Ok (VInt 5)
         /\ BaseDataConfig.get_raw self (Some "A.b") = Ok (VInt 5)
         /\ BaseDataConfig.get_raw self (Some "a.c") = Ok VNone
         /\ BaseDataConfig.get_raw self (Some "a.b.c") = Ok VNone).
Proof.
  split.
  - intros self key. apply get_raw_unfold.
  - intros lookup decoder interpolator self. repeat split; reflexivity.
Qed.

(* ================================================================== *)
(** * A raw value that is [None] *)
(* ================================================================== *)

(** C9, as the claim states it, fails: a key for which the backing map
    stores [None] reads as a missing key, but it is told from one on the
    public interface: [__iter__] (and so [keys()]) lists it and [__len__]
    counts it. *)
Lemma none_valued_key_is_listed :
  BaseDataConfig.get_raw stores_none (Some "k") = Ok VNone
  /\ BaseDataConfig.get_raw stores_nothing (Some "k") = Ok VNone
  /\ BaseDataConfig.iter stores_none = ["k"]
  /\ BaseDataConfig.iter stores_nothing = []
  /\ @keys _ MemoryConfig.config stores_none = ["k"]
  /\ @keys _ MemoryConfig.config stores_nothing = []
  /\ BaseDataConfig.len stores_none = 1
  /\ BaseDataConfig.len stores_nothing = 0.
Proof. repeat split. Qed.

Lemma lookup_some_key (d : items) (key : string) (v : pyvalue) :
  Assoc.lookup IgnoreCaseDict.keq d key = Some v ->
  exists k, In k (map fst d) /\ IgnoreCaseDict.keq k key = true.
Proof.
  induction d as [|[k0 w] rest IH]; cbn [Assoc.lookup map fst In]; [discriminate|].
  destruct (IgnoreCaseDict.keq k0 key) eqn:Hk.
  - intros _. exists k0. split; [left; reflexivity | exact Hk].
  - intros H. destruct (IH H) as [k [Hin Hkeq]].
    exists k. split; [right; exact Hin | exact Hkeq].
Qed.

(** C9, amended: for every [BaseDataConfig] (whatever its subclass loads),
    a key whose raw lookup yields [None] reads as a missing key, also when
    the backing map stores [None] for it: [key in config] is [False];
    [get_value(key, type, default)] is the default (called when it is
    callable), whatever the interpolator and the decoder would do;
    [config[key]] raises [KeyError].  It is not a missing key for
    [__iter__], [keys()] and [__len__], which go by the keys of the backing
    map whatever their values: a key that the map stores is listed and
    counted. *)
Theorem none_raw_value_is_missing_key
    (load : M BaseDataConfig unit) (self : BaseDataConfig) (key : string) :
  BaseDataConfig.get_raw self (Some key) = Ok VNone ->
  @BaseConfig.contains _ (BaseDataConfig.as_config load) self (Some key) = Ok false
  /\ (forall type default,
         BaseDataConfig.get_value self (Some key) (Some type) default =
         eval_default default)
  /\ @BaseConfig.getitem _ (BaseDataConfig.as_config load) self key =
     Raise (KeyError key)
  /\ (forall d,
         _data self = VIgnoreCaseDict d ->
         BaseDataConfig.iter self = map fst d
         /\ @keys _ (BaseDataConfig.as_config load) self = map fst d
         /\ BaseDataConfig.len self = Z.of_nat (List.length d)
         /\ (IgnoreCaseDict.mem d key = true ->
             (exists k, In k (BaseDataConfig.iter self)
                        /\ IgnoreCaseDict.keq k key = true)
             /\ 0 < BaseDataConfig.len self)).
Proof.
  intros Hraw. split; [|split; [|split]].
  - unfold BaseConfig.contains. cbn [get_raw BaseDataConfig.as_config].
    rewrite Hraw. reflexivity.
  - intros type default. unfold BaseDataConfig.get_value.
    rewrite Hraw. reflexivity.
  - unfold BaseConfig.getitem. cbn [get_value BaseDataConfig.as_config].
    unfold BaseDataConfig.get_value. rewrite Hraw. reflexivity.
  - intros d Hdata. cbn [keys BaseDataConfig.as_config].
    unfold BaseDataConfig.iter, BaseDataConfig.len. rewrite Hdata.
    split; [reflexivity|]. split; [reflexivity|]. split; [reflexivity|].
    unfold IgnoreCaseDict.mem, Assoc.mem.
    destruct (Assoc.lookup IgnoreCaseDict.keq d key) as [v|] eqn:Hlookup;
      [|discriminate].
    intros _. split; [exact (lookup_some_key d key v Hlookup)|].
    destruct d; [discriminate Hlookup | cbn [List.length]; lia].
Qed.

Lemma none_raw_value_is_missing_key_witness :
  BaseDataConfig.get_raw stores_none (Some "k") = Ok VNone
  /\ @BaseConfig.contains _ MemoryConfig.config stores_none (Some "k") = Ok false
  /\ (forall type default,
         BaseDataConfig.get_value stores_none (Some "k") (Some type) default =
         eval_default default)
  /\ @BaseConfig.getitem _ MemoryConfig.config stores_none "k" = Raise (KeyError "k")
  /\ (exists k, In k (BaseDataConfig.iter stores_none)
                /\ IgnoreCaseDict.keq k "k" = true)
  /\ 0 < BaseDataConfig.len stores_none.
Proof.
  split; [reflexivity|].
  destruct (none_raw_value_is_missing_key MemoryConfig.load stores_none "k" eq_refl)
    as [Hcontains [Hvalue [Hitem Hkeys]]].
  split; [exact Hcontains|]. split; [exact Hvalue|]. split; [exact Hitem|].
  destruct (Hkeys [("k", VNone)] eq_refl) as [_ [_ [_ Hlisted]]].
  exact (Hlisted eq_refl).
Defined.

(* ================================================================== *)
(** * [ChainConfig]: the last child wins *)
(* ================================================================== *)

Section Chain.
Context {C : Type} {HC : Config C}.

Lemma first_found_all_none (f : C -> result pyvalue) (configs : list C) :
  Forall (fun c => f c = Ok VNone) configs ->
  ChainConfig.first_found f configs = Ok VNone.
Proof.
  induction 1 as [|c rest Hc _ IH]; [reflexivity|].
  cbn [ChainConfig.first_found]. rewrite Hc. exact IH.
Qed.

Lemma first_found_hit (f : C -> result pyvalue) (before after : list C)
    (c : C) (v : pyvalue) :
  Forall (fun c' => f c' = Ok VNone) before ->
  f c = Ok v -> v <> VNone ->
  ChainConfig.first_found f (before ++ c :: after)%list = Ok v.
Proof.
  intros Hbefore Hc Hv.
  induction Hbefore as [|c' rest Hc' _ IH].
  - cbn [app ChainConfig.first_found]. rewrite Hc. cbn [rbind].
    destruct v; try reflexivity. congruence.
  - cbn [app ChainConfig.first_found]. rewrite Hc'. exact IH.
Qed.

(** The search runs over [reversed(configs)]: a child is reached when
    all the children after it are silent. *)
Lemma first_found_rev_hit (f : C -> result pyvalue) (earlier later : list C)
    (c : C) (v : pyvalue) :
  Forall (fun c' => f c' = Ok VNone) later ->
  f c = Ok v -> v <> VNone ->
  ChainConfig.first_found f (rev (earlier ++ c :: later)%list) = Ok v.
Proof.
  intros Hlater Hc Hv.
  rewrite rev_app_distr. cbn [rev]. rewrite <- app_assoc. cbn [app].
  apply first_found_hit; try assumption.
  apply Forall_rev. exact Hlater.
Qed.

Lemma first_found_rev_all_none (f : C -> result pyvalue) (configs : list C) :
  Forall (fun c => f c = Ok VNone) configs ->
  ChainConfig.first_found f (rev configs) = Ok VNone.
Proof. intros Hall. apply first_found_all_none, Forall_rev, Hall. Qed.

End Chain.

(** C2: for every [ChainConfig] over children [c1..cn] (of any class of
    configurations) and every key, [get_raw] and [get_value] return the
    result of the last child that has one: a child answers when every child
    after it yields [None]; when no child has a value, [get_raw] is [None]
    and [get_value] is the default (called when it is callable).  With [A]
    holding [{"x": 1, "y": 7}] and [B] holding [{"x": 2}],
    [ChainConfig(A, B).get("x")] is [2] and [get("y")] is [A]'s [7]. *)
Theorem chain_last_child_wins :
  (forall (C : Type) (HC : Config C) (self : ChainConfig C) (key : option string),
      (forall earlier c later v,
          chain_configs self = (earlier ++ c :: later)%list ->
          Forall (fun c' => get_raw c' key = Ok VNone) later ->
          get_raw c key = Ok v -> v <> VNone ->
          ChainConfig.get_raw self key = Ok v)
      /\ (Forall (fun c => get_raw c key = Ok VNone) (chain_configs self) ->
          ChainConfig.get_raw self key = Ok VNone)
      /\ (forall type default earlier c later v,
             chain_configs self = (earlier ++ c :: later)%list ->
             Forall (fun c' => get_value c' key type (DefaultValue VNone) = Ok VNone)
                    later ->
             get_value c key type (DefaultValue VNone) = Ok v -> v <> VNone ->
             ChainConfig.get_value self key type default = Ok v)
      /\ (forall type default,
             Forall (fun c => get_value c key type (DefaultValue VNone) = Ok VNone)
                    (chain_configs self) ->
             ChainConfig.get_value self key type default = eval_default default))
  /\ @BaseConfig.get _ (@ChainConfig.config _ MemoryConfig.config)
       chain_A_B (Some "x") (DefaultValue VNone) = Ok (VInt 2)
  /\ @BaseConfig.get _ (@ChainConfig.config _ MemoryConfig.config)
       chain_A_B (Some "y") (DefaultValue VNone) = Ok (VInt 7).
Proof.
  split; [|split; reflexivity].
  intros C HC self key. repeat split.
  - intros earlier c later v Hcs Hlater Hc Hv.
    unfold ChainConfig.get_raw. rewrite Hcs.
    apply (first_found_rev_hit (fun config => get_raw config key)); assumption.
  - intros Hall. unfold ChainConfig.get_raw.
    apply (first_found_rev_all_none (fun config => get_raw config key)), Hall.
  - intros type default earlier c later v Hcs Hlater Hc Hv.
    unfold ChainConfig.get_value. rewrite Hcs.
    rewrite (first_found_rev_hit
               (fun config => get_value config key type (DefaultValue VNone))
               earlier later c v Hlater Hc Hv).
    cbn [rbind]. destruct v; try reflexivity. congruence.
  - intros type default Hall. unfold ChainConfig.get_value.
    rewrite (first_found_rev_all_none
               (fun config => get_value config key type (DefaultValue VNone))
               _ Hall).
    reflexivity.
Qed.

Lemma chain_last_child_wins_witness :
  @ChainConfig.get_raw _ MemoryConfig.config chain_A_B (Some "x") = Ok (VInt 2)
  /\ @ChainConfig.get_raw _ MemoryConfig.config chain_A_B (Some "y") = Ok (VInt 7)
  /\ @ChainConfig.get_raw _ MemoryConfig.config chain_A_B (Some "z") = Ok VNone
  /\ @ChainConfig.get_value _ MemoryConfig.config chain_A_B (Some "y")
       (Some TObject) (DefaultValue (VStr "d")) = Ok (VInt 7)
  /\ @ChainConfig.get_value _ MemoryConfig.config chain_A_B (Some "z")
       (Some TObject) (DefaultCallable (fun _ => Ok (VStr "d"))) = Ok (VStr "d").
Proof.
  destruct chain_last_child_wins as [Hgen _].
  destruct (Hgen _ MemoryConfig.config chain_A_B (Some "x")) as [Hraw_x _].
  destruct (Hgen _ MemoryConfig.config chain_A_B (Some "y"))
    as [Hraw_y [_ [Hval_y _]]].
  destruct (Hgen _ MemoryConfig.config chain_A_B (Some "z"))
    as [_ [Hraw_z [_ Hval_z]]].
  split; [|split; [|split; [|split]]].
  - apply (Hraw_x [config_A] config_B [] (VInt 2));
      [reflexivity | constructor | reflexivity | discriminate].
  - apply (Hraw_y [] config_A [config_B] (VInt 7));
      [reflexivity | repeat constructor | reflexivity | discriminate].
  - apply Hraw_z. repeat constructor.
  - apply (Hval_y (Some TObject) (DefaultValue (VStr "d")) [] config_A [config_B] (VInt 7));
      [reflexivity | repeat constructor | reflexivity | discriminate].
  - apply (Hval_z (Some TObject) (DefaultCallable (fun _ => Ok (VStr "d")))).
    repeat constructor.
Defined.

(* ================================================================== *)
(** * [CommandLineConfig.load]: the grammar of the arguments *)
(* ================================================================== *)

Section CommandLine.

Lemma startswith_dash (s : string) :
  PyStr.startswith s "-" =
  match s with String a _ => Ascii.eqb a "-" | EmptyString => false end.
Proof.
  destruct s as [|a s]; [reflexivity|].
  simpl. destruct s; apply andb_true_r.
Qed.

Lemma startswith_dash_app (k s : string) (c : ascii) :
  Ascii.eqb c "-" = false ->
  PyStr.startswith k "-" = false ->
  PyStr.startswith (k ++ String c s) "-" = false.
Proof.
  rewrite !startswith_dash. destruct k; simpl; auto.
Qed.

Lemma startswith_two_dashes (s : string) :
  PyStr.startswith s "--" =
  match s with
  | String a s' => (Ascii.eqb a "-" && PyStr.startswith s' "-")%bool
  | EmptyString => false
  end.
Proof. destruct s; reflexivity. Qed.

(** [key_start_index] counts the dashes stripped. *)
Lemma key_start_index_stripped (p k : string) :
  stripped_dashes p k ->
  CommandLineConfig.key_start_index (p ++ k) = Z.of_nat (String.length p).
Proof.
  unfold CommandLineConfig.key_start_index.
  intros [-> | [-> Hk]].
  - rewrite startswith_app. reflexivity.
  - rewrite startswith_two_dashes, startswith_app. cbn [append].
    rewrite Hk. reflexivity.
Qed.

Lemma key_start_index_bare (t : string) :
  PyStr.startswith t "-" = false ->
  CommandLineConfig.key_start_index t = 0.
Proof.
  unfold CommandLineConfig.key_start_index. intros Ht.
  rewrite startswith_two_dashes, Ht.
  rewrite startswith_dash in Ht. destruct t; [reflexivity|].
  rewrite Ht. reflexivity.
Qed.

Lemma stripped_dashes_no_eq (p k : string) :
  stripped_dashes p k -> PyStr.contains "=" p = false.
Proof. intros [-> | [-> _]]; reflexivity. Qed.

Lemma stripped_dashes_app (p k s : string) :
  stripped_dashes p k -> stripped_dashes p (k ++ String "=" s).
Proof.
  intros [-> | [-> Hk]]; [left; reflexivity|].
  right. split; [reflexivity|].
  apply startswith_dash_app; [reflexivity|assumption].
Qed.

(** A token [p ++ k ++ "=" ++ v] whose first ['='] is the one written,
    [n] characters being stripped in front of the key. *)
Lemma parse_key_equals_value (p k v : string) (rest : list string) (data : items) :
  CommandLineConfig.key_start_index (p ++ k ++ String "=" v) =
    Z.of_nat (String.length p) ->
  PyStr.contains "=" p = false ->
  PyStr.contains "=" k = false ->
  CommandLineConfig.parse ((p ++ k ++ String "=" v) :: rest) data =
  if PyStr.truthy (PyStr.strip k) then
    CommandLineConfig.parse rest
      (IgnoreCaseDict.set data (PyStr.strip k) (VStr (PyStr.strip v)))
  else
    Raise (ConfigError ("Unrecognized argument " ++ (p ++ k ++ String "=" v)
                        ++ " format")).
Proof.
  intros Hstart Hp Hk.
  cbn [CommandLineConfig.parse]. rewrite Hstart.
  assert (Hfind : PyStr.find "=" (p ++ k ++ String "=" v) =
                  Z.of_nat (String.length p) + Z.of_nat (String.length k)).
  { unfold PyStr.find.
    replace (p ++ k ++ String "=" v) with ((p ++ k) ++ String "=" v)
      by (apply append_assoc).
    rewrite find_from_app_sep
      by (rewrite contains_app, Hp, Hk; reflexivity).
    rewrite length_append. lia. }
  rewrite Hfind.
  replace (Z.of_nat (String.length p) + Z.of_nat (String.length k) =? -1)
    with false by (symmetry; apply Z.eqb_neq; lia).
  assert (Hkey : PyStr.slice (p ++ k ++ String "=" v)
                   (Z.of_nat (String.length p))
                   (Z.of_nat (String.length p) + Z.of_nat (String.length k)) = k).
  { unfold PyStr.slice. rewrite Nat2Z.id, drop_app_length.
    replace (Z.to_nat (Z.of_nat (String.length p) + Z.of_nat (String.length k)
                       - Z.of_nat (String.length p)))
      with (String.length k) by lia.
    apply take_app_length. }
  assert (Hval : PyStr.slice_from (p ++ k ++ String "=" v)
                   (Z.of_nat (String.length p) + Z.of_nat (String.length k) + 1) = v).
  { unfold PyStr.slice_from.
    replace (Z.to_nat (Z.of_nat (String.length p) + Z.of_nat (String.length k) + 1))
      with (String.length ((p ++ k) ++ "=")).
    - replace (p ++ k ++ String "=" v) with (((p ++ k) ++ "=") ++ v).
      + apply drop_app_length.
      + rewrite !append_assoc. reflexivity.
    - rewrite !length_append. cbn [String.length]. lia. }
  rewrite Hkey, Hval.
  destruct (PyStr.truthy (PyStr.strip k)); reflexivity.
Qed.

(** A token [p ++ k] without ['='], [p] being the dashes stripped. *)
Lemma parse_key_then_value (p k : string) (rest : list string) (data : items) :
  stripped_dashes p k ->
  PyStr.contains "=" k = false ->
  CommandLineConfig.parse ((p ++ k) :: rest) data =
  match rest with
  | [] => Raise (ConfigError ("Value for argument " ++ k ++ " is missing"))
  | value :: rest' =>
      CommandLineConfig.parse rest' (IgnoreCaseDict.set data k (VStr value))
  end.
Proof.
  intros Hp Hk.
  cbn [CommandLineConfig.parse].
  rewrite (key_start_index_stripped _ _ Hp).
  unfold PyStr.find. rewrite find_from_none
    by (rewrite contains_app, (stripped_dashes_no_eq _ _ Hp), Hk; reflexivity).
  cbn [Z.eqb Pos.eqb].
  replace (Z.of_nat (String.length p) =? 0) with false
    by (destruct Hp as [-> | [-> _]]; reflexivity).
  unfold PyStr.slice_from. rewrite Nat2Z.id, drop_app_length.
  reflexivity.
Qed.

Lemma parse_unrecognized (t : string) (rest : list string) (data : items) :
  PyStr.startswith t "-" = false ->
  PyStr.contains "=" t = false ->
  CommandLineConfig.parse (t :: rest) data =
  Raise (ConfigError ("Unrecognized argument " ++ t ++ " format")).
Proof.
  intros Ht He.
  cbn [CommandLineConfig.parse].
  rewrite (key_start_index_bare _ Ht).
  unfold PyStr.find. rewrite (find_from_none _ _ _ He).
  reflexivity.
Qed.

End CommandLine.

(** C5: [CommandLineConfig.load] reads each token of the arguments after
    the program name as follows.  A token without leading dash and without
    ['='] is a malformed-argument error.  A token that starts with [--]
    (with a single [-]) has 2 (1) characters stripped in front of its key.
    When the token holds ['='], the key is the text between the stripped
    dashes and the first ['='], trimmed, an empty key being a
    malformed-argument error, and the value is the text after that ['='],
    trimmed.  When it holds no ['='], the next token is consumed as the
    value, and a missing-value error naming the key is raised when no token
    follows.  Parsing [--name=value -x 1 bare=2] yields
    [{"name": "value", "x": "1", "bare": "2"}]. *)
Theorem command_line_grammar :
  (forall t rest data,
      PyStr.startswith t "-" = false ->
      PyStr.contains "=" t = false ->
      CommandLineConfig.parse (t :: rest) data =
      Raise (ConfigError ("Unrecognized argument " ++ t ++ " format")))
  /\ (forall p k v rest data,
         stripped_dashes p k \/ (p = "" /\ PyStr.startswith k "-" = false) ->
         PyStr.contains "=" k = false ->
         CommandLineConfig.parse ((p ++ k ++ "=" ++ v) :: rest) data =
         if PyStr.truthy (PyStr.strip k) then
           CommandLineConfig.parse rest
             (IgnoreCaseDict.set data (PyStr.strip k) (VStr (PyStr.strip v)))
         else
           Raise (ConfigError ("Unrecognized argument " ++ (p ++ k ++ "=" ++ v)
                               ++ " format")))
  /\ (forall p k rest data,
         stripped_dashes p k ->
         PyStr.contains "=" k = false ->
         CommandLineConfig.parse ((p ++ k) :: rest) data =
         match rest with
         | [] => Raise (ConfigError ("Value for argument " ++ k ++ " is missing"))
         | value :: rest' =>
             CommandLineConfig.parse rest' (IgnoreCaseDict.set data k (VStr value))
         end)
  /\ (forall host self,
         tl (argv host) = ["--name=value"; "-x"; "1"; "bare=2"] ->
         CommandLineConfig.load host self =
         Some (set_data
                 (VIgnoreCaseDict
                    [("name", VStr "value"); ("x", VStr "1"); ("bare", VStr "2")])
                 self, Ok tt))
  /\ CommandLineConfig.parse ["bad"] [] =
     Raise (ConfigError "Unrecognized argument bad format")
  /\ CommandLineConfig.parse ["--missing"] [] =
     Raise (ConfigError "Value for argument missing is missing").
Proof.
  split; [|split; [|split; [|split; [|split]]]].
  - intros t rest data. apply parse_unrecognized.
  - intros p k v rest data Hp Hk.
    apply parse_key_equals_value; [| |exact Hk].
    + destruct Hp as [Hp | [-> Hbare]].
      * apply key_start_index_stripped, stripped_dashes_app, Hp.
      * apply key_start_index_bare.
        apply startswith_dash_app; [reflexivity|exact Hbare].
    + destruct Hp as [Hp | [-> _]];
        [exact (stripped_dashes_no_eq _ _ Hp) | reflexivity].
  - intros p k rest data. apply parse_key_then_value.
  - intros host self Hargv. unfold CommandLineConfig.load.
    rewrite Hargv. reflexivity.
  - reflexivity.
  - reflexivity.
Qed.

Lemma command_line_grammar_witness :
  CommandLineConfig.parse ["bad"; "--k=v"] [] =
    Raise (ConfigError "Unrecognized argument bad format")
  /\ CommandLineConfig.parse ["-- Name = some value "] [] =
     Ok [("Name", VStr "some value")]
  /\ CommandLineConfig.parse ["-x"; "--y"] [("X", VStr "0")] =
     Ok [("X", VStr "--y")]
  /\ CommandLineConfig.load
       (bare_host ["prog"; "--name=value"; "-x"; "1"; "bare=2"]) stores_none =
     Some (set_data
             (VIgnoreCaseDict
                [("name", VStr "value"); ("x", VStr "1"); ("bare", VStr "2")])
             stores_none, Ok tt).
Proof.
  destruct command_line_grammar as [Hbad [Heq [Hnext [Hload _]]]].
  split; [|split; [|split]].
  - apply (Hbad "bad"); reflexivity.
  - apply (Heq "--" " Name " " some value " [] []); [left; left|]; reflexivity.
  - apply (Hnext "-" "x" ["--y"] [("X", VStr "0")]);
      [right; split|]; reflexivity.
  - apply (Hload (bare_host ["prog"; "--name=value"; "-x"; "1"; "bare=2"])).
    reflexivity.
Defined.

(* ================================================================== *)
(** * [merge_properties] *)
(* ================================================================== *)

Section DictFacts.

Lemma dict_lookup_set_same (d : items) (key : string) (v : pyvalue) :
  Assoc.lookup String.eqb (dict_set d key v) key = Some v.
Proof.
  induction d as [|[k w] rest IH]; cbn [dict_set Assoc.set Assoc.lookup].
  - rewrite String.eqb_refl. reflexivity.
  - destruct (String.eqb k key) eqn:Hk; cbn [Assoc.lookup]; rewrite Hk.
    + reflexivity.
    + exact IH.
Qed.

Lemma dict_lookup_set_other (d : items) (key key' : string) (v : pyvalue) :
  key <> key' ->
  Assoc.lookup String.eqb (dict_set d key v) key' = Assoc.lookup String.eqb d key'.
Proof.
  intros Hne.
  induction d as [|[k w] rest IH]; cbn [dict_set Assoc.set Assoc.lookup].
  - replace (String.eqb key key') with false
      by (symmetry; apply String.eqb_neq; exact Hne).
    reflexivity.
  - destruct (String.eqb k key) eqn:Hk; cbn [Assoc.lookup].
    + apply String.eqb_eq in Hk. subst k.
      replace (String.eqb key key') with false
        by (symmetry; apply String.eqb_neq; exact Hne).
      reflexivity.
    + destruct (String.eqb k key'); [reflexivity | exact IH].
Qed.

Lemma dict_get_set_same (d : items) (key : string) (v : pyvalue) :
  dict_get (dict_set d key v) key = v.
Proof. unfold dict_get, Assoc.get. rewrite dict_lookup_set_same. reflexivity. Qed.

Lemma dict_get_set_other (d : items) (key key' : string) (v : pyvalue) :
  key <> key' -> dict_get (dict_set d key v) key' = dict_get d key'.
Proof.
  intros Hne. unfold dict_get, Assoc.get.
  rewrite dict_lookup_set_other by exact Hne. reflexivity.
Qed.

(** On a dict, [d.get(key)] of the key of an item is the value of the
    item. *)
Lemma dict_get_item (d : items) (key : string) (v : pyvalue) :
  NoDup (map fst d) -> In (key, v) d -> dict_get d key = v.
Proof.
  unfold dict_get, Assoc.get.
  induction d as [|[k w] rest IH]; intros Hnd Hin; [destruct Hin|].
  cbn [map fst] in Hnd. inversion Hnd as [|? ? Hk Hrest]; subst.
  cbn [Assoc.lookup]. destruct Hin as [Heq | Hin].
  - inversion Heq; subst. rewrite String.eqb_refl. reflexivity.
  - destruct (String.eqb k key) eqn:Hkk.
    + apply String.eqb_eq in Hkk. subst k.
      exfalso. apply Hk. apply (in_map fst) in Hin. exact Hin.
    + apply IH; assumption.
Qed.

Lemma dict_set_fresh (d : items) (key : string) (v : pyvalue) :
  ~ In key (map fst d) -> dict_set d key v = (d ++ [(key, v)])%list.
Proof.
  induction d as [|[k w] rest IH]; intros Hfresh; [reflexivity|].
  cbn [dict_set Assoc.set app].
  destruct (String.eqb k key) eqn:Hk.
  - apply String.eqb_eq in Hk. subst k. exfalso. apply Hfresh. left. reflexivity.
  - f_equal. apply IH. intros Hin. apply Hfresh. right. exact Hin.
Qed.

(** [dst.update(src)] appends the items of [src] whose keys are new. *)
Lemma dict_update_fresh (src dst : items) :
  NoDup (map fst src) ->
  (forall key, In key (map fst src) -> ~ In key (map fst dst)) ->
  dict_update dst src = (dst ++ src)%list.
Proof.
  unfold dict_update, Assoc.update.
  revert dst. induction src as [|[k v] rest IH]; intros dst Hnd Hfresh.
  - cbn [fold_left]. rewrite app_nil_r. reflexivity.
  - cbn [map fst] in Hnd. inversion Hnd as [|? ? Hk Hrest]; subst.
    cbn [fold_left fst snd].
    change (Assoc.set String.eqb dst k v) with (dict_set dst k v).
    rewrite dict_set_fresh by (apply Hfresh; left; reflexivity).
    rewrite IH.
    + rewrite <- app_assoc. reflexivity.
    + exact Hrest.
    + intros key Hin Hin'. rewrite map_app, in_app_iff in Hin'.
      destruct Hin' as [Hin' | [Heq | []]].
      * apply (Hfresh key); [right; exact Hin | exact Hin'].
      * cbn [fst] in Heq. subst key. contradiction.
Qed.

End DictFacts.

Section MergeProperties.

Lemma merge_properties_unfold (dst src : items) :
  Utils.merge_properties dst src =
  if (Z.of_nat (List.length dst) =? 0) then dict_update dst src
  else fold_left
         (fun dst kv => Utils.merge_key Utils.merge_properties_into dst (fst kv) (snd kv))
         src dst.
Proof.
  unfold Utils.merge_properties. cbn [Utils.merge_properties_into].
  destruct (Z.of_nat (List.length dst) =? 0); [reflexivity|].
  revert dst. induction src as [|[k v] rest IH]; intros dst; [reflexivity|].
  cbn [fold_left fst snd]. apply IH.
Qed.

(** The key at hand gets the value of the rule. *)
Lemma merge_key_same (dst : items) (key : string) (src_value : pyvalue) :
  dict_get (Utils.merge_key Utils.merge_properties_into dst key src_value) key =
  merge_entry (dict_get dst key) src_value.
Proof.
  unfold Utils.merge_key, merge_entry.
  destruct (is_none src_value || is_none (dict_get dst key))%bool;
    [apply dict_get_set_same|].
  destruct (negb (pytype_eqb (type_of src_value) (type_of (dict_get dst key)))) eqn:Ht;
    [reflexivity|].
  destruct (dict_get dst key) eqn:Hd; try apply dict_get_set_same.
  destruct src_value; try discriminate Ht.
  rewrite dict_get_set_same. reflexivity.
Qed.

(** The other keys keep their values. *)
Lemma merge_key_other (merge : pyvalue -> items -> items) (dst : items)
    (key key' : string) (src_value : pyvalue) :
  key <> key' ->
  dict_get (Utils.merge_key merge dst key src_value) key' = dict_get dst key'.
Proof.
  intros Hne. unfold Utils.merge_key.
  destruct (is_none src_value || is_none (dict_get dst key))%bool;
    [apply dict_get_set_other; exact Hne|].
  destruct (negb (pytype_eqb (type_of src_value) (type_of (dict_get dst key))));
    [reflexivity|].
  destruct (dict_get dst key); apply dict_get_set_other; exact Hne.
Qed.

Lemma merge_loop_other (src dst : items) (key : string) :
  ~ In key (map fst src) ->
  dict_get
    (fold_left
       (fun dst kv => Utils.merge_key Utils.merge_properties_into dst (fst kv) (snd kv))
       src dst) key = dict_get dst key.
Proof.
  revert dst. induction src as [|[k v] rest IH]; intros dst Hnot; [reflexivity|].
  cbn [fold_left fst snd]. rewrite IH.
  - apply merge_key_other. intros Heq. apply Hnot. left. exact Heq.
  - intros Hin. apply Hnot. right. exact Hin.
Qed.

Lemma merge_loop_item (src dst : items) (key : string) (src_value : pyvalue) :
  NoDup (map fst src) -> In (key, src_value) src ->
  dict_get
    (fold_left
       (fun dst kv => Utils.merge_key Utils.merge_properties_into dst (fst kv) (snd kv))
       src dst) key = merge_entry (dict_get dst key) src_value.
Proof.
  revert dst. induction src as [|[k v] rest IH]; intros dst Hnd Hin; [destruct Hin|].
  cbn [map fst] in Hnd. inversion Hnd as [|? ? Hk Hrest]; subst.
  cbn [fold_left fst snd]. destruct Hin as [Heq | Hin].
  - inversion Heq; subst. rewrite merge_loop_other by exact Hk.
    apply merge_key_same.
  - rewrite (IH _ Hrest Hin). f_equal.
    apply merge_key_other. intros Heq. subst k.
    apply Hk. apply (in_map fst) in Hin. exact Hin.
Qed.

End MergeProperties.

(** C7, as the claim states it, fails: with [dst = {"a": 1}] and
    [src = {"a": "x"}] the two values are of one kind (both scalars, neither
    absent, neither a map), so the claim has [src]'s value overwrite
    [dst]'s; the code compares the types, [int] and [str], and keeps [1]. *)
Lemma merge_properties_keeps_scalar_of_other_type :
  let dst := [("a", VInt 1)] in
  let src := [("a", VStr "x")] in
  kind_of (dict_get dst "a") = kind_of (dict_get src "a")
  /\ claimed_merge_entry (dict_get dst "a") (dict_get src "a") = VStr "x"
  /\ dict_get (Utils.merge_properties dst src) "a" = VInt 1
  /\ dict_get (Utils.merge_properties dst src) "a" <>
     claimed_merge_entry (dict_get dst "a") (dict_get src "a").
Proof.
  cbv zeta. split; [reflexivity|]. split; [reflexivity|].
  split; [reflexivity|]. discriminate.
Qed.

(** C7, amended: for every pair of dicts [(dst, src)], [merge_properties]
    leaves [dst] equal to [src] when [dst] is empty; otherwise, for each key
    of [src]: when either value is absent, [dst] takes [src]'s value; when
    the types of the two values differ (two scalars of different types
    included), [dst] keeps its value; when both are dicts, they are merged
    recursively; otherwise [src]'s value overwrites [dst]'s.  The keys that
    [src] does not hold keep their values. *)
Theorem merge_properties_by_type (dst src : items) :
  NoDup (map fst src) ->
  (dst = [] -> Utils.merge_properties dst src = src)
  /\ (dst <> [] ->
      (forall key, In key (map fst src) ->
         dict_get (Utils.merge_properties dst src) key =
         let dst_value := dict_get dst key in
         let src_value := dict_get src key in
         if (is_none src_value || is_none dst_value)%bool then src_value
         else if negb (pytype_eqb (type_of src_value) (type_of dst_value))
              then dst_value
              else match dst_value, src_value with
                   | VDict d, VDict s => VDict (Utils.merge_properties d s)
                   | _, _ => src_value
                   end)
      /\ (forall key, ~ In key (map fst src) ->
            dict_get (Utils.merge_properties dst src) key = dict_get dst key)).
Proof.
  intros Hnd. split.
  - intros ->. rewrite merge_properties_unfold. cbn [List.length Z.of_nat Z.eqb].
    rewrite dict_update_fresh; [reflexivity | exact Hnd | intros key _ []].
  - intros Hne. rewrite merge_properties_unfold.
    replace (Z.of_nat (List.length dst) =? 0) with false
      by (destruct dst; [congruence | reflexivity]).
    split.
    + intros key Hin. apply in_map_iff in Hin.
      destruct Hin as [[k v] [Hk Hin]]. cbn [fst] in Hk. subst k.
      rewrite (dict_get_item src key v Hnd Hin).
      apply (merge_loop_item src dst key v Hnd Hin).
    + intros key Hnot. apply merge_loop_other. exact Hnot.
Qed.

Lemma merge_properties_by_type_witness :
  Utils.merge_properties [] [("a", VStr "x"); ("b", VInt 2)] =
    [("a", VStr "x"); ("b", VInt 2)]
  /\ dict_get
       (Utils.merge_properties
          [("a", VDict [("p", VInt 1); ("q", VInt 2)]); ("n", VInt 1)]
          [("a", VDict [("q", VInt 9)]); ("n", VStr "x")]) "a" =
     VDict [("p", VInt 1); ("q", VInt 9)]
  /\ dict_get
       (Utils.merge_properties
          [("a", VDict [("p", VInt 1); ("q", VInt 2)]); ("n", VInt 1)]
          [("a", VDict [("q", VInt 9)]); ("n", VStr "x")]) "n" = VInt 1.
Proof.
  assert (Hnd2 : forall (a b : string) , a <> b -> NoDup [a; b]).
  { intros a b Hab. constructor; [intros [Heq | []]; congruence|].
    constructor; [intros []|constructor]. }
  split; [|split].
  - apply (merge_properties_by_type [] [("a", VStr "x"); ("b", VInt 2)]).
    + apply Hnd2. discriminate.
    + reflexivity.
  - destruct (merge_properties_by_type
                [("a", VDict [("p", VInt 1); ("q", VInt 2)]); ("n", VInt 1)]
                [("a", VDict [("q", VInt 9)]); ("n", VStr "x")])
      as [_ Hkeys]; [apply Hnd2; discriminate|].
    destruct Hkeys as [Hkey _]; [discriminate|].
    apply (Hkey "a"). left. reflexivity.
  - destruct (merge_properties_by_type
                [("a", VDict [("p", VInt 1); ("q", VInt 2)]); ("n", VInt 1)]
                [("a", VDict [("q", VInt 9)]); ("n", VStr "x")])
      as [_ Hkeys]; [apply Hnd2; discriminate|].
    destruct Hkeys as [Hkey _]; [discriminate|].
    apply (Hkey "n"). right. left. reflexivity.
Defined.

(* ================================================================== *)
(** * [IniReader.read] *)
(* ================================================================== *)

Section IniReader.

Lemma dict_set_forallb (p : pyvalue -> bool) (d : items) (key : string) (v : pyvalue) :
  forallb (fun kv => p (snd kv)) d = true -> p v = true ->
  forallb (fun kv => p (snd kv)) (dict_set d key v) = true.
Proof.
  intros Hd Hv.
  induction d as [|[k w] rest IH]; cbn [dict_set Assoc.set forallb snd].
  - rewrite Hv. reflexivity.
  - cbn [forallb snd] in Hd. apply andb_prop in Hd. destruct Hd as [Hw Hrest].
    destruct (String.eqb k key); cbn [forallb snd].
    + rewrite Hv, Hrest. reflexivity.
    + rewrite Hw. apply IH. exact Hrest.
Qed.

(** A loop of assignments [d[key x] = value x] keeps what holds of every
    value. *)
Lemma fold_dict_set_forallb {A : Type} (p : pyvalue -> bool)
    (key : A -> string) (val : A -> pyvalue) (xs : list A) (d : items) :
  forallb (fun kv => p (snd kv)) d = true ->
  (forall x, p (val x) = true) ->
  forallb (fun kv => p (snd kv))
          (fold_left (fun d x => dict_set d (key x) (val x)) xs d) = true.
Proof.
  intros Hd Hval. revert d Hd.
  induction xs as [|x xs IH]; intros d Hd; [exact Hd|].
  cbn [fold_left]. apply IH. apply dict_set_forallb; [exact Hd | apply Hval].
Qed.

(** The keys of a dict after a loop of assignments. *)
Lemma dict_set_names (d : items) (key : string) (v : pyvalue) (k : string) :
  In k (map fst (dict_set d key v)) <-> k = key \/ In k (map fst d).
Proof.
  induction d as [|[k0 w] rest IH]; cbn [dict_set Assoc.set map fst In].
  - split; [intros [H | []]; left; symmetry; exact H
           | intros [H | []]; left; symmetry; exact H].
  - destruct (String.eqb k0 key) eqn:Hk; cbn [map fst In].
    + apply String.eqb_eq in Hk. subst k0. split.
      * intros [H | H]; [left; symmetry; exact H | right; right; exact H].
      * intros [H | [H | H]]; [left; symmetry; exact H | left; exact H | right; exact H].
    + change (Assoc.set String.eqb rest key v) with (dict_set rest key v).
      rewrite IH. split.
      * intros [H | [H | H]]; [right; left; exact H | left; exact H
                                | right; right; exact H].
      * intros [H | [H | H]]; [right; left; exact H | left; exact H
                                | right; right; exact H].
Qed.

Lemma fold_dict_set_names {A : Type} (key : A -> string) (val : A -> pyvalue)
    (xs : list A) (d : items) (k : string) :
  In k (map fst (fold_left (fun d x => dict_set d (key x) (val x)) xs d)) <->
  In k (map key xs) \/ In k (map fst d).
Proof.
  revert d. induction xs as [|x xs IH]; intros d; cbn [fold_left map In].
  - split; [intros H; right; exact H | intros [[] | H]; exact H].
  - rewrite IH, dict_set_names. split.
    + intros [H | [H | H]]; [left; right; exact H | left; left; symmetry; exact H
                              | right; exact H].
    + intros [[H | H] | H]; [right; left; symmetry; exact H | left; exact H
                              | right; right; exact H].
Qed.

End IniReader.

(** C3, as the claim states it, fails: what [IniReader.read] returns for
    the one-section stream of [app.ini] is no Case-Insensitive Map, at
    either level: it is a built-in dict of built-in dicts, in which the
    section [Server] is not found under the name [server]. *)
Lemma ini_reader_result_is_not_case_insensitive :
  exists data,
    Readers.IniReader_read ini_host (Some ini_text) = Ok data
    /\ two_level_case_insensitive_map data = false
    /\ isinstance_IgnoreCaseDict data = false
    /\ isinstance_IgnoreCaseDict (mapping_get data "Server") = false
    /\ mapping_get data "Server" = VDict [("port", VStr "8080")]
    /\ mapping_get data "server" = VNone.
Proof.
  exists (VDict [("Server", VDict [("port", VStr "8080")])]).
  repeat split.
Qed.

(** C3, amended: for every stream that the parser reads, [IniReader.read]
    returns a two-level built-in dict, section name to option name to the
    raw string of the parser, with no coercion; it holds one entry for each
    section of the parser and nothing else.  The dicts are not
    Case-Insensitive Maps.  When the parser rejects the stream its
    exception is the reader's, and without a stream the reader raises
    [ValueError]. *)
Theorem ini_reader_returns_plain_dict :
  (forall host text parser,
      configparser_read host text = Ok parser ->
      exists data,
        Readers.IniReader_read host (Some text) = Ok (VDict data)
        /\ two_level_dict (VDict data) = true
        /\ two_level_raw_strings (VDict data) = true
        /\ two_level_case_insensitive_map (VDict data) = false
        /\ (forall section, In section (map fst data) <-> In section (sections parser)))
  /\ (forall host text e,
         configparser_read host text = Raise e ->
         Readers.IniReader_read host (Some text) = Raise e)
  /\ (forall host,
         Readers.IniReader_read host None = Raise (ValueError "stream cannot be None")).
Proof.
  split; [|split].
  - intros host text parser Hparser. unfold Readers.IniReader_read.
    rewrite Hparser. cbn [rbind]. eexists. split; [reflexivity|].
    split; [|split; [|split; [reflexivity|]]].
    + cbn [two_level_dict].
      apply (fold_dict_set_forallb
               (fun v => match v with
                         | VDict options => raw_strings options
                         | _ => false
                         end)
               (fun section => section)
               (fun section =>
                  VDict (fold_left
                           (fun data_section option =>
                              dict_set data_section option
                                (VStr (get_option_raw parser section option)))
                           (options parser section) []))).
      * reflexivity.
      * intros section. unfold raw_strings.
        apply (fold_dict_set_forallb isinstance_str (fun option => option)
                 (fun option => VStr (get_option_raw parser section option)));
          reflexivity.
    + cbn [two_level_raw_strings].
      apply (fold_dict_set_forallb section_of_raw_strings (fun section => section)
               (fun section =>
                  VDict (fold_left
                           (fun data_section option =>
                              dict_set data_section option
                                (VStr (get_option_raw parser section option)))
                           (options parser section) []))).
      * reflexivity.
      * intros section. cbn [section_of_raw_strings]. unfold raw_strings.
        apply (fold_dict_set_forallb isinstance_str (fun option => option)
                 (fun option => VStr (get_option_raw parser section option)));
          reflexivity.
    + intros section. rewrite fold_dict_set_names, map_id. cbn [map fst In]. tauto.
  - intros host text e Hparser. unfold Readers.IniReader_read.
    rewrite Hparser. reflexivity.
  - reflexivity.
Qed.

Lemma ini_reader_returns_plain_dict_witness :
  exists data,
    Readers.IniReader_read ini_host (Some ini_text) = Ok (VDict data)
    /\ two_level_dict (VDict data) = true
    /\ (In "Server" (map fst data) <-> In "Server" (sections ini_parser)).
Proof.
  destruct ini_reader_returns_plain_dict as [Hshape _].
  destruct (Hshape ini_host ini_text ini_parser eq_refl)
    as [data [Hread [Hdict [_ [_ Hsections]]]]].
  exists data. split; [exact Hread|]. split; [exact Hdict|].
  exact (Hsections "Server").
Defined.

(* ================================================================== *)
(** * [UrlConfig]: the reader and the encoding of a response *)
(* ================================================================== *)

Section UrlReader.

Lemma after_last_absent (c : ascii) (s : string) :
  PyStr.contains c s = false -> after_last (fun a => Ascii.eqb a c) s = None.
Proof.
  induction s as [|a s IH]; [reflexivity|].
  cbn [PyStr.contains after_last]. intros H.
  apply orb_false_iff in H. destruct H as [Ha Hs].
  rewrite (IH Hs), Ha. reflexivity.
Qed.

Lemma split_two_parts (c : ascii) (s : string) :
  PyStr.contains c s = true -> exists h x t, PyStr.split c s = h :: x :: t.
Proof.
  induction s as [|a s IH]; [discriminate|].
  cbn [PyStr.contains PyStr.split]. intros H.
  destruct (Ascii.eqb a c) eqn:Hac.
  - pose proof (split_not_nil c s) as Hne.
    destruct (PyStr.split c s) as [|x t]; [congruence|]. eauto.
  - cbn [orb] in H. destruct (IH H) as [h [x [t Heq]]].
    rewrite Heq. eauto.
Qed.

(** [s.split(c)[-1]] is what follows the last [c] of [s]. *)
Lemma last_split_after_last (c : ascii) (s : string) :
  PyStr.contains c s = true ->
  after_last (fun a => Ascii.eqb a c) s = Some (PyStr.last (PyStr.split c s)).
Proof.
  induction s as [|a s IH]; [discriminate|].
  intros H. cbn [after_last].
  destruct (PyStr.contains c s) eqn:Hs.
  - rewrite (IH eq_refl). f_equal.
    destruct (split_two_parts c s Hs) as [h [x [t Heq]]].
    cbn [PyStr.split]. rewrite Heq.
    destruct (Ascii.eqb a c); reflexivity.
  - rewrite (after_last_absent c s Hs).
    cbn [PyStr.contains] in H. rewrite Hs, orb_false_r in H. rewrite H.
    cbn [PyStr.split]. rewrite H, (split_no_sep c s Hs). reflexivity.
Qed.



Lemma first_split_or_whole (ct : string) :
  (if PyStr.contains ";" ct then PyStr.first (PyStr.split ";" ct) else ct) =
  without_parameters ct.
Proof.
  unfold without_parameters.
  destruct (PyStr.contains ";" ct) eqn:H; [reflexivity|].
  rewrite (split_no_sep _ _ H). reflexivity.
Qed.

(** The name [_get_reader] takes from a content type. *)
Lemma content_type_names_priority (ct : string) :
  PyStr.truthy ct = true ->
  UrlConfig.content_type_names (Some ct) =
  (Some (without_parameters ct), name_list (subtype_by_priority ct)).
Proof.
  intros Htruthy. unfold UrlConfig.content_type_names, subtype_by_priority.
  rewrite Htruthy, first_split_or_whole.
  set (s := without_parameters ct). f_equal.
  destruct (PyStr.contains "." s) eqn:Hdot.
  { rewrite (last_split_after_last _ _ Hdot). reflexivity. }
  rewrite (after_last_absent _ _ Hdot).
  destruct (PyStr.contains "-" s) eqn:Hdash.
  { rewrite (last_split_after_last _ _ Hdash). reflexivity. }
  rewrite (after_last_absent _ _ Hdash).
  destruct (PyStr.contains "/" s) eqn:Hslash.
  { rewrite (last_split_after_last _ _ Hslash). reflexivity. }
  rewrite (after_last_absent _ _ Hslash). reflexivity.
Qed.

















End UrlReader.




(* ================================================================== *)
(** * [load] assigns the backing data as its last step *)
(* ================================================================== *)

Section ReadOnly.
Context {S : Type}.

Lemma readonly_ret {A} (a : A) : readonly (@StateM.ret S A a).
Proof. intros s s' r H. inversion H. reflexivity. Qed.

Lemma readonly_raise {A} (e : exn) : readonly (@StateM.raise S A e).
Proof. intros s s' r H. inversion H. reflexivity. Qed.

Lemma readonly_lift {A} (x : result A) : readonly (@StateM.lift S A x).
Proof. intros s s' r H. inversion H. reflexivity. Qed.

Lemma readonly_gets {A} (f : S -> A) : readonly (StateM.gets f).
Proof. intros s s' r H. inversion H. reflexivity. Qed.

Lemma readonly_unfinished {A} : readonly (@StateM.unfinished S A).
Proof. intros s s' r H. discriminate H. Qed.





End ReadOnly.

Create HintDb readonly.
#[export] Hint Resolve readonly_ret readonly_raise readonly_lift readonly_gets
  readonly_unfinished : readonly.


Section Loaders.


















End Loaders.



(* ================================================================== *)
(** * [MergeConfig.load] without children *)
(* ================================================================== *)

(** C10: for every [MergeConfig] built over no child, [load()] returns (the
    map it has just built) before the assignment to the backing data: the
    object is after the call what it was before, backing data (the empty map
    of the constructor), children, lookup, decoder and interpolator. *)
Theorem merge_config_without_children_keeps_data :
  (forall (C : Type) (HC : Config C) (merge_dict : merge_dict_t)
          (base : BaseDataConfig),
      let self := {| merge_base := base; merge_configs := @nil C |} in
      MergeConfig.load merge_dict self =
      Some (self, Ok (VIgnoreCaseDict IgnoreCaseDict.empty)))
  /\ (forall (C : Type) (HC : Config C) (merge_dict : merge_dict_t)
             self_id decoder interpolator,
         let self := @MergeConfig.init C self_id decoder interpolator [] in
         MergeConfig.load merge_dict self =
         Some (self, Ok (VIgnoreCaseDict IgnoreCaseDict.empty))
         /\ _data (merge_base self) = VIgnoreCaseDict IgnoreCaseDict.empty).
Proof.
  split.
  - intros C HC merge_dict base self. reflexivity.
  - intros C HC merge_dict self_id decoder interpolator self.
    split; reflexivity.
Qed.

(* ================================================================== *)
(** * [ReloadConfig] *)
(* ================================================================== *)

Section Reload.
Context {E : Type}.
Variable delegate_load : M E unit.

Lemma reload_load_first (rc rc' : ReloadConfig E) :
  _loaded rc = false ->
  ReloadConfig.load delegate_load rc = Some (rc', Ok tt) ->
  scheduled (_scheduler rc') = (scheduled (_scheduler rc) ++ [reload_method])%list
  /\ _loaded rc' = true
  /\ delegate_load (world rc) = Some (world rc', Ok tt).
Proof.
  intros Hfresh. unfold ReloadConfig.load, StateM.bind, ReloadConfig.in_world.
  destruct (delegate_load (world rc)) as [[w [[]|e]]|]; try discriminate.
  cbn [StateM.gets ReloadConfig.set_world _loaded]. rewrite Hfresh. cbn.
  intros H. inversion H; subst. cbn. auto.
Qed.

Lemma reload_load_again (rc rc' : ReloadConfig E) :
  _loaded rc = true ->
  ReloadConfig.load delegate_load rc = Some (rc', Ok tt) ->
  _scheduler rc' = _scheduler rc
  /\ _loaded rc' = true
  /\ delegate_load (world rc) = Some (world rc', Ok tt).
Proof.
  intros Hloaded. unfold ReloadConfig.load, StateM.bind, ReloadConfig.in_world.
  destruct (delegate_load (world rc)) as [[w [[]|e]]|]; try discriminate.
  cbn [StateM.gets ReloadConfig.set_world _loaded]. rewrite Hloaded. cbn.
  intros H. inversion H; subst. cbn. auto.
Qed.

Lemma reload_load_raises (rc rc' : ReloadConfig E) (e : exn) :
  ReloadConfig.load delegate_load rc = Some (rc', Raise e) ->
  _scheduler rc' = _scheduler rc /\ _loaded rc' = _loaded rc
  /\ delegate_load (world rc) = Some (world rc', Raise e).
Proof.
  unfold ReloadConfig.load, StateM.bind, ReloadConfig.in_world.
  destruct (delegate_load (world rc)) as [[w [[]|e']]|]; try discriminate.
  - cbn [StateM.gets ReloadConfig.set_world _loaded].
    destruct (_loaded rc); cbn; discriminate.
  - intros H. inversion H; subst. cbn. auto.
Qed.

(** Once loaded, any number of calls that return leave the scheduler
    alone. *)
Lemma reload_load_times_again (n : nat) (rc rc' : ReloadConfig E) :
  _loaded rc = true ->
  ReloadConfig.load_times delegate_load n rc = Some (rc', Ok tt) ->
  _scheduler rc' = _scheduler rc /\ _loaded rc' = true.
Proof.
  revert rc. induction n as [|n IH]; intros rc Hloaded.
  - cbn. intros H. inversion H; subst. auto.
  - cbn [ReloadConfig.load_times]. unfold StateM.bind at 1.
    destruct (ReloadConfig.load delegate_load rc) as [[rc1 [[]|e]]|] eqn:Hload;
      try discriminate.
    destruct (reload_load_again rc rc1 Hloaded Hload) as [Hs [Hl _]].
    intros H. destruct (IH rc1 Hl H) as [Hs' Hl'].
    split; [congruence | exact Hl'].
Qed.

Lemma reload_load_times_first (n : nat) (rc rc' : ReloadConfig E) :
  _loaded rc = false ->
  ReloadConfig.load_times delegate_load (S n) rc = Some (rc', Ok tt) ->
  scheduled (_scheduler rc') = (scheduled (_scheduler rc) ++ [reload_method])%list
  /\ _loaded rc' = true.
Proof.
  intros Hfresh. cbn [ReloadConfig.load_times]. unfold StateM.bind at 1.
  destruct (ReloadConfig.load delegate_load rc) as [[rc1 [[]|e]]|] eqn:Hload;
    try discriminate.
  destruct (reload_load_first rc rc1 Hfresh Hload) as [Hs [Hl _]].
  intros H. destruct (reload_load_times_again n rc1 rc' Hl H) as [Hs' Hl'].
  split; [congruence | exact Hl'].
Qed.

(** The tasks of the scheduler are those it had before the wrapper, and
    [_reload] once the wrapper is loaded: every call of [load()] keeps
    that, however it ends. *)
Lemma reload_load_invariant (before : list task) (rc rc' : ReloadConfig E)
    (r : result unit) :
  scheduled (_scheduler rc) =
    (before ++ if _loaded rc then [reload_method] else [])%list ->
  ReloadConfig.load delegate_load rc = Some (rc', r) ->
  scheduled (_scheduler rc') =
    (before ++ if _loaded rc' then [reload_method] else [])%list.
Proof.
  intros Hinv Hload. destruct r as [[]|e].
  - destruct (_loaded rc) eqn:Hl.
    + destruct (reload_load_again rc rc' Hl Hload) as [Hs [Hl' _]].
      rewrite Hs, Hl'. exact Hinv.
    + destruct (reload_load_first rc rc' Hl Hload) as [Hs [Hl' _]].
      rewrite Hs, Hl', Hinv, app_nil_r. reflexivity.
  - destruct (reload_load_raises rc rc' e Hload) as [Hs [Hl' _]].
    rewrite Hs, Hl'. exact Hinv.
Qed.

Lemma reload_load_attempts_invariant (n : nat) (before : list task)
    (rc rc' : ReloadConfig E) (r : result unit) :
  scheduled (_scheduler rc) =
    (before ++ if _loaded rc then [reload_method] else [])%list ->
  ReloadConfig.load_attempts delegate_load n rc = Some (rc', r) ->
  scheduled (_scheduler rc') =
    (before ++ if _loaded rc' then [reload_method] else [])%list.
Proof.
  revert rc. induction n as [|n IH]; intros rc Hinv.
  - cbn. intros H. inversion H; subst. exact Hinv.
  - cbn [ReloadConfig.load_attempts]. unfold StateM.bind at 1, StateM.try_except.
    destruct (ReloadConfig.load delegate_load rc) as [[rc1 r1]|] eqn:Hload;
      [|discriminate].
    pose proof (reload_load_invariant before rc rc1 r1 Hinv Hload) as Hinv1.
    destruct r1 as [[]|e]; cbn [StateM.ret]; apply IH; exact Hinv1.
Qed.

(** What [_reload] does, case by case. *)
Lemma reload_unfold (rc : ReloadConfig E) :
  ReloadConfig._reload delegate_load rc =
  match delegate_load (world rc) with
  | None => None
  | Some (w, loaded) =>
      let rc1 := ReloadConfig.set_world w rc in
      let rc2 := match loaded with
                 | Ok _ => rc1
                 | Raise _ => ReloadConfig.log_warning "Unable to load config" rc1
                 end in
      match EventHandler.call (_updated rc) w with
      | None => None
      | Some (w', Ok _) => Some (ReloadConfig.set_world w' rc2, Ok tt)
      | Some (w', Raise _) =>
          Some (ReloadConfig.log_warning "Error calling updated event"
                  (ReloadConfig.set_world w' rc2), Ok tt)
      end
  end.
Proof.
  unfold ReloadConfig._reload, StateM.bind, StateM.try_except, ReloadConfig.in_world.
  destruct (delegate_load (world rc)) as [[w [[]|e]]|]; [| |reflexivity]; cbn;
    destruct (EventHandler.call (_updated rc) w) as [[w' [rs|e']]|]; reflexivity.
Qed.

Lemma reload_never_raises (rc rc' : ReloadConfig E) (r : result unit) :
  ReloadConfig._reload delegate_load rc = Some (rc', r) ->
  r = Ok tt /\ _scheduler rc' = _scheduler rc /\ _loaded rc' = _loaded rc.
Proof.
  rewrite reload_unfold.
  destruct (delegate_load (world rc)) as [[w [[]|e]]|]; [| |discriminate]; cbv zeta;
    destruct (EventHandler.call (_updated rc) w) as [[w' [rs|e']]|];
    try discriminate; intros H; inversion H; subst; cbn; auto.
Qed.

Lemma run_periodically_reload (ticks : nat) (rc rc' : ReloadConfig E) (r : result nat) :
  run_periodically ticks (ReloadConfig._reload delegate_load) rc = Some (rc', r) ->
  r = Ok ticks.
Proof.
  revert rc rc' r. induction ticks as [|ticks IH]; intros rc rc' r.
  - cbn. intros H. inversion H. reflexivity.
  - cbn [run_periodically].
    destruct (ReloadConfig._reload delegate_load rc) as [[rc1 r1]|] eqn:Hr;
      [|discriminate].
    destruct (reload_never_raises rc rc1 r1 Hr) as [-> _].
    destruct (run_periodically ticks (ReloadConfig._reload delegate_load) rc1)
      as [[rc2 r2]|] eqn:Hrest; [|discriminate].
    rewrite (IH rc1 rc2 r2 Hrest).
    intros H. inversion H. reflexivity.
Qed.

End Reload.

(** C4: for every [ReloadConfig], whatever its delegate and its
    subscribers do: the first [load()] that returns hands [_reload] to the
    scheduler and sets the loaded flag; a later [load()] reloads the
    delegate and leaves the scheduler alone; so after any number (at least
    one) of calls that return, the instance has registered exactly one task.
    A [load()] whose delegate raises propagates and registers nothing, so
    that over any calls, failed ones included, the instance has registered
    one task if it is loaded and none if it is not.  The
    periodic callback [_reload] reloads the delegate and then fires the
    update event, once, on the world the reload left, whether the reload
    returned or raised; it never raises: a failure of the delegate's
    [load()] is logged, and so is a failure of a subscriber; and a
    periodic execution that would end at the first exception of its
    callback runs [_reload] at every tick. *)
Theorem reload_schedules_once_and_survives_failures :
  forall (E : Type) (delegate_load : M E unit),
    (forall rc rc',
        _loaded rc = false ->
        ReloadConfig.load delegate_load rc = Some (rc', Ok tt) ->
        scheduled (_scheduler rc') =
          (scheduled (_scheduler rc) ++ [reload_method])%list
        /\ _loaded rc' = true
        /\ delegate_load (world rc) = Some (world rc', Ok tt))
    /\ (forall rc rc',
           _loaded rc = true ->
           ReloadConfig.load delegate_load rc = Some (rc', Ok tt) ->
           _scheduler rc' = _scheduler rc
           /\ _loaded rc' = true
           /\ delegate_load (world rc) = Some (world rc', Ok tt))
    /\ (forall n rc rc',
           _loaded rc = false ->
           ReloadConfig.load_times delegate_load (S n) rc = Some (rc', Ok tt) ->
           scheduled (_scheduler rc') =
             (scheduled (_scheduler rc) ++ [reload_method])%list
           /\ _loaded rc' = true)
    /\ (forall rc rc' e,
           ReloadConfig.load delegate_load rc = Some (rc', Raise e) ->
           _scheduler rc' = _scheduler rc /\ _loaded rc' = _loaded rc
           /\ delegate_load (world rc) = Some (world rc', Raise e))
    /\ (forall rc rc' r,
           ReloadConfig._reload delegate_load rc = Some (rc', r) ->
           r = Ok tt /\ _scheduler rc' = _scheduler rc /\ _loaded rc' = _loaded rc)
    /\ (forall rc w e,
           delegate_load (world rc) = Some (w, Raise e) ->
           ReloadConfig._reload delegate_load rc =
           match EventHandler.call (_updated rc) w with
           | None => None
           | Some (w', Ok _) =>
               Some (ReloadConfig.set_world w'
                       (ReloadConfig.log_warning "Unable to load config"
                          (ReloadConfig.set_world w rc)), Ok tt)
           | Some (w', Raise _) =>
               Some (ReloadConfig.log_warning "Error calling updated event"
                       (ReloadConfig.set_world w'
                          (ReloadConfig.log_warning "Unable to load config"
                             (ReloadConfig.set_world w rc))), Ok tt)
           end)
    /\ (forall ticks rc rc' r,
           run_periodically ticks (ReloadConfig._reload delegate_load) rc =
             Some (rc', r) ->
           r = Ok ticks)
    /\ (forall n rc rc' r,
           _loaded rc = false ->
           ReloadConfig.load_attempts delegate_load n rc = Some (rc', r) ->
           scheduled (_scheduler rc') =
             (scheduled (_scheduler rc)
                ++ if _loaded rc' then [reload_method] else [])%list)
    /\ (forall rc,
           ReloadConfig._reload delegate_load rc =
           match delegate_load (world rc) with
           | None => None
           | Some (w, loaded) =>
               let rc1 := ReloadConfig.set_world w rc in
               let rc2 := match loaded with
                          | Ok _ => rc1
                          | Raise _ =>
                              ReloadConfig.log_warning "Unable to load config" rc1
                          end in
               match EventHandler.call (_updated rc) w with
               | None => None
               | Some (w', Ok _) => Some (ReloadConfig.set_world w' rc2, Ok tt)
               | Some (w', Raise _) =>
                   Some (ReloadConfig.log_warning "Error calling updated event"
                           (ReloadConfig.set_world w' rc2), Ok tt)
               end
           end)
    /\ (forall rc w,
           delegate_load (world rc) = Some (w, Ok tt) ->
           ReloadConfig._reload delegate_load rc =
           match EventHandler.call (_updated rc) w with
           | None => None
           | Some (w', Ok _) => Some (ReloadConfig.set_world w' rc, Ok tt)
           | Some (w', Raise _) =>
               Some (ReloadConfig.log_warning "Error calling updated event"
                       (ReloadConfig.set_world w' rc), Ok tt)
           end).
Proof.
  intros E delegate_load.
  split; [exact (reload_load_first delegate_load)|].
  split; [exact (reload_load_again delegate_load)|].
  split; [exact (reload_load_times_first delegate_load)|].
  split; [exact (reload_load_raises delegate_load)|].
  split; [exact (reload_never_raises delegate_load)|].
  split; [intros rc w e Hload; rewrite reload_unfold, Hload; reflexivity|].
  split; [exact (run_periodically_reload delegate_load)|].
  split; [|split].
  - intros n rc rc' r Hfresh.
    apply (reload_load_attempts_invariant delegate_load n).
    rewrite Hfresh, app_nil_r. reflexivity.
  - exact (reload_unfold delegate_load).
  - intros rc w Hload. rewrite reload_unfold, Hload. cbv zeta.
    destruct (EventHandler.call (_updated rc) w) as [[w' [rs|e]]|]; reflexivity.
Qed.

Lemma reload_schedules_once_and_survives_failures_witness :
  (exists rc',
      ReloadConfig.load_times load_ok 3 (fresh_reload [subscriber_ok]) =
        Some (rc', Ok tt)
      /\ scheduled (_scheduler rc') = [reload_method]
      /\ world rc' = ["load"; "load"; "load"])
  /\ (exists rc' e,
         ReloadConfig.load load_fails (fresh_reload [subscriber_ok]) =
           Some (rc', Raise e)
         /\ _scheduler rc' = {| scheduled := [] |})
  /\ (exists rc',
         ReloadConfig._reload load_fails (fresh_reload [subscriber_ok; subscriber_fails])
           = Some (rc', Ok tt)
         /\ world rc' = ["load"; "notified"; "subscriber"]
         /\ warnings rc' = ["Unable to load config"; "Error calling updated event"])
  /\ (exists rc',
         run_periodically 4 (ReloadConfig._reload load_fails)
           (fresh_reload [subscriber_fails]) = Some (rc', Ok 4%nat))
  /\ (exists rc',
         ReloadConfig.load_attempts load_fails 3 (fresh_reload []) = Some (rc', Ok tt)
         /\ scheduled (_scheduler rc') = [])
  /\ (exists rc',
         ReloadConfig._reload load_ok (fresh_reload [subscriber_ok; subscriber_ok])
           = Some (rc', Ok tt)
         /\ world rc' = ["load"; "notified"; "notified"]
         /\ warnings rc' = [])
  /\ (exists rc',
         ReloadConfig._reload load_ok (fresh_reload [subscriber_fails; subscriber_ok])
           = Some (rc', Ok tt)
         /\ world rc' = ["load"; "subscriber"]
         /\ warnings rc' = ["Error calling updated event"]).
Proof.
  destruct (reload_schedules_once_and_survives_failures (list string) load_ok)
    as [_ [_ [Htimes [_ [_ [_ [_ [_ [_ Hreloaded]]]]]]]]].
  destruct (reload_schedules_once_and_survives_failures (list string) load_fails)
    as [_ [_ [_ [Hraises [Hnever [Hfires [Hticks [Hattempts _]]]]]]]].
  split; [|split; [|split; [|split; [|split; [|split]]]]].
  - eexists.
    assert (Hrun : ReloadConfig.load_times load_ok 3 (fresh_reload [subscriber_ok]) =
                   Some ({| _scheduler := {| scheduled := [reload_method] |};
                            _loaded := true;
                            _updated := {| _callbacks := [subscriber_ok] |};
                            world := ["load"; "load"; "load"];
                            warnings := [] |}, Ok tt))
      by reflexivity.
    split; [exact Hrun|]. split; [|reflexivity].
    exact (proj1 (Htimes 2%nat (fresh_reload [subscriber_ok]) _ eq_refl Hrun)).
  - eexists; eexists.
    assert (Hrun : ReloadConfig.load load_fails (fresh_reload [subscriber_ok]) =
                   Some (ReloadConfig.set_world ["load"] (fresh_reload [subscriber_ok]),
                         Raise (IOError "source is down")))
      by reflexivity.
    split; [exact Hrun|].
    exact (proj1 (Hraises _ _ _ Hrun)).
  - eexists. split.
    + etransitivity;
        [exact (Hfires (fresh_reload [subscriber_ok; subscriber_fails]) ["load"]
                  (IOError "source is down") eq_refl) | reflexivity].
    + split; reflexivity.
  - assert (Hrun : run_periodically 4 (ReloadConfig._reload load_fails)
                     (fresh_reload [subscriber_fails]) =
                   Some ({| _scheduler := {| scheduled := [] |};
                            _loaded := false;
                            _updated := {| _callbacks := [subscriber_fails] |};
                            world := ["load"; "subscriber"; "load"; "subscriber";
                                      "load"; "subscriber"; "load"; "subscriber"];
                            warnings :=
                              ["Unable to load config"; "Error calling updated event";
                               "Unable to load config"; "Error calling updated event";
                               "Unable to load config"; "Error calling updated event";
                               "Unable to load config"; "Error calling updated event"]
                         |}, Ok 4%nat))
      by (vm_compute; reflexivity).
    eexists. generalize (Hticks 4%nat _ _ _ Hrun). intros _. exact Hrun.
  - eexists.
    assert (Hrun : ReloadConfig.load_attempts load_fails 3 (fresh_reload []) =
                   Some (ReloadConfig.set_world ["load"; "load"; "load"]
                           (fresh_reload []), Ok tt))
      by reflexivity.
    split; [exact Hrun|].
    exact (Hattempts 3%nat (fresh_reload []) _ _ eq_refl Hrun).
  - eexists. split.
    + etransitivity;
        [exact (Hreloaded (fresh_reload [subscriber_ok; subscriber_ok]) ["load"]
                  eq_refl) | reflexivity].
    + split; reflexivity.
  - eexists. split.
    + etransitivity;
        [exact (Hreloaded (fresh_reload [subscriber_fails; subscriber_ok]) ["load"]
                  eq_refl) | reflexivity].
    + split; reflexivity.
Defined.

(* ================================================================== *)
(** * The registry of readers *)
(* ================================================================== *)

Section Registry.

Lemma get_reader_add_same (reg : registry) (name : string) (cls : reader) :
  Readers.get_reader (Readers.add_reader reg name cls) name = Some cls.
Proof.
  induction reg as [|[k c] rest IH]; cbn [Readers.add_reader Readers.get_reader].
  - rewrite String.eqb_refl. reflexivity.
  - destruct (String.eqb k name) eqn:Hk; cbn [Readers.get_reader]; rewrite Hk;
      [reflexivity | exact IH].
Qed.

Lemma get_reader_add_other (reg : registry) (name name' : string) (cls : reader) :
  name <> name' ->
  Readers.get_reader (Readers.add_reader reg name cls) name' =
  Readers.get_reader reg name'.
Proof.
  intros Hne.
  induction reg as [|[k c] rest IH]; cbn [Readers.add_reader Readers.get_reader].
  - replace (String.eqb name name') with false
      by (symmetry; apply String.eqb_neq; exact Hne).
    reflexivity.
  - destruct (String.eqb k name) eqn:Hk; cbn [Readers.get_reader].
    + apply String.eqb_eq in Hk. subst k.
      replace (String.eqb name name') with false
        by (symmetry; apply String.eqb_neq; exact Hne).
      reflexivity.
    + destruct (String.eqb k name'); [reflexivity | exact IH].
Qed.

Lemma add_reader_names (reg : registry) (name : string) (cls : reader) :
  map fst (Readers.add_reader reg name cls) =
  match Readers.get_reader reg name with
  | Some _ => map fst reg
  | None => (map fst reg ++ [name])%list
  end.
Proof.
  induction reg as [|[k c] rest IH]; cbn [Readers.add_reader Readers.get_reader];
    [reflexivity|].
  destruct (String.eqb k name); [reflexivity|].
  cbn [map fst]. rewrite IH.
  destruct (Readers.get_reader rest name); reflexivity.
Qed.

Lemma get_reader_none_not_in (reg : registry) (name : string) :
  Readers.get_reader reg name = None <-> ~ In name (map fst reg).
Proof.
  induction reg as [|[k c] rest IH]; cbn [Readers.get_reader map fst In].
  - split; [intros _ [] | reflexivity].
  - destruct (String.eqb k name) eqn:Hk.
    + apply String.eqb_eq in Hk. subst k. split; [discriminate|].
      intros Hnot. exfalso. apply Hnot. left. reflexivity.
    + apply String.eqb_neq in Hk. rewrite IH. split.
      * intros Hnot [Heq | Hin]; [exact (Hk Heq) | exact (Hnot Hin)].
      * intros Hnot Hin. apply Hnot. right. exact Hin.
Qed.

Lemma remove_reader_fst (reg : registry) (name : string) :
  fst (Readers.remove_reader reg name) = Readers.get_reader reg name.
Proof.
  induction reg as [|[k c] rest IH]; cbn [Readers.remove_reader Readers.get_reader];
    [reflexivity|].
  destruct (String.eqb k name); [reflexivity|].
  destruct (Readers.remove_reader rest name). exact IH.
Qed.

Lemma remove_reader_unregistered (reg : registry) (name : string) :
  Readers.get_reader reg name = None -> snd (Readers.remove_reader reg name) = reg.
Proof.
  induction reg as [|[k c] rest IH]; cbn [Readers.remove_reader Readers.get_reader];
    [reflexivity|].
  destruct (String.eqb k name); [discriminate|].
  intros Hnone. specialize (IH Hnone).
  destruct (Readers.remove_reader rest name). cbn [snd] in *. rewrite IH. reflexivity.
Qed.

Lemma remove_reader_other (reg : registry) (name name' : string) :
  name <> name' ->
  Readers.get_reader (snd (Readers.remove_reader reg name)) name' =
  Readers.get_reader reg name'.
Proof.
  intros Hne.
  induction reg as [|[k c] rest IH]; cbn [Readers.remove_reader Readers.get_reader];
    [reflexivity|].
  destruct (String.eqb k name) eqn:Hk.
  - apply String.eqb_eq in Hk. subst k. cbn [snd].
    replace (String.eqb name name') with false
      by (symmetry; apply String.eqb_neq; exact Hne).
    reflexivity.
  - destruct (Readers.remove_reader rest name). cbn [snd Readers.get_reader] in *.
    destruct (String.eqb k name'); [reflexivity | exact IH].
Qed.

Lemma remove_reader_names (reg : registry) (name x : string) :
  In x (map fst (snd (Readers.remove_reader reg name))) -> In x (map fst reg).
Proof.
  induction reg as [|[k c] rest IH]; cbn [Readers.remove_reader]; [auto|].
  destruct (String.eqb k name).
  - cbn [snd map fst]. intros Hin. right. exact Hin.
  - destruct (Readers.remove_reader rest name). cbn [snd map fst In] in *.
    intros [Heq | Hin]; [left; exact Heq | right; exact (IH Hin)].
Qed.

Lemma remove_reader_gone (reg : registry) (name : string) :
  NoDup (map fst reg) ->
  Readers.get_reader (snd (Readers.remove_reader reg name)) name = None
  /\ NoDup (map fst (snd (Readers.remove_reader reg name))).
Proof.
  induction reg as [|[k c] rest IH]; cbn [Readers.remove_reader map fst].
  - intros _. split; [reflexivity | constructor].
  - intros Hnd. inversion Hnd as [|? ? Hnot Hrest]; subst.
    destruct (String.eqb k name) eqn:Hk.
    + apply String.eqb_eq in Hk. subst k. cbn [snd].
      split; [apply get_reader_none_not_in; exact Hnot | exact Hrest].
    + destruct (IH Hrest) as [Hgone Hnd'].
      pose proof (remove_reader_names rest name k) as Hsub.
      destruct (Readers.remove_reader rest name). cbn [snd map fst] in *.
      split; [cbn [Readers.get_reader]; rewrite Hk; exact Hgone|].
      constructor; [|exact Hnd'].
      intros Hin. exact (Hnot (Hsub Hin)).
Qed.

End Registry.

(** X1: a reader class registered under a name is what [get_reader]
    returns for that name, in place of any class registered there before;
    the other names keep their classes, and the registry keeps one entry per
    name. *)
Theorem add_reader_then_get_reader (reg : registry) (name : string) (cls : reader) :
  Readers.get_reader (Readers.add_reader reg name cls) name = Some cls
  /\ (forall name', name <> name' ->
        Readers.get_reader (Readers.add_reader reg name cls) name' =
        Readers.get_reader reg name')
  /\ (NoDup (map fst reg) -> NoDup (map fst (Readers.add_reader reg name cls))).
Proof.
  split; [apply get_reader_add_same|].
  split; [intros name'; apply get_reader_add_other|].
  intros Hnd. rewrite add_reader_names.
  destruct (Readers.get_reader reg name) eqn:Hget; [exact Hnd|].
  apply get_reader_none_not_in in Hget.
  apply NoDup_app; [exact Hnd | repeat constructor; intros [] |].
  intros x Hin [Heq | []]. subst x. exact (Hget Hin).
Qed.

Lemma add_reader_then_get_reader_witness :
  Readers.get_reader (Readers.add_reader Readers.initial_registry "json" toml_reader)
    "json" = Some toml_reader
  /\ Readers.get_reader (Readers.add_reader Readers.initial_registry "toml" toml_reader)
       "yaml" = Some YamlReader
  /\ NoDup (map fst (Readers.add_reader Readers.initial_registry "toml" toml_reader)).
Proof.
  destruct (add_reader_then_get_reader Readers.initial_registry "json" toml_reader)
    as [Hsame _].
  destruct (add_reader_then_get_reader Readers.initial_registry "toml" toml_reader)
    as [_ [Hother Hnd]].
  split; [exact Hsame|]. split.
  - etransitivity; [apply (Hother "yaml"); discriminate | reflexivity].
  - apply Hnd. cbn.
    repeat (constructor; [cbn; intuition discriminate|]). constructor.
Defined.

(** X2: [remove_reader] returns the class [get_reader] found under the
    name ([None] for a name that is not registered, the registry being then
    left as it is), the name is not registered afterwards, and the other
    names keep their classes; removing a name just added to a registry that
    did not have it gives that registry back. *)
Theorem remove_reader_undoes_add_reader (reg : registry) (name : string) :
  NoDup (map fst reg) ->
  fst (Readers.remove_reader reg name) = Readers.get_reader reg name
  /\ Readers.get_reader (snd (Readers.remove_reader reg name)) name = None
  /\ (forall name', name <> name' ->
        Readers.get_reader (snd (Readers.remove_reader reg name)) name' =
        Readers.get_reader reg name')
  /\ (Readers.get_reader reg name = None ->
      Readers.remove_reader reg name = (None, reg)
      /\ forall cls,
           Readers.remove_reader (Readers.add_reader reg name cls) name =
           (Some cls, reg)).
Proof.
  intros Hnd.
  split; [apply remove_reader_fst|].
  split; [exact (proj1 (remove_reader_gone reg name Hnd))|].
  split; [intros name'; apply remove_reader_other|].
  intros Hget. split.
  - rewrite (surjective_pairing (Readers.remove_reader reg name)).
    rewrite remove_reader_fst, Hget, (remove_reader_unregistered _ _ Hget).
    reflexivity.
  - intros cls. clear - Hget.
    induction reg as [|[k c] rest IH];
      cbn [Readers.add_reader Readers.remove_reader Readers.get_reader] in *.
    + rewrite String.eqb_refl. reflexivity.
    + destruct (String.eqb k name) eqn:Hk; [discriminate|].
      cbn [Readers.remove_reader]. rewrite Hk, (IH Hget). reflexivity.
Qed.

Lemma remove_reader_undoes_add_reader_witness :
  Readers.remove_reader Readers.initial_registry "toml" =
    (None, Readers.initial_registry)
  /\ Readers.remove_reader
       (Readers.add_reader Readers.initial_registry "toml" toml_reader) "toml" =
     (Some toml_reader, Readers.initial_registry)
  /\ Readers.get_reader (snd (Readers.remove_reader Readers.initial_registry "json"))
       "json" = None.
Proof.
  assert (Hnd : NoDup (map fst Readers.initial_registry)).
  { cbn. repeat (constructor; [cbn; intuition discriminate|]). constructor. }
  destruct (remove_reader_undoes_add_reader Readers.initial_registry "toml" Hnd)
    as [_ [_ [_ Hround]]].
  destruct (Hround eq_refl) as [Hnone Hadd].
  destruct (remove_reader_undoes_add_reader Readers.initial_registry "json" Hnd)
    as [_ [Hgone _]].
  split; [exact Hnone|]. split; [exact (Hadd toml_reader) | exact Hgone].
Defined.

(* ================================================================== *)
(** * What [IniReader.read] holds *)
(* ================================================================== *)

Section IniLookup.

Lemma fold_dict_set_other (val : string -> pyvalue) (xs : list string) (d : items)
    (key : string) :
  ~ In key xs ->
  dict_get (fold_left (fun d x => dict_set d x (val x)) xs d) key = dict_get d key.
Proof.
  revert d. induction xs as [|x xs IH]; intros d Hnot; [reflexivity|].
  cbn [fold_left]. rewrite IH by (intros Hin; apply Hnot; right; exact Hin).
  apply dict_get_set_other. intros Heq. apply Hnot. left. exact Heq.
Qed.

(** A loop of assignments [d[x] = val(x)] leaves [val(x)] under every [x]
    it went through, repeated or not. *)
Lemma fold_dict_set_get (val : string -> pyvalue) (xs : list string) (d : items)
    (key : string) :
  In key xs ->
  dict_get (fold_left (fun d x => dict_set d x (val x)) xs d) key = val key.
Proof.
  revert d. induction xs as [|x xs IH]; intros d Hin; [destruct Hin|].
  cbn [fold_left].
  destruct (in_dec string_dec key xs) as [Hlater | Hnot]; [apply IH; exact Hlater|].
  destruct Hin as [Heq | Hin]; [subst x | contradiction].
  rewrite fold_dict_set_other by exact Hnot.
  apply dict_get_set_same.
Qed.

End IniLookup.

(** X3: what [IniReader.read] returns holds the parser's raw value of every
    option under its section and its name, as a string, and nothing else:
    a section the parser does not list is absent, and so is, under a section
    it lists, an option it does not list there. *)
Theorem ini_reader_holds_every_option (host : Host) (text : string)
    (parser : ConfigParser) :
  configparser_read host text = Ok parser ->
  exists data,
    Readers.IniReader_read host (Some text) = Ok data
    /\ (forall section option,
           In section (sections parser) ->
           In option (options parser section) ->
           mapping_get (mapping_get data section) option =
           VStr (get_option_raw parser section option))
    /\ (forall section,
           ~ In section (sections parser) -> mapping_get data section = VNone)
    /\ (forall section option,
           In section (sections parser) ->
           ~ In option (options parser section) ->
           mapping_get (mapping_get data section) option = VNone).
Proof.
  intros Hparse. unfold Readers.IniReader_read. rewrite Hparse. cbn [rbind].
  eexists. split; [reflexivity|].
  set (section_dict := fun section =>
         VDict (fold_left
                  (fun data_section option =>
                     dict_set data_section option
                       (VStr (get_option_raw parser section option)))
                  (options parser section) [])).
  split; [|split].
  - intros section option Hsection Hoption. cbn [mapping_get].
    rewrite (fold_dict_set_get section_dict _ _ _ Hsection).
    unfold section_dict. cbn [mapping_get].
    apply (fold_dict_set_get
             (fun option => VStr (get_option_raw parser section option))).
    exact Hoption.
  - intros section Hnot. cbn [mapping_get].
    rewrite (fold_dict_set_other section_dict _ _ _ Hnot). reflexivity.
  - intros section option Hsection Hnot. cbn [mapping_get].
    rewrite (fold_dict_set_get section_dict _ _ _ Hsection).
    unfold section_dict. cbn [mapping_get].
    rewrite (fold_dict_set_other
               (fun option => VStr (get_option_raw parser section option))
               _ _ _ Hnot).
    reflexivity.
Qed.

Lemma ini_reader_holds_every_option_witness :
  exists data,
    Readers.IniReader_read ini_host (Some ini_text) = Ok data
    /\ mapping_get (mapping_get data "Server") "port" = VStr "8080"
    /\ mapping_get data "Client" = VNone
    /\ mapping_get (mapping_get data "Server") "host" = VNone.
Proof.
  destruct (ini_reader_holds_every_option ini_host ini_text ini_parser eq_refl)
    as [data [Hread [Hheld [Hsection Hoption]]]].
  exists data. split; [exact Hread|]. split; [|split].
  - apply (Hheld "Server" "port"); left; reflexivity.
  - apply Hsection. intros [Heq | []]. discriminate.
  - apply (Hoption "Server" "host"); [left; reflexivity|].
    intros [Heq | []]. discriminate.
Defined.

(* ================================================================== *)
(** * [UrlConfig._get_reader]: the content type comes first *)
(* ================================================================== *)

(** X4: when the name taken from the content type is registered,
    [_get_reader] returns what instantiating that class gives, whatever the
    url: the extension of the url is not looked at, also when the
    instantiation fails (a YAML content type without the YAML library is a
    [LibraryRequiredError], there is no fall back to the url). *)
Theorem content_type_reader_precedes_url (host : Host) (url ct n : string)
    (cls : reader) :
  PyStr.truthy ct = true ->
  subtype_by_priority ct = Some n ->
  Readers.get_reader (readers host) n = Some cls ->
  UrlConfig._get_reader host url (Some ct) = Readers.instantiate host cls
  /\ (cls = YamlReader -> yaml_installed host = false ->
      exists msg,
        UrlConfig._get_reader host url (Some ct) = Raise (LibraryRequiredError msg)).
Proof.
  intros Htruthy Hname Hreg.
  assert (Hget : UrlConfig._get_reader host url (Some ct) =
                 Readers.instantiate host cls).
  { unfold UrlConfig._get_reader.
    rewrite (content_type_names_priority ct Htruthy), Hname.
    cbn [name_list app UrlConfig.first_reader]. rewrite Hreg. reflexivity. }
  split; [exact Hget|].
  intros -> Hyaml. rewrite Hget. cbn [Readers.instantiate]. rewrite Hyaml.
  eexists. reflexivity.
Qed.

Lemma content_type_reader_precedes_url_witness :
  UrlConfig._get_reader (bare_host []) "http://example.com/config.json"
    (Some "text/x-yaml") = Ok YamlReader
  /\ (exists msg,
         UrlConfig._get_reader no_yaml_host "http://example.com/config.json"
           (Some "text/yaml") = Raise (LibraryRequiredError msg)).
Proof.
  split.
  - apply (content_type_reader_precedes_url (bare_host [])
             "http://example.com/config.json" "text/x-yaml" "yaml" YamlReader);
      reflexivity.
  - apply (content_type_reader_precedes_url no_yaml_host
             "http://example.com/config.json" "text/yaml" "yaml" YamlReader);
      reflexivity.
Defined.

(* ================================================================== *)
(** * [CommandLineConfig.load]: arguments one after the other *)
(* ================================================================== *)

Section CommandLineApp.

Lemma parse_app_bounded (n : nat) :
  forall (args1 args2 : list string) (data data1 : items),
    (List.length args1 <= n)%nat ->
    CommandLineConfig.parse args1 data = Ok data1 ->
    CommandLineConfig.parse (args1 ++ args2)%list data =
    CommandLineConfig.parse args2 data1.
Proof.
  induction n as [|n IH]; intros args1 args2 data data1 Hlen Hparse.
  - destruct args1; [|cbn in Hlen; lia].
    cbn in Hparse. inversion Hparse. reflexivity.
  - destruct args1 as [|current_arg rest].
    { cbn in Hparse. inversion Hparse. reflexivity. }
    cbn [app]. cbn [CommandLineConfig.parse] in *.
    destruct (PyStr.find "=" current_arg =? -1).
    + destruct (CommandLineConfig.key_start_index current_arg =? 0);
        [discriminate|].
      destruct rest as [|value rest']; [discriminate|].
      cbn [app]. apply IH; [cbn in Hlen; lia | exact Hparse].
    + destruct (negb (PyStr.truthy
                        (PyStr.strip
                           (PyStr.slice current_arg
                              (CommandLineConfig.key_start_index current_arg)
                              (PyStr.find "=" current_arg)))));
        [discriminate|].
      apply IH; [cbn in Hlen; lia | exact Hparse].
Qed.

End CommandLineApp.

(** X5: arguments that parse on their own parse the same way in front of
    any others: the map they give is the map the arguments after them start
    from (so a key given again later, in any case, takes the later
    value). *)
Theorem parse_arguments_in_sequence (args1 args2 : list string) (data data1 : items) :
  CommandLineConfig.parse args1 data = Ok data1 ->
  CommandLineConfig.parse (args1 ++ args2)%list data =
  CommandLineConfig.parse args2 data1.
Proof. apply (parse_app_bounded (List.length args1)). apply Nat.le_refl. Qed.

Lemma parse_arguments_in_sequence_witness :
  CommandLineConfig.parse (["--name=a"; "-x"; "1"] ++ ["--NAME"; "b"])%list [] =
  Ok [("name", VStr "b"); ("x", VStr "1")].
Proof.
  etransitivity.
  - apply (parse_arguments_in_sequence ["--name=a"; "-x"; "1"] ["--NAME"; "b"] []
             [("name", VStr "a"); ("x", VStr "1")]).
    reflexivity.
  - reflexivity.
Defined.

(* ================================================================== *)
(** * Reading a key that is present *)
(* ================================================================== *)

(** X6: for every [BaseDataConfig] and every key whose raw value is not
    [None]: [key in config] is [True]; [get(key, default)] and
    [config[key]] are the raw value, put through the interpolator when it
    is a string and never through the decoder; the typed getters decode
    that same value; the default is never evaluated and [KeyError] only
    comes from the interpolator. *)
Theorem present_key_is_read_without_default
    (load : M BaseDataConfig unit) (self : BaseDataConfig) (key : string)
    (value : pyvalue) :
  BaseDataConfig.get_raw self (Some key) = Ok value ->
  is_none value = false ->
  @BaseConfig.contains _ (BaseDataConfig.as_config load) self (Some key) = Ok true
  /\ (forall default,
         @BaseConfig.get _ (BaseDataConfig.as_config load) self (Some key) default =
         interpolated self value)
  /\ @BaseConfig.getitem _ (BaseDataConfig.as_config load) self key =
     interpolated self value
  /\ (forall type default,
         type <> TObject ->
         BaseDataConfig.get_value self (Some key) (Some type) default =
         match interpolated self value with
         | Ok value' => decode (_decoder self) value' type
         | Raise e => Raise e
         end).
Proof.
  intros Hraw Hpresent.
  assert (Hobject : forall default,
             BaseDataConfig.get_value self (Some key) (Some TObject) default =
             interpolated self value).
  { intros default. unfold BaseDataConfig.get_value, interpolated.
    rewrite Hraw. cbn [rbind]. rewrite Hpresent.
    destruct value; try reflexivity.
    destruct (resolve (_interpolator self) s (_lookup self)); reflexivity. }
  split; [|split; [|split]].
  - unfold BaseConfig.contains. cbn [get_raw BaseDataConfig.as_config].
    rewrite Hraw. cbn [rbind]. rewrite Hpresent. reflexivity.
  - intros default. unfold BaseConfig.get.
    cbn [get_value BaseDataConfig.as_config]. apply Hobject.
  - unfold BaseConfig.getitem. cbn [get_value BaseDataConfig.as_config].
    rewrite Hobject. unfold interpolated.
    destruct value; try discriminate Hpresent; try reflexivity.
    destruct (resolve (_interpolator self) s (_lookup self)); reflexivity.
  - intros type default Htype. unfold BaseDataConfig.get_value, interpolated.
    rewrite Hraw. cbn [rbind]. rewrite Hpresent.
    destruct value; try discriminate Hpresent;
      (destruct type; [reflexivity .. | congruence]).
Qed.

Lemma present_key_is_read_without_default_witness :
  @BaseConfig.get _ MemoryConfig.config typed_config (Some "PORT")
    (DefaultCallable (fun _ => Raise (ValueError "default called"))) = Ok (VInt 8080)
  /\ @BaseConfig.getitem _ MemoryConfig.config typed_config "db.host" = Ok (VStr "h")
  /\ BaseDataConfig.get_value typed_config (Some "port") (Some TStr) (DefaultValue VNone)
     = Raise (ValueError "decoder called").
Proof.
  destruct (present_key_is_read_without_default MemoryConfig.load typed_config
              "PORT" (VInt 8080) eq_refl eq_refl) as [_ [Hget _]].
  destruct (present_key_is_read_without_default MemoryConfig.load typed_config
              "db.host" (VStr "h") eq_refl eq_refl) as [_ [_ [Hitem _]]].
  destruct (present_key_is_read_without_default MemoryConfig.load typed_config
              "port" (VInt 8080) eq_refl eq_refl) as [_ [_ [_ Htyped]]].
  split; [apply Hget|]. split; [exact Hitem|].
  apply (Htyped TStr (DefaultValue VNone)). discriminate.
Defined.

(* ================================================================== *)
(** * Case-insensitive maps *)
(* ================================================================== *)

Section IgnoreCase.

Lemma keq_refl (k : string) : IgnoreCaseDict.keq k k = true.
Proof. apply String.eqb_refl. Qed.

Lemma keq_trans_false (k0 k k' : string) :
  IgnoreCaseDict.keq k0 k = true -> IgnoreCaseDict.keq k k' = false ->
  IgnoreCaseDict.keq k0 k' = false.
Proof.
  unfold IgnoreCaseDict.keq. intros H1 H2.
  apply String.eqb_eq in H1. rewrite H1. exact H2.
Qed.

Lemma keq_trans_true (k0 k k' : string) :
  IgnoreCaseDict.keq k0 k = true -> IgnoreCaseDict.keq k k' = true ->
  IgnoreCaseDict.keq k0 k' = true.
Proof.
  unfold IgnoreCaseDict.keq. intros H1 H2.
  apply String.eqb_eq in H1. rewrite H1. exact H2.
Qed.

Lemma keq_false_left (k0 k k' : string) :
  IgnoreCaseDict.keq k0 k = false -> IgnoreCaseDict.keq k k' = true ->
  IgnoreCaseDict.keq k0 k' = false.
Proof.
  unfold IgnoreCaseDict.keq. intros H1 H2.
  apply String.eqb_eq in H2. rewrite <- H2. exact H1.
Qed.

Lemma ic_lookup_set_same (d : items) (k k' : string) (v : pyvalue) :
  IgnoreCaseDict.keq k k' = true ->
  Assoc.lookup IgnoreCaseDict.keq (IgnoreCaseDict.set d k v) k' = Some v.
Proof.
  intros Hk.
  induction d as [|[k0 w] rest IH];
    cbn [IgnoreCaseDict.set Assoc.set Assoc.lookup].
  - rewrite Hk. reflexivity.
  - destruct (IgnoreCaseDict.keq k0 k) eqn:H0; cbn [Assoc.lookup].
    + rewrite (keq_trans_true _ _ _ H0 Hk). reflexivity.
    + rewrite (keq_false_left _ _ _ H0 Hk). exact IH.
Qed.

Lemma ic_lookup_set_other (d : items) (k k' : string) (v : pyvalue) :
  IgnoreCaseDict.keq k k' = false ->
  Assoc.lookup IgnoreCaseDict.keq (IgnoreCaseDict.set d k v) k' =
  Assoc.lookup IgnoreCaseDict.keq d k'.
Proof.
  intros Hk.
  induction d as [|[k0 w] rest IH];
    cbn [IgnoreCaseDict.set Assoc.set Assoc.lookup].
  - rewrite Hk. reflexivity.
  - destruct (IgnoreCaseDict.keq k0 k) eqn:H0; cbn [Assoc.lookup].
    + rewrite (keq_trans_false _ _ _ H0 Hk). reflexivity.
    + destruct (IgnoreCaseDict.keq k0 k'); [reflexivity | exact IH].
Qed.

Lemma ic_mem_iff (d : items) (k : string) :
  IgnoreCaseDict.mem d k = true <->
  In (PyStr.lower k) (map PyStr.lower (map fst d)).
Proof.
  unfold IgnoreCaseDict.mem, Assoc.mem.
  induction d as [|[k0 w] rest IH]; cbn [Assoc.lookup map fst In].
  - split; [discriminate | intros []].
  - destruct (IgnoreCaseDict.keq k0 k) eqn:H0.
    + split; [|reflexivity]. intros _. left.
      apply String.eqb_eq. exact H0.
    + rewrite IH. split; [intros Hin; right; exact Hin|].
      intros [Heq | Hin]; [|exact Hin].
      unfold IgnoreCaseDict.keq in H0. rewrite Heq, String.eqb_refl in H0.
      discriminate.
Qed.

Lemma ic_set_names (d : items) (k : string) (v : pyvalue) :
  map fst (IgnoreCaseDict.set d k v) =
  if IgnoreCaseDict.mem d k then map fst d else (map fst d ++ [k])%list.
Proof.
  unfold IgnoreCaseDict.mem, Assoc.mem.
  induction d as [|[k0 w] rest IH];
    cbn [IgnoreCaseDict.set Assoc.set Assoc.lookup map fst]; [reflexivity|].
  destruct (IgnoreCaseDict.keq k0 k); [reflexivity|].
  cbn [map fst app]. change (Assoc.set IgnoreCaseDict.keq rest k v)
    with (IgnoreCaseDict.set rest k v).
  rewrite IH. destruct (Assoc.lookup IgnoreCaseDict.keq rest k); reflexivity.
Qed.

(** One entry per case-folded key: an assignment keeps that. *)
Lemma ic_set_distinct (d : items) (k : string) (v : pyvalue) :
  NoDup (map PyStr.lower (map fst d)) ->
  NoDup (map PyStr.lower (map fst (IgnoreCaseDict.set d k v))).
Proof.
  intros Hnd. rewrite ic_set_names.
  destruct (IgnoreCaseDict.mem d k) eqn:Hmem; [exact Hnd|].
  rewrite map_app. apply NoDup_app; [exact Hnd | repeat constructor; intros [] |].
  intros x Hin [Heq | []]. subst x.
  apply ic_mem_iff in Hin. congruence.
Qed.

(** The loop [for key in xs: keys[key] = True]. *)
Lemma ic_fold_set_distinct (v : pyvalue) (xs : list string) (d : items) :
  NoDup (map PyStr.lower (map fst d)) ->
  NoDup (map PyStr.lower
           (map fst (fold_left (fun d k => IgnoreCaseDict.set d k v) xs d))).
Proof.
  revert d. induction xs as [|x xs IH]; intros d Hnd; [exact Hnd|].
  cbn [fold_left]. apply IH, ic_set_distinct, Hnd.
Qed.

Lemma ic_fold_set_mem (v : pyvalue) (xs : list string) (d : items) (k : string) :
  In k xs \/ IgnoreCaseDict.mem d k = true ->
  IgnoreCaseDict.mem (fold_left (fun d k => IgnoreCaseDict.set d k v) xs d) k = true.
Proof.
  revert d. induction xs as [|x xs IH]; intros d H.
  - destruct H as [[] | H]. exact H.
  - cbn [fold_left]. apply IH.
    destruct (in_dec string_dec k xs) as [Hlater | Hnot]; [left; exact Hlater|].
    right. unfold IgnoreCaseDict.mem, Assoc.mem.
    destruct (IgnoreCaseDict.keq x k) eqn:Hx.
    + rewrite (ic_lookup_set_same d x k v Hx). reflexivity.
    + rewrite (ic_lookup_set_other d x k v Hx).
      destruct H as [[Heq | Hin] | Hmem]; [| contradiction | exact Hmem].
      subst x. rewrite keq_refl in Hx. discriminate.
Qed.

Lemma ic_fold_set_names (v : pyvalue) (xs : list string) (d : items) (k : string) :
  In k (map fst (fold_left (fun d k => IgnoreCaseDict.set d k v) xs d)) ->
  In k xs \/ In k (map fst d).
Proof.
  revert d. induction xs as [|x xs IH]; intros d Hin; [right; exact Hin|].
  cbn [fold_left] in Hin. destruct (IH _ Hin) as [Hlater | Hset].
  - left. right. exact Hlater.
  - rewrite ic_set_names in Hset.
    destruct (IgnoreCaseDict.mem d x); [right; exact Hset|].
    apply in_app_iff in Hset. destruct Hset as [Hd | [Heq | []]];
      [right; exact Hd | left; left; exact Heq].
Qed.

End IgnoreCase.

(* ================================================================== *)
(** * [ChainConfig]: loading the children and listing the keys *)
(* ================================================================== *)

Section ChainChildren.
Context {C : Type} {HC : Config C}.

Lemma load_each_loaded (loaded configs : list C) :
  ChainConfig.load_each loaded configs =
  match ChainConfig.load_each [] configs with
  | Some (configs', r) => Some ((loaded ++ configs')%list, r)
  | None => None
  end.
Proof.
  revert loaded. induction configs as [|c rest IH]; intros loaded.
  - cbn. rewrite app_nil_r. reflexivity.
  - cbn [ChainConfig.load_each].
    destruct (load c) as [[c' [u|e]]|]; [| |reflexivity].
    + rewrite (IH (loaded ++ [c'])%list), (IH ([] ++ [c'])%list).
      destruct (ChainConfig.load_each [] rest) as [[configs' r]|]; [|reflexivity].
      cbn [app]. rewrite <- app_assoc. reflexivity.
    + reflexivity.
Qed.

Lemma load_each_all (configs configs' : list C) :
  Forall2 (fun c c' => load c = Some (c', Ok tt)) configs configs' ->
  ChainConfig.load_each [] configs = Some (configs', Ok tt).
Proof.
  induction 1 as [|c c' rest rest' Hc _ IH]; [reflexivity|].
  cbn [ChainConfig.load_each]. rewrite Hc.
  rewrite load_each_loaded, IH. reflexivity.
Qed.

Lemma load_each_stops (before before' after : list C) (c c' : C) (e : exn) :
  Forall2 (fun c c' => load c = Some (c', Ok tt)) before before' ->
  load c = Some (c', Raise e) ->
  ChainConfig.load_each [] (before ++ c :: after)%list =
  Some ((before' ++ c' :: after)%list, Raise e).
Proof.
  intros Hbefore Hc.
  induction Hbefore as [|b b' rest rest' Hb _ IH].
  - cbn [app ChainConfig.load_each]. rewrite Hc. reflexivity.
  - cbn [app ChainConfig.load_each]. rewrite Hb.
    rewrite load_each_loaded, IH. reflexivity.
Qed.

Lemma build_cached_keys_flat (self : ChainConfig C) :
  ChainConfig.build_cached_keys self =
  fold_left (fun d k => IgnoreCaseDict.set d k (VBool true))
            (List.concat (map keys (chain_configs self))) IgnoreCaseDict.empty.
Proof.
  unfold ChainConfig.build_cached_keys.
  generalize IgnoreCaseDict.empty.
  induction (chain_configs self) as [|c rest IH]; intros d; [reflexivity|].
  cbn [fold_left map List.concat]. rewrite fold_left_app. apply IH.
Qed.

End ChainChildren.

(** X7: [ChainConfig.load] loads the children in their order and stops at
    the first child whose [load] raises: that exception is the chain's, the
    children before it are loaded, the children after it are left as they
    were.  When no child raises, all are loaded. *)
Theorem chain_load_stops_at_first_failure :
  forall (C : Type) (HC : Config C) (lookup : StrLookup),
    (forall before before' after c c' e,
        Forall2 (fun c c' => load c = Some (c', Ok tt)) before before' ->
        load c = Some (c', Raise e) ->
        ChainConfig.load
          {| chain_configs := (before ++ c :: after)%list; chain_lookup := lookup |} =
        Some ({| chain_configs := (before' ++ c' :: after)%list;
                 chain_lookup := lookup |}, Raise e))
    /\ (forall configs configs',
           Forall2 (fun c c' => load c = Some (c', Ok tt)) configs configs' ->
           ChainConfig.load {| chain_configs := configs; chain_lookup := lookup |} =
           Some ({| chain_configs := configs'; chain_lookup := lookup |}, Ok tt)).
Proof.
  intros C HC lookup. split.
  - intros before before' after c c' e Hbefore Hc. unfold ChainConfig.load.
    cbn [chain_configs chain_lookup].
    rewrite (load_each_stops before before' after c c' e Hbefore Hc). reflexivity.
  - intros configs configs' Hall. unfold ChainConfig.load.
    cbn [chain_configs chain_lookup].
    rewrite (load_each_all configs configs' Hall). reflexivity.
Qed.

Lemma chain_load_stops_at_first_failure_witness :
  @ChainConfig.load _ flaky_config
    {| chain_configs := [config_A; broken_config; config_B];
       chain_lookup := ConfigLookup 1 |} =
  Some ({| chain_configs :=
             [set_data (VIgnoreCaseDict [("loaded", VBool true)]) config_A;
              broken_config; config_B];
           chain_lookup := ConfigLookup 1 |}, Raise (IOError "broken source")).
Proof.
  destruct (chain_load_stops_at_first_failure BaseDataConfig flaky_config
              (ConfigLookup 1)) as [Hstops _].
  apply (Hstops [config_A]
           [set_data (VIgnoreCaseDict [("loaded", VBool true)]) config_A]
           [config_B] broken_config broken_config (IOError "broken source")).
  - constructor; [reflexivity | constructor].
  - reflexivity.
Defined.

(** X8: the keys of a [ChainConfig] (what [_build_cached_keys] collects)
    hold every key of every child, found whatever its case; they hold
    nothing but keys of the children; and no two of them are equal up to
    case. *)
Theorem chain_keys_are_the_union (C : Type) (HC : Config C) (self : ChainConfig C) :
  (forall c key,
      In c (chain_configs self) -> In key (keys c) ->
      IgnoreCaseDict.mem (ChainConfig.build_cached_keys self) key = true)
  /\ (forall key,
         In key (map fst (ChainConfig.build_cached_keys self)) ->
         exists c, In c (chain_configs self) /\ In key (keys c))
  /\ NoDup (map PyStr.lower (map fst (ChainConfig.build_cached_keys self))).
Proof.
  rewrite build_cached_keys_flat. split; [|split].
  - intros c key Hc Hkey. apply ic_fold_set_mem. left.
    apply in_concat. exists (keys c). split; [|exact Hkey].
    apply in_map. exact Hc.
  - intros key Hin. apply ic_fold_set_names in Hin.
    destruct Hin as [Hin | []].
    apply in_concat in Hin. destruct Hin as [ks [Hks Hkey]].
    apply in_map_iff in Hks. destruct Hks as [c [Heq Hc]]. subst ks.
    exists c. split; assumption.
  - apply ic_fold_set_distinct. constructor.
Qed.

Section ChainCache.
Context {C E : Type} {HC : Config C}.

Lemma get_cached_keys_cached (self : ChainKeys C E) (cached : items) :
  _keys_cached self = Some cached ->
  ChainKeys._get_cached_keys self = Some (self, Ok cached).
Proof.
  intros Hc. unfold ChainKeys._get_cached_keys, StateM.bind, StateM.gets.
  rewrite Hc. reflexivity.
Qed.

Lemma get_cached_keys_fills (self self' : ChainKeys C E) (r : result items) :
  ChainKeys._get_cached_keys self = Some (self', r) ->
  exists cached, r = Ok cached /\ _keys_cached self' = Some cached
                 /\ keys_chain self' = keys_chain self
                 /\ (_keys_cached self = None ->
                     cached = ChainConfig.build_cached_keys (keys_chain self)).
Proof.
  unfold ChainKeys._get_cached_keys, StateM.bind, StateM.gets.
  destruct (_keys_cached self) as [cached|] eqn:Hc; cbn; intros H; inversion H; subst.
  - exists cached. repeat split; auto. discriminate.
  - eexists. repeat split.
Qed.

Lemma chain_keys_load_cache (self self' : ChainKeys C E) (r : result unit) :
  ChainKeys.load self = Some (self', r) -> _keys_cached self' = _keys_cached self.
Proof.
  unfold ChainKeys.load.
  destruct (ChainConfig.load (keys_chain self)) as [[chain' r']|]; [|discriminate].
  intros H. inversion H. reflexivity.
Qed.

End ChainCache.

(** X9: [ChainConfig.load] does not touch the cache of keys: once
    [__len__] has built it, a [load], whatever it changes in the children,
    leaves [__len__] answering from the keys of before; they are built anew
    only after [_config_updated] has reset the cache. *)
Theorem chain_load_keeps_cached_keys :
  forall (C E : Type) (HC : Config C),
    (forall (self s1 s2 s3 : ChainKeys C E) n r m,
        ChainKeys.len self = Some (s1, Ok n) ->
        ChainKeys.load s1 = Some (s2, r) ->
        ChainKeys.len s2 = Some (s3, Ok m) ->
        m = n /\ _keys_cached s3 = _keys_cached s1)
    /\ (forall (self s1 s2 : ChainKeys C E) r n,
           ChainKeys._config_updated self = Some (s1, r) ->
           ChainKeys.len s1 = Some (s2, Ok n) ->
           n = Z.of_nat (List.length (ChainConfig.build_cached_keys (keys_chain s1)))).
Proof.
  intros C E HC. split.
  - intros self s1 s2 s3 n r m Hlen Hload Hlen'.
    unfold ChainKeys.len, StateM.bind in Hlen, Hlen'.
    destruct (ChainKeys._get_cached_keys self) as [[t1 r1]|] eqn:H1; [|discriminate].
    destruct (get_cached_keys_fills self t1 r1 H1) as [cached [-> [Hc1 _]]].
    cbn in Hlen. inversion Hlen; subst t1 n.
    pose proof (chain_keys_load_cache s1 s2 r Hload) as Hc2.
    rewrite Hc1 in Hc2.
    rewrite (get_cached_keys_cached s2 cached Hc2) in Hlen'.
    cbn in Hlen'. inversion Hlen'; subst. split; [reflexivity|].
    rewrite Hc1, Hc2. reflexivity.
  - intros self s1 s2 r n Hupdated Hlen.
    assert (Hreset : _keys_cached s1 = None).
    { unfold ChainKeys._config_updated, StateM.bind, StateM.modify, StateM.gets in Hupdated.
      cbn in Hupdated.
      destruct (EventHandler.call (keys_updated self) (keys_world self))
        as [[w [rs|e]]|]; inversion Hupdated; reflexivity. }
    unfold ChainKeys.len, StateM.bind in Hlen.
    destruct (ChainKeys._get_cached_keys s1) as [[t1 r1]|] eqn:H1; [|discriminate].
    destruct (get_cached_keys_fills s1 t1 r1 H1) as [cached [-> [_ [_ Hbuilt]]]].
    cbn in Hlen. inversion Hlen. rewrite (Hbuilt Hreset). reflexivity.
Qed.

Lemma chain_load_keeps_cached_keys_witness :
  exists s1 s2 s3,
    @ChainKeys.len _ _ command_line_child unloaded_chain = Some (s1, Ok 0)
    /\ @ChainKeys.load _ _ command_line_child s1 = Some (s2, Ok tt)
    /\ @ChainKeys.len _ _ command_line_child s2 = Some (s3, Ok 0)
    /\ map fst (@ChainConfig.build_cached_keys _ command_line_child (keys_chain s2))
       = ["a"].
Proof.
  destruct (chain_load_keeps_cached_keys BaseDataConfig (list string)
              command_line_child) as [Hstale _].
  pose (loaded := {| keys_chain :=
                       {| chain_configs := [memory_config [("a", VStr "1")]];
                          chain_lookup := ConfigLookup 1 |};
                     _keys_cached := Some [];
                     keys_updated := {| _callbacks := [] |};
                     keys_world := [] |} : ChainKeys BaseDataConfig (list string)).
  assert (H1 : @ChainKeys.len _ _ command_line_child unloaded_chain =
               Some (ChainKeys.set_cache (Some []) unloaded_chain, Ok 0))
    by reflexivity.
  assert (H2 : @ChainKeys.load _ _ command_line_child
                 (ChainKeys.set_cache (Some []) unloaded_chain) =
               Some (loaded, Ok tt))
    by reflexivity.
  assert (H3 : @ChainKeys.len _ _ command_line_child loaded =
               Some (loaded, Ok (Z.of_nat (List.length (@nil (string * pyvalue))))))
    by reflexivity.
  exists (ChainKeys.set_cache (Some []) unloaded_chain), loaded, loaded.
  split; [exact H1|]. split; [exact H2|]. split; [|reflexivity].
  destruct (Hstale _ _ _ _ _ _ _ H1 H2 H3) as [Hm _].
  rewrite <- Hm. exact H3.
Defined.

(* ================================================================== *)
(** * [MergeConfig.load] over its children *)
(* ================================================================== *)



(* ================================================================== *)
(** * [EventHandler]: the order of the callbacks *)
(* ================================================================== *)

Section Callbacks.
Context {E : Type}.

Lemma call_all_app (first second : list (M E pyvalue)) (w : E) :
  EventHandler.call_all (first ++ second)%list w =
  match EventHandler.call_all first w with
  | None => None
  | Some (w1, Raise e) => Some (w1, Raise e)
  | Some (w1, Ok rs) =>
      match EventHandler.call_all second w1 with
      | None => None
      | Some (w2, Raise e) => Some (w2, Raise e)
      | Some (w2, Ok rs') => Some (w2, Ok (rs ++ rs')%list)
      end
  end.
Proof.
  revert w. induction first as [|callback rest IH]; intros w.
  - cbn [app EventHandler.call_all]. unfold StateM.ret.
    destruct (EventHandler.call_all second w) as [[w2 [rs'|e]]|]; reflexivity.
  - cbn [app EventHandler.call_all]. unfold StateM.bind, StateM.ret.
    destruct (callback w) as [[w0 [r|e]]|]; [|reflexivity|reflexivity].
    rewrite IH.
    destruct (EventHandler.call_all rest w0) as [[w1 [rs|e]]|];
      [|reflexivity|reflexivity].
    destruct (EventHandler.call_all second w1) as [[w2 [rs'|e]]|]; reflexivity.
Qed.

Lemma call_all_length (callbacks : list (M E pyvalue)) (w w' : E)
    (rs : list pyvalue) :
  EventHandler.call_all callbacks w = Some (w', Ok rs) ->
  List.length rs = List.length callbacks.
Proof.
  revert w rs. induction callbacks as [|callback rest IH]; intros w rs.
  - cbn. intros H. inversion H. reflexivity.
  - cbn [EventHandler.call_all]. unfold StateM.bind, StateM.ret.
    destruct (callback w) as [[w0 [r|e]]|]; [|discriminate|discriminate].
    destruct (EventHandler.call_all rest w0) as [[w1 [rs0|e]]|] eqn:Hrest;
      [|discriminate|discriminate].
    intros H. inversion H; subst. cbn [List.length].
    rewrite (IH _ _ Hrest). reflexivity.
Qed.

End Callbacks.

(** X12: an [EventHandler] calls its callbacks in the order of addition: a
    callback that was added runs after all those that were there, on the
    world they left, and it does not run when one of them raised; the call
    returns one value for each callback. *)
Theorem added_callback_runs_last :
  forall (E : Type) (self : EventHandler E) (callback : M E pyvalue) (w : E),
    EventHandler.call (EventHandler.add self callback) w =
    match EventHandler.call self w with
    | None => None
    | Some (w1, Raise e) => Some (w1, Raise e)
    | Some (w1, Ok rs) =>
        match callback w1 with
        | None => None
        | Some (w2, Raise e) => Some (w2, Raise e)
        | Some (w2, Ok r) => Some (w2, Ok (rs ++ [r])%list)
        end
    end
    /\ (forall w' rs,
           EventHandler.call self w = Some (w', Ok rs) ->
           List.length rs = List.length (_callbacks self)).
Proof.
  intros E self callback w. split.
  - unfold EventHandler.call, EventHandler.add. cbn [_callbacks].
    rewrite call_all_app.
    destruct (EventHandler.call_all (_callbacks self) w) as [[w1 [rs|e]]|];
      [|reflexivity|reflexivity].
    cbn [EventHandler.call_all]. unfold StateM.bind, StateM.ret.
    destruct (callback w1) as [[w2 [r|e]]|]; reflexivity.
  - intros w' rs. apply call_all_length.
Qed.

(* ================================================================== *)
(** * [MemoryConfig.set] *)
(* ================================================================== *)

(** X11: [MemoryConfig.set] stores the value before it notifies: whatever
    the subscribers do, and also when one of them raises, the value is in
    the data under the key up to case, the entries of the other keys are
    those of before, and the subscribers ran once, in their order; the
    exception of a subscriber is the one of [set].  Without a key nothing
    is stored and nobody is notified. *)
Theorem memory_set_stores_then_notifies :
  forall (E : Type) (make_ignore_case : pyvalue -> pyvalue),
    (forall (self : MemoryConfig E) value,
        MemoryStore.set make_ignore_case None value self =
        Some (self, Raise (TypeError "key cannot be None")))
    /\ (forall (self self' : MemoryConfig E) d key value r,
           _data (mem_base self) = VIgnoreCaseDict d ->
           MemoryStore.set make_ignore_case (Some key) value self = Some (self', r) ->
           let stored :=
             if isinstance_Mapping value then make_ignore_case value else value in
           _data (mem_base self') = VIgnoreCaseDict (IgnoreCaseDict.set d key stored)
           /\ (forall key',
                  IgnoreCaseDict.keq key key' = true -> is_none stored = false ->
                  BaseDataConfig.get_raw (mem_base self') (Some key') = Ok stored)
           /\ (forall key',
                  IgnoreCaseDict.keq key key' = false ->
                  mapping_get (_data (mem_base self')) key' =
                  mapping_get (_data (mem_base self)) key')
           /\ (exists rs,
                  EventHandler.call (mem_updated self) (mem_world self) =
                  Some (mem_world self', rs)
                  /\ r = match rs with Ok _ => Ok tt | Raise e => Raise e end)
           /\ mem_updated self' = mem_updated self).
Proof.
  intros E make_ignore_case. split; [reflexivity|].
  intros self self' d key value r Hdata Hset stored.
  unfold MemoryStore.set, StateM.bind, StateM.gets, StateM.lift, StateM.modify,
    StateM.ret, MemoryStore.in_world in Hset.
  rewrite Hdata in Hset. cbn [mapping_set] in Hset.
  fold stored in Hset.
  cbn [MemoryStore.set_data mem_base mem_updated mem_world] in Hset.
  destruct (EventHandler.call (mem_updated self) (mem_world self))
    as [[w rs]|] eqn:Hcall; [|discriminate].
  assert (Hself' : self' =
                   {| mem_base := set_data (VIgnoreCaseDict (IgnoreCaseDict.set d key stored))
                                           (mem_base self);
                      mem_updated := mem_updated self;
                      mem_world := w |}
                   /\ r = match rs with Ok _ => Ok tt | Raise e => Raise e end).
  { destruct rs as [rs|e]; inversion Hset; split; reflexivity. }
  destruct Hself' as [-> ->]. cbn [mem_base mem_updated mem_world].
  unfold set_data. cbn [_data].
  split; [reflexivity|]. split; [|split; [|split]].
  - intros key' Hkey Hstored. unfold BaseDataConfig.get_raw.
    cbn [_data mapping_get]. unfold IgnoreCaseDict.get, Assoc.get.
    rewrite (ic_lookup_set_same d key key' stored Hkey).
    rewrite Hstored. reflexivity.
  - intros key' Hkey. rewrite Hdata. cbn [mapping_get].
    unfold IgnoreCaseDict.get, Assoc.get.
    rewrite (ic_lookup_set_other d key key' stored Hkey). reflexivity.
  - exists rs. split; reflexivity.
  - reflexivity.
Qed.

Lemma memory_set_stores_then_notifies_witness :
  exists self',
    MemoryStore.set (fun data => data) (Some "NAME") (VStr "new")
      memory_with_failing_subscriber =
    Some (self', Raise (ValueError "subscriber failed"))
    /\ BaseDataConfig.get_raw (mem_base self') (Some "name") = Ok (VStr "new")
    /\ mem_world self' = ["subscriber"].
Proof.
  destruct (memory_set_stores_then_notifies (list string) (fun data => data))
    as [_ Hset].
  pose (after := {| mem_base := memory_config [("Name", VStr "new")];
                    mem_updated := {| _callbacks := [subscriber_fails] |};
                    mem_world := ["subscriber"] |} : MemoryConfig (list string)).
  assert (Hrun : MemoryStore.set (fun data => data) (Some "NAME") (VStr "new")
                   memory_with_failing_subscriber =
                 Some (after, Raise (ValueError "subscriber failed")))
    by reflexivity.
  exists after. split; [exact Hrun|]. split; [|reflexivity].
  destruct (Hset memory_with_failing_subscriber after
              [("Name", VStr "old")] "NAME" (VStr "new") _ eq_refl Hrun)
    as [_ [Hread _]].
  apply (Hread "name"); reflexivity.
Defined.

(* ================================================================== *)
(** * [PrefixedConfig] *)
(* ================================================================== *)

Section Delimiter.

Lemma endswith_char_app_char (s : string) (c : ascii) :
  PyStr.endswith_char (s ++ String c EmptyString) c = true.
Proof.
  induction s as [|a s IH]; cbn [append PyStr.endswith_char].
  - apply Ascii.eqb_refl.
  - destruct (s ++ String c EmptyString) eqn:Hs; [|exact IH].
    destruct s; discriminate.
Qed.

Lemma endswith_char_app (s t : string) (c : ascii) :
  t <> EmptyString ->
  PyStr.endswith_char (s ++ t) c = PyStr.endswith_char t c.
Proof.
  intros Ht. induction s as [|a s IH]; [reflexivity|].
  cbn [append PyStr.endswith_char].
  destruct (s ++ t) eqn:Hst; [|exact IH].
  destruct s; [contradiction | discriminate].
Qed.

Lemma rstrip_app_char (s : string) (c : ascii) :
  PyStr.rstrip_with (Ascii.eqb c) (s ++ String c EmptyString) =
  PyStr.rstrip_with (Ascii.eqb c) s.
Proof.
  induction s as [|a s IH]; cbn [append PyStr.rstrip_with].
  - rewrite Ascii.eqb_refl. reflexivity.
  - rewrite IH. reflexivity.
Qed.

Lemma rstrip_not_ending (s : string) (c : ascii) :
  PyStr.endswith_char s c = false ->
  PyStr.rstrip_with (Ascii.eqb c) s = s.
Proof.
  induction s as [|a s IH]; [reflexivity|].
  cbn [PyStr.endswith_char PyStr.rstrip_with]. destruct s as [|b s].
  - intros Ha. cbn [PyStr.rstrip_with]. rewrite Ascii.eqb_sym, Ha. reflexivity.
  - intros Hs. rewrite (IH Hs). reflexivity.
Qed.

Lemma startswith_drop (s p : string) :
  PyStr.startswith s p = true -> s = p ++ PyStr.drop (String.length p) s.
Proof.
  revert s. induction p as [|a p IH]; intros s; [reflexivity|].
  destruct s as [|b s]; cbn [PyStr.startswith]; [discriminate|].
  intros H. apply andb_true_iff in H. destruct H as [Hb Hs].
  apply Ascii.eqb_eq in Hb. subst b.
  cbn [String.length PyStr.drop append]. rewrite <- (IH s Hs). reflexivity.
Qed.

End Delimiter.

(** X13: [PrefixedConfig] takes its prefix with or without the final
    delimiter, and the two spellings give the same view; a view of a view,
    as [prefixed] builds them, reads what the one view under the joined
    prefix reads, namely the key of the child made of the two prefixes and
    the key, each followed by the delimiter. *)
Theorem prefixed_views_compose :
  forall (C : Type) (HC : Config C) (config : C),
    (forall prefix,
        PyStr.endswith_char prefix NESTED_DELIMITER = false ->
        PrefixedConfig.init (prefix ++ ".") config = PrefixedConfig.init prefix config
        /\ _prefix (PrefixedConfig.init prefix config) = prefix
        /\ _prefix_delimited (PrefixedConfig.init prefix config) = prefix ++ ".")
    /\ (forall outer inner key,
           PyStr.endswith_char outer NESTED_DELIMITER = false ->
           PyStr.endswith_char inner NESTED_DELIMITER = false ->
           inner <> EmptyString ->
           @PrefixedConfig.get_raw _ prefixed_child
             (PrefixedConfig.init inner (PrefixedConfig.init outer config))
             (Some key) =
           get_raw config (Some (outer ++ "." ++ inner ++ "." ++ key))
           /\ PrefixedConfig.get_raw
                (PrefixedConfig.init (outer ++ "." ++ inner) config) (Some key) =
              get_raw config (Some (outer ++ "." ++ inner ++ "." ++ key))).
Proof.
  intros C HC config. split.
  - intros prefix Hend. unfold PrefixedConfig.init.
    change (prefix ++ ".") with (prefix ++ String NESTED_DELIMITER EmptyString).
    rewrite endswith_char_app_char, rstrip_app_char, Hend.
    rewrite (rstrip_not_ending prefix NESTED_DELIMITER Hend).
    repeat split.
  - intros outer inner key Houter Hinner Hne. split.
    + unfold PrefixedConfig.get_raw at 1. cbn [prefixed_child get_raw].
      unfold PrefixedConfig.get_raw, PrefixedConfig.init.
      cbn [_prefix_delimited prefixed_config]. rewrite Houter, Hinner.
      change (String NESTED_DELIMITER EmptyString) with ".".
      rewrite !append_assoc. reflexivity.
    + unfold PrefixedConfig.get_raw, PrefixedConfig.init.
      cbn [_prefix_delimited prefixed_config].
      assert (Hjoined : PyStr.endswith_char (outer ++ "." ++ inner) NESTED_DELIMITER
                        = false).
      { rewrite <- append_assoc.
        rewrite (endswith_char_app (outer ++ ".") inner NESTED_DELIMITER Hne).
        exact Hinner. }
      rewrite Hjoined.
      change (String NESTED_DELIMITER EmptyString) with ".".
      rewrite !append_assoc. reflexivity.
Qed.

Lemma prefixed_views_compose_witness :
  @PrefixedConfig.get_raw _ (@prefixed_child _ MemoryConfig.config)
    (PrefixedConfig.init "db" (PrefixedConfig.init "prod" (memory_config
       [("prod.db.host", VStr "h")])))
    (Some "host") = Ok (VStr "h")
  /\ @PrefixedConfig.get_raw _ MemoryConfig.config
       (PrefixedConfig.init "prod.db." (memory_config [("prod.db.host", VStr "h")]))
       (Some "host") = Ok (VStr "h").
Proof.
  destruct (prefixed_views_compose BaseDataConfig MemoryConfig.config
              (memory_config [("prod.db.host", VStr "h")])) as [Hsame Hcompose].
  destruct (Hcompose "prod" "db" "host") as [Hnested Hjoined];
    [reflexivity | reflexivity | discriminate |].
  split.
  - etransitivity; [exact Hnested | reflexivity].
  - destruct (Hsame "prod.db") as [Hinit _]; [reflexivity|].
    change "prod.db." with ("prod.db" ++ "."). rewrite Hinit.
    etransitivity; [exact Hjoined | reflexivity].
Defined.

Section PrefixedKeys.

Lemma set_add_in (elements : list string) (x y : string) :
  In y (set_add elements x) <-> y = x \/ In y elements.
Proof.
  induction elements as [|z rest IH]; cbn [set_add In].
  - split; [intros [H | []]; left; symmetry; exact H
           | intros [H | []]; left; symmetry; exact H].
  - destruct (String.eqb z x) eqn:Hz; cbn [In].
    + apply String.eqb_eq in Hz. subst z.
      split; [intros H; right; exact H|].
      intros [H | H]; [left; symmetry; exact H | exact H].
    + rewrite IH. split.
      * intros [H | [H | H]]; [right; left; exact H | left; exact H
                                | right; right; exact H].
      * intros [H | [H | H]]; [right; left; exact H | left; exact H
                                | right; right; exact H].
Qed.

Lemma set_add_nodup (elements : list string) (x : string) :
  NoDup elements -> NoDup (set_add elements x).
Proof.
  induction elements as [|z rest IH]; cbn [set_add]; intros Hnd.
  - constructor; [intros [] | constructor].
  - destruct (String.eqb z x) eqn:Hz; [exact Hnd|].
    inversion Hnd as [|? ? Hz_rest Hrest]; subst. constructor.
    + intros Hin. apply set_add_in in Hin. destruct Hin as [Heq | Hin].
      * subst z. rewrite String.eqb_refl in Hz. discriminate.
      * contradiction.
    + apply IH. exact Hrest.
Qed.

Lemma set_add_length (elements : list string) (x : string) :
  (List.length (set_add elements x) <= S (List.length elements))%nat.
Proof.
  induction elements as [|z rest IH]; cbn [set_add List.length]; [lia|].
  destruct (String.eqb z x); cbn [List.length]; lia.
Qed.

Lemma set_update_in (xs elements : list string) (y : string) :
  In y (set_update elements xs) <-> In y xs \/ In y elements.
Proof.
  unfold set_update. revert elements.
  induction xs as [|x xs IH]; intros elements; cbn [fold_left In].
  - split; [intros H; right; exact H | intros [[] | H]; exact H].
  - rewrite IH, set_add_in. split.
    + intros [H | [H | H]]; [left; right; exact H | left; left; symmetry; exact H
                              | right; exact H].
    + intros [[H | H] | H]; [right; left; symmetry; exact H | left; exact H
                              | right; right; exact H].
Qed.

Lemma set_update_nodup (xs elements : list string) :
  NoDup elements -> NoDup (set_update elements xs).
Proof.
  unfold set_update. revert elements.
  induction xs as [|x xs IH]; intros elements Hnd; [exact Hnd|].
  cbn [fold_left]. apply IH, set_add_nodup, Hnd.
Qed.

Lemma set_update_length (xs elements : list string) :
  (List.length (set_update elements xs) <= List.length elements + List.length xs)%nat.
Proof.
  unfold set_update. revert elements.
  induction xs as [|x xs IH]; intros elements; cbn [fold_left List.length]; [lia|].
  pose proof (IH (set_add elements x)). pose proof (set_add_length elements x). lia.
Qed.

Context {C : Type} {HC : Config C}.
Variable self : PrefixedConfig C.

(** The two loops go through the same keys: they fail together, and the
    one counts each key that the other adds to the set. *)
Lemma prefixed_loops (config_keys : list string) :
  forall (found : list string) (n : Z),
    NoDup found ->
    match PrefixedConfig.iter_loop self config_keys found,
          PrefixedConfig.len_loop self config_keys n with
    | Ok out, Ok m =>
        NoDup out /\ Z.of_nat (List.length out) - Z.of_nat (List.length found) <= m - n
    | Raise e, Raise e' => e = e'
    | _, _ => False
    end.
Proof.
  induction config_keys as [|key rest IH]; intros found n Hnd;
    cbn [PrefixedConfig.iter_loop PrefixedConfig.len_loop].
  - split; [exact Hnd | lia].
  - destruct (String.eqb key (_prefix self)).
    + unfold rbind.
      destruct (BaseConfig.get (prefixed_config self) (Some key) (DefaultValue VNone))
        as [value|e]; [|reflexivity].
      destruct (isinstance_Mapping value); [|apply IH; exact Hnd].
      specialize (IH (set_update found (mapping_keys value))
                     (n + Z.of_nat (List.length (mapping_keys value)))
                     (set_update_nodup (mapping_keys value) found Hnd)).
      destruct (PrefixedConfig.iter_loop self rest
                  (set_update found (mapping_keys value))) as [out|e];
        destruct (PrefixedConfig.len_loop self rest
                    (n + Z.of_nat (List.length (mapping_keys value)))) as [m|e'];
        try exact IH.
      destruct IH as [Hout Hcount]. split; [exact Hout|].
      pose proof (set_update_length (mapping_keys value) found). lia.
    + destruct (PyStr.startswith key (_prefix_delimited self));
        [|apply IH; exact Hnd].
      set (suffix := PyStr.slice_from key
                       (Z.of_nat (String.length (_prefix_delimited self)))).
      specialize (IH (set_update found [suffix]) (n + 1)
                     (set_update_nodup [suffix] found Hnd)).
      destruct (PrefixedConfig.iter_loop self rest (set_update found [suffix]))
        as [out|e];
        destruct (PrefixedConfig.len_loop self rest (n + 1)) as [m|e'];
        try exact IH.
      destruct IH as [Hout Hcount]. split; [exact Hout|].
      pose proof (set_update_length [suffix] found). cbn [List.length] in *. lia.
Qed.

Lemma prefixed_iter_loop_sound (config_keys : list string) :
  forall (found out : list string),
    incl config_keys (keys (prefixed_config self)) ->
    (forall k, In k found -> listed_under_prefix self k) ->
    PrefixedConfig.iter_loop self config_keys found = Ok out ->
    forall k, In k out -> listed_under_prefix self k.
Proof.
  induction config_keys as [|key rest IH]; intros found out Hincl Hfound;
    cbn [PrefixedConfig.iter_loop].
  - intros H. inversion H; subst. exact Hfound.
  - assert (Hkey : In key (keys (prefixed_config self)))
      by (apply Hincl; left; reflexivity).
    assert (Hrest : incl rest (keys (prefixed_config self)))
      by (intros x Hx; apply Hincl; right; exact Hx).
    destruct (String.eqb key (_prefix self)) eqn:Hprefix.
    + apply String.eqb_eq in Hprefix. unfold rbind.
      destruct (BaseConfig.get (prefixed_config self) (Some key) (DefaultValue VNone))
        as [value|e] eqn:Hget; [|discriminate].
      destruct (isinstance_Mapping value) eqn:Hmap; [|apply IH; assumption].
      apply IH; [exact Hrest|].
      intros k Hk. apply set_update_in in Hk. destruct Hk as [Hk | Hk];
        [|apply Hfound; exact Hk].
      right. exists value. subst key. repeat split; assumption.
    + destruct (PyStr.startswith key (_prefix_delimited self)) eqn:Hstarts;
        [|apply IH; assumption].
      apply IH; [exact Hrest|].
      intros k Hk. apply set_update_in in Hk. destruct Hk as [[Hk | []] | Hk];
        [|apply Hfound; exact Hk].
      left. exists key. split; [exact Hkey|]. subst k.
      unfold PyStr.slice_from. rewrite Nat2Z.id.
      apply startswith_drop. exact Hstarts.
Qed.

End PrefixedKeys.

(** X14: the keys a [PrefixedConfig] lists are keys of its child: each is a
    key of the child without the delimited prefix in front, or a key of the
    record the child holds under the prefix.  [__iter__] yields each of them
    once, while [__len__] counts them as they come, so that the length is
    at least the number of keys listed (and more when a key is both nested
    and flat); the two raise together. *)
Theorem prefixed_keys_come_from_the_child :
  forall (C : Type) (HC : Config C) (self : PrefixedConfig C),
    (forall found k,
        PrefixedConfig.iter self = Ok found -> In k found ->
        listed_under_prefix self k)
    /\ (forall found n,
           PrefixedConfig.iter self = Ok found -> PrefixedConfig.len self = Ok n ->
           NoDup found /\ Z.of_nat (List.length found) <= n)
    /\ (forall e,
           PrefixedConfig.iter self = Raise e <-> PrefixedConfig.len self = Raise e).
Proof.
  intros C HC self.
  pose proof (prefixed_loops self (keys (prefixed_config self)) [] 0 (NoDup_nil _))
    as Hloops.
  fold (PrefixedConfig.iter self) in Hloops.
  fold (PrefixedConfig.len self) in Hloops.
  split; [|split].
  - intros found k Hiter Hk.
    apply (prefixed_iter_loop_sound self (keys (prefixed_config self)) [] found);
      [apply incl_refl | intros ? [] | exact Hiter | exact Hk].
  - intros found n Hiter Hlen. rewrite Hiter, Hlen in Hloops.
    destruct Hloops as [Hnd Hcount]. split; [exact Hnd|].
    cbn [List.length] in Hcount. lia.
  - intros e. destruct (PrefixedConfig.iter self) as [found|e1];
      destruct (PrefixedConfig.len self) as [n|e2]; try contradiction.
    + split; discriminate.
    + subst e2. split; intros Heq; inversion Heq; reflexivity.
Qed.

Lemma prefixed_keys_come_from_the_child_witness :
  @PrefixedConfig.iter _ MemoryConfig.config
    (PrefixedConfig.init "db" nested_and_flat) = Ok ["host"]
  /\ @PrefixedConfig.len _ MemoryConfig.config
       (PrefixedConfig.init "db" nested_and_flat) = Ok 2
  /\ @listed_under_prefix _ MemoryConfig.config
       (PrefixedConfig.init "db" nested_and_flat) "host"
  /\ Z.of_nat (List.length ["host"]) <= 2.
Proof.
  destruct (prefixed_keys_come_from_the_child BaseDataConfig MemoryConfig.config
              (PrefixedConfig.init "db" nested_and_flat)) as [Hsound [Hcount _]].
  assert (Hiter : @PrefixedConfig.iter _ MemoryConfig.config
                    (PrefixedConfig.init "db" nested_and_flat) = Ok ["host"])
    by reflexivity.
  assert (Hlen : @PrefixedConfig.len _ MemoryConfig.config
                   (PrefixedConfig.init "db" nested_and_flat) = Ok 2)
    by reflexivity.
  split; [exact Hiter|]. split; [exact Hlen|]. split.
  - apply (Hsound ["host"] "host" Hiter). left. reflexivity.
  - exact (proj2 (Hcount ["host"] 2 Hiter Hlen)).
Defined.

(* ================================================================== *)
(** * Loading from an empty name *)
(* ================================================================== *)

(** X15: a [FileConfig] over the empty filename and a [UrlConfig] over the
    empty url skip their loop, which tests the name first, and fail at
    [to_merge[0]]: [load] raises [IndexError], not [ConfigError], whatever
    the host holds, and the configuration is left as it was. *)
Theorem load_of_empty_name_raises_index_error :
  (forall fuel host merge_dict (self : FileConfig),
      _filename self = EmptyString ->
      FileConfig.load fuel host merge_dict self =
      Some (self, Raise (IndexError "list index out of range")))
  /\ (forall fuel host merge_dict (self : UrlConfig),
         _url self = EmptyString ->
         UrlConfig.load fuel host merge_dict self =
         Some (self, Raise (IndexError "list index out of range"))).
Proof.
  split.
  - intros fuel host merge_dict self Hname.
    unfold FileConfig.load, StateM.bind, StateM.gets. rewrite Hname.
    destruct fuel; reflexivity.
  - intros fuel host merge_dict self Hname.
    unfold UrlConfig.load, StateM.bind, StateM.gets. rewrite Hname.
    destruct fuel; reflexivity.
Qed.

Lemma load_of_empty_name_raises_index_error_witness :
  FileConfig.load 5 ini_host no_merge_dict
    {| file_base := loaded_config; _filename := ""; file_reader := None |} =
  Some ({| file_base := loaded_config; _filename := ""; file_reader := None |},
        Raise (IndexError "list index out of range"))
  /\ UrlConfig.load 5 url_host no_merge_dict (url_config "") =
     Some (url_config "", Raise (IndexError "list index out of range")).
Proof.
  destruct load_of_empty_name_raises_index_error as [Hfile Hurl].
  split.
  - apply Hfile. reflexivity.
  - apply Hurl. reflexivity.
Defined.

(* ================================================================== *)
(** * [get_file_ext] *)
(* ================================================================== *)

Section Strip.
Variable p : ascii -> bool.

Lemma lstrip_with_head (s : string) :
  match PyStr.lstrip_with p s with
  | String a _ => p a = false
  | EmptyString => True
  end.
Proof.
  induction s as [|a s IH]; cbn [PyStr.lstrip_with]; [exact I|].
  destruct (p a) eqn:Ha; [exact IH | exact Ha].
Qed.

Lemma lstrip_with_kept (a : ascii) (s : string) :
  p a = false -> PyStr.lstrip_with p (String a s) = String a s.
Proof. intros Ha. cbn [PyStr.lstrip_with]. rewrite Ha. reflexivity. Qed.

Lemma rstrip_with_head (a : ascii) (s : string) :
  p a = false ->
  exists rest, PyStr.rstrip_with p (String a s) = String a rest.
Proof.
  intros Ha. cbn [PyStr.rstrip_with].
  destruct (PyStr.rstrip_with p s) as [|b r].
  - rewrite Ha. exists EmptyString. reflexivity.
  - exists (String b r). reflexivity.
Qed.

End Strip.

Lemma rstrip_with_last (c : ascii) (s : string) :
  PyStr.endswith_char (PyStr.rstrip_with (Ascii.eqb c) s) c = false.
Proof.
  induction s as [|a s IH]; [reflexivity|].
  cbn [PyStr.rstrip_with].
  destruct (PyStr.rstrip_with (Ascii.eqb c) s) as [|b r].
  - destruct (Ascii.eqb c a) eqn:Ha; [reflexivity|].
    cbn [PyStr.endswith_char]. rewrite Ascii.eqb_sym. exact Ha.
  - exact IH.
Qed.

(** X16: the extension [get_file_ext] returns neither starts nor ends with
    a dot, whatever [os.path.splitext] gave; for an extension made of a dot
    and a name without dots at its ends, it is that name. *)
Theorem get_file_ext_has_no_outer_dot :
  forall (host : Host) (filename : string),
    PyStr.startswith (Readers.get_file_ext host filename) "." = false
    /\ PyStr.endswith_char (Readers.get_file_ext host filename) "." = false
    /\ (forall name,
           snd (path_splitext host filename) = "." ++ name ->
           PyStr.startswith name "." = false ->
           PyStr.endswith_char name "." = false ->
           Readers.get_file_ext host filename = name).
Proof.
  intros host filename. unfold Readers.get_file_ext, PyStr.strip_with.
  split; [|split].
  - pose proof (lstrip_with_head (Ascii.eqb ".") (snd (path_splitext host filename)))
      as Hhead.
    destruct (PyStr.lstrip_with (Ascii.eqb ".") (snd (path_splitext host filename)))
      as [|a s]; [reflexivity|].
    destruct (rstrip_with_head (Ascii.eqb ".") a s Hhead) as [rest ->].
    cbn [PyStr.startswith]. rewrite Ascii.eqb_sym, Hhead. reflexivity.
  - apply rstrip_with_last.
  - intros name Hext Hstart Hend. rewrite Hext.
    change ("." ++ name) with (String "." name).
    cbn [PyStr.lstrip_with]. rewrite Ascii.eqb_refl.
    assert (Hkept : PyStr.lstrip_with (Ascii.eqb ".") name = name).
    { destruct name as [|a s]; [reflexivity|].
      apply lstrip_with_kept. rewrite Ascii.eqb_sym.
      destruct (Ascii.eqb a ".") eqn:Ha; [|reflexivity].
      cbn [PyStr.startswith] in Hstart. rewrite Ha in Hstart.
      destruct s; discriminate Hstart. }
    rewrite Hkept. apply rstrip_not_ending. exact Hend.
Qed.

Lemma get_file_ext_has_no_outer_dot_witness :
  Readers.get_file_ext ini_host "app.ini" = "ini".
Proof.
  destruct (get_file_ext_has_no_outer_dot ini_host "app.ini") as [_ [_ Hname]].
  apply Hname; reflexivity.
Defined.
